(** * Catalog simplification and inventory validation

    A shallow embedding of [validate_inventory.py] and
    [simplify_catalogs.py], and the properties of their specification.

    Text.  A Python [str] is modelled by a Rocq [string]: an ASCII text
    by its characters, one [ascii] each, and any other text by the bytes
    of its UTF-8 form, which keeps the order Python gives to strings.
    The check marks and bullets of the report's fixed text are written
    so, and the one place that counts their characters counts them as
    Python does.

    Python's character classes ([\s], [\d], [\w]), [str.strip],
    [str.upper] and [int] follow the tables of Unicode, which this
    development does not hold, and [int] refuses a number of more than
    4300 digits.  Here they are the ones Python has on ASCII text: a
    byte above 127 belongs to no class and has no case, and [int] is
    total.  A property that depends on them is stated of the texts on
    which the two agree, [Py.isascii] and [Py.covered]; a property that
    depends on [str.upper] alone is stated for an arbitrary upper-casing
    function in its place.

    Regular expressions.  The patterns of the scripts are values of a
    small syntax, run by a backtracking matcher that tries the choices in
    the order of Python's [re]; [search], [findall], [sub] and [split]
    are built on it.  The matcher is proved sound and complete for a
    declarative notion of match, and its fuel sufficient.

    Exceptions.  A function that can raise returns a [result]; the
    exceptions are the ones the scripts can meet: [KeyError] on a missing
    dictionary key, [AttributeError] on [None.group], and the like.

    Files.  The file system is a finite map from paths to contents.  What
    the scripts print is left out. *)

From Stdlib Require Import Ascii ZArith DecimalString.
From stdpp Require Import gmap strings list sorting.

#[local] Set Warnings "-clear-no-such-hyp,-register-all".
#[local] Set Default Proof Using "Type".


(** ** Python strings *)

Module Py.

Definition nl : string := String "010" "".

Definition is_space (a : ascii) : bool :=
  let n := nat_of_ascii a in
  ((9 <=? n) && (n <=? 13)) || ((28 <=? n) && (n <=? 32)).

Definition is_digit (a : ascii) : bool :=
  let n := nat_of_ascii a in (48 <=? n) && (n <=? 57).

Definition is_lower (a : ascii) : bool :=
  let n := nat_of_ascii a in (97 <=? n) && (n <=? 122).

Definition is_upper (a : ascii) : bool :=
  let n := nat_of_ascii a in (65 <=? n) && (n <=? 90).

Definition is_word (a : ascii) : bool :=
  is_lower a || is_upper a || is_digit a || Ascii.eqb a "_".

Definition upper_char (a : ascii) : ascii :=
  if is_lower a then ascii_of_nat (nat_of_ascii a - 32) else a.

(** [s.upper()] *)
Fixpoint upper (s : string) : string :=
  match s with
  | "" => ""
  | String a s' => String (upper_char a) (upper s')
  end.

(** [s.lstrip()], [s.rstrip()], [s.strip()] *)
Fixpoint lstrip (s : string) : string :=
  match s with
  | "" => ""
  | String a s' => if is_space a then lstrip s' else s
  end.

Fixpoint rstrip (s : string) : string :=
  match s with
  | "" => ""
  | String a s' =>
      match rstrip s' with
      | "" => if is_space a then "" else String a ""
      | t => String a t
      end
  end.

Definition strip (s : string) : string := rstrip (lstrip s).

(** [s.startswith(p)] is [String.prefix p s]; the rest of [s] after [p]: *)
Fixpoint strip_prefix (p s : string) : option string :=
  match p, s with
  | "", _ => Some s
  | String a p', String b s' =>
      if Ascii.eqb a b then strip_prefix p' s' else None
  | String _ _, "" => None
  end.

(** [s.split(sep)] for a non-empty [sep]: the pieces between the
    non-overlapping occurrences of [sep], found from the left.  [skip]
    counts the characters of an occurrence still to be passed over and
    [cur] holds the piece being read. *)
Fixpoint split_aux (sep : string) (skip : nat) (cur s : string) : list string :=
  match s with
  | "" => [cur]
  | String a s' =>
      match skip with
      | S n => split_aux sep n cur s'
      | O =>
          if String.prefix sep s
          then cur :: split_aux sep (String.length sep - 1) "" s'
          else split_aux sep 0 (cur +:+ String a "") s'
      end
  end.

Definition split (sep s : string) : list string := split_aux sep 0 "" s.

(** [sub in s] *)
Fixpoint contains (sub s : string) : bool :=
  String.prefix sub s
  || match s with
     | "" => false
     | String _ s' => contains sub s'
     end.

(** every character of [s] is of the class [p] *)
Fixpoint all_chars (p : ascii -> bool) (s : string) : bool :=
  match s with
  | "" => true
  | String a s' => p a && all_chars p s'
  end.

(** [len(x)] of a list and of a string, as the Python integer it is *)
Definition len {A} (l : list A) : Z := Z.of_nat (length l).
Definition slen (s : string) : Z := Z.of_nat (String.length s).

(** [str(n)] of an integer *)
Definition str (n : Z) : string := NilZero.string_of_int (Z.to_int n).

(** [int(s)] on a string of decimal digits, as [\d+] matches them (the
    bound Python puts on the number of digits it converts, 4300 unless
    configured otherwise, is left out) *)
Definition digit_val (a : ascii) : Z := Z.of_nat (nat_of_ascii a - 48).

Fixpoint int_aux (acc : Z) (s : string) : Z :=
  match s with
  | "" => acc
  | String a s' => int_aux (10 * acc + digit_val a) s'
  end.

Definition int (s : string) : Z := int_aux 0 s.

(** [s.isascii()] *)
Definition isascii (s : string) : bool :=
  all_chars (fun a => nat_of_ascii a <? 128) s.

(** [sys.int_info.default_max_str_digits]: [int] raises [ValueError] on
    a string of more digits *)
Definition max_str_digits : nat := 4300.

(** no run of digits of [s] is longer than [limit]; [run] is the length
    of the run that ends where [s] starts *)
Fixpoint digit_runs_within (limit run : nat) (s : string) : bool :=
  match s with
  | "" => true
  | String a s' =>
      if is_digit a
      then (S run <=? limit) && digit_runs_within limit (S run) s'
      else digit_runs_within limit 0 s'
  end.

(** the texts on which the classes, [strip], [upper] and [int] above are
    Python's: ASCII texts in which no run of digits is too long for
    [int] *)
Definition covered (s : string) : bool :=
  isascii s && digit_runs_within max_str_digits 0 s.

(** [sep.join(l)] is [String.concat sep l]; [c * n] for a character: *)
Fixpoint repeat_char (a : ascii) (n : nat) : string :=
  match n with
  | O => ""
  | S n' => String a (repeat_char a n')
  end.

(** [sorted(S)] of a set of strings *)
Definition sorted (X : gset string) : list string :=
  merge_sort String.le (elements X).

End Py.

(** ** Regular expressions, as Python's [re] runs them

    A backtracking matcher: alternatives are tried from the left, a greedy
    repetition tries one more round before it stops, a lazy one stops
    before it tries one more.  [exec r s c k] matches [r] at the start of
    [s] with the groups [c] captured so far and hands what is left of the
    text to the continuation [k]; when [k] refuses, the next choice is
    tried. *)

Module Re.

Inductive regex : Type :=
| Lit (p : string)                       (* literal text *)
| Cls (p : ascii -> bool)                (* one character of a class *)
| Seq (r1 r2 : regex)
| Alt (r1 r2 : regex)                    (* r1|r2 *)
| Rep (lo : nat) (hi : option nat) (greedy : bool) (r : regex)
| Grp (n : nat) (r : regex)              (* capturing group number n *)
| Ahead (r : regex)                      (* (?=r) *)
| Eos.                                   (* $ *)

Abbreviation caps := (gmap nat string).

Definition answer : Type := string * caps.

(** the text a match took: what [s] has before its suffix [s'] *)
Definition consumed (s s' : string) : string :=
  String.substring 0 (String.length s - String.length s') s.

Definition below (cnt : nat) (hi : option nat) : bool :=
  match hi with
  | None => true
  | Some h => cnt <? h
  end.

(** The rounds of a repetition [r{lo,hi}], [step] being the matcher of
    [r].  A round has to take some text, which bounds the number of rounds
    by the length of the text: [fuel] is never used up when it starts
    above that length. *)
Fixpoint rep_loop
    (step : string -> caps -> (string -> caps -> option answer)
            -> option answer)
    (lo : nat) (hi : option nat) (greedy : bool)
    (k : string -> caps -> option answer)
    (fuel cnt : nat) (s : string) (c : caps) {struct fuel} : option answer :=
  match fuel with
  | O => None
  | S fuel' =>
      let again (_ : unit) :=
        if below cnt hi
        then step s c (fun s' c' =>
               if String.length s' <? String.length s
               then rep_loop step lo hi greedy k fuel' (S cnt) s' c'
               else None)
        else None in
      let stop (_ : unit) := if lo <=? cnt then k s c else None in
      if greedy
      then match again tt with Some x => Some x | None => stop tt end
      else match stop tt with Some x => Some x | None => again tt end
  end.

Fixpoint exec (r : regex) (s : string) (c : caps)
    (k : string -> caps -> option answer) {struct r} : option answer :=
  match r with
  | Lit p =>
      match Py.strip_prefix p s with
      | Some s' => k s' c
      | None => None
      end
  | Cls p =>
      match s with
      | String a s' => if p a then k s' c else None
      | "" => None
      end
  | Seq r1 r2 => exec r1 s c (fun s' c' => exec r2 s' c' k)
  | Alt r1 r2 =>
      match exec r1 s c k with
      | Some x => Some x
      | None => exec r2 s c k
      end
  | Rep lo hi greedy r1 =>
      rep_loop (exec r1) lo hi greedy k (S (String.length s)) 0 s c
  | Grp n r1 => exec r1 s c (fun s' c' => k s' (<[n := consumed s s']> c'))
  | Ahead r1 =>
      match exec r1 s c (fun s' c' => Some (s', c')) with
      | Some (_, c') => k s c'
      | None => None
      end
  | Eos => if String.eqb s "" || String.eqb s Py.nl then k s c else None
  end.

(** A match object: the text before the match, the match, the text
    after it and the groups. *)
Record match_obj : Type := MatchObj {
  m_before : string;
  m_whole : string;
  m_after : string;
  m_groups : caps
}.

(** [m.group(n)] for a group that took part in the match *)
Definition group (m : match_obj) (n : nat) : string :=
  match n with
  | O => m_whole m
  | _ => default "" (m_groups m !! n)
  end.

(** [re.match(r, s)]; with [must_advance] an empty match is refused, as
    the scanning functions ask for right after an empty match. *)
Definition match_at (must_advance : bool) (r : regex) (s : string)
    : option answer :=
  exec r s ∅ (fun s' c =>
    if must_advance && (String.length s' =? String.length s)
    then None else Some (s', c)).

Definition match_ (r : regex) (s : string) : option match_obj :=
  match match_at false r s with
  | Some (s', c) => Some (MatchObj "" (consumed s s') s' c)
  | None => None
  end.

(** [re.search(r, s)]: the leftmost match.  [pre] is the text passed
    over. *)
Fixpoint search_from (must_advance : bool) (r : regex) (pre s : string)
    : option match_obj :=
  match match_at must_advance r s with
  | Some (s', c) => Some (MatchObj pre (consumed s s') s' c)
  | None =>
      match s with
      | "" => None
      | String a s' => search_from false r (pre +:+ String a "") s'
      end
  end.

Definition search (r : regex) (s : string) : option match_obj :=
  search_from false r "" s.

(** The matches the scanning functions ([findall], [sub], [split]) see:
    non-overlapping, from the left, each with the text since the previous
    one, and the text left after the last. *)
Fixpoint scan (fuel : nat) (must_advance : bool) (r : regex) (s : string)
    : list match_obj * string :=
  match fuel with
  | O => ([], s)
  | S fuel' =>
      match search_from must_advance r "" s with
      | None => ([], s)
      | Some m =>
          let '(ms, tl) :=
            scan fuel' (String.eqb (m_whole m) "") r (m_after m) in
          (m :: ms, tl)
      end
  end.

Definition finditer (r : regex) (s : string) : list match_obj * string :=
  scan (2 * String.length s + 2) false r s.

(** [re.findall(r, s)] for a pattern with one group *)
Definition findall1 (r : regex) (s : string) : list string :=
  (fun m => group m 1) <$> (finditer r s).1.

(** A replacement template: literal text and [\g<n>] references. *)
Inductive repl_item : Type :=
| RLit (t : string)
| RGrp (n : nat).

Definition expand (tpl : list repl_item) (m : match_obj) : string :=
  String.concat ""
    ((fun i => match i with RLit t => t | RGrp n => group m n end) <$> tpl).

(** [re.sub(r, tpl, s)] *)
Definition sub (r : regex) (tpl : list repl_item) (s : string) : string :=
  let '(ms, tl) := finditer r s in
  String.concat "" ((fun m => m_before m +:+ expand tpl m) <$> ms) +:+ tl.

(** [re.split(r, s)] for a pattern with one group: the pieces between
    the matches, each followed by the group of the match after it. *)
Definition split1 (r : regex) (s : string) : list string :=
  let '(ms, tl) := finditer r s in
  concat ((fun m => [m_before m; group m 1]) <$> ms) ++ [tl].

(** What it is for a pattern to match, apart from the order in which
    the matcher tries the choices: [matches r w rest c c'] says that [r]
    matches the text [w] when [rest] follows it, and turns the groups [c]
    into [c'].  A repetition is a run of [rounds], each taking some
    text. *)
Inductive rounds (M : string -> string -> caps -> caps -> Prop)
    (lo : nat) (hi : option nat)
    : nat -> string -> string -> caps -> caps -> Prop :=
| rounds_stop cnt rest c :
    lo <= cnt -> rounds M lo hi cnt "" rest c c
| rounds_again cnt w1 w2 rest c c1 c2 :
    below cnt hi = true -> w1 <> "" ->
    M w1 (w2 +:+ rest) c c1 ->
    rounds M lo hi (S cnt) w2 rest c1 c2 ->
    rounds M lo hi cnt (w1 +:+ w2) rest c c2.

Inductive matches : regex -> string -> string -> caps -> caps -> Prop :=
| matches_Lit p rest c :
    matches (Lit p) p rest c c
| matches_Cls (p : ascii -> bool) a rest c :
    p a = true -> matches (Cls p) (String a "") rest c c
| matches_Seq r1 r2 w1 w2 rest c c1 c2 :
    matches r1 w1 (w2 +:+ rest) c c1 -> matches r2 w2 rest c1 c2 ->
    matches (Seq r1 r2) (w1 +:+ w2) rest c c2
| matches_Alt_l r1 r2 w rest c c' :
    matches r1 w rest c c' -> matches (Alt r1 r2) w rest c c'
| matches_Alt_r r1 r2 w rest c c' :
    matches r2 w rest c c' -> matches (Alt r1 r2) w rest c c'
| matches_Rep lo hi greedy r w rest c c' :
    rounds (matches r) lo hi 0 w rest c c' ->
    matches (Rep lo hi greedy r) w rest c c'
| matches_Grp n r w rest c c' :
    matches r w rest c c' -> matches (Grp n r) w rest c (<[n := w]> c')
| matches_Ahead r w rest c c' :
    matches r w rest c c' -> matches (Ahead r) "" (w +:+ rest) c c'
| matches_Eos rest c :
    rest = "" \/ rest = Py.nl -> matches Eos "" rest c c.

(** a matcher that gives equal answers to continuations that agree *)
Definition extensional
    (step : string -> caps -> (string -> caps -> option answer)
            -> option answer) : Prop :=
  forall s c k1 k2,
    (forall s' c', k1 s' c' = k2 s' c') -> step s c k1 = step s c k2.

(** a continuation that accepts the text [rest] with any groups *)
Definition accepts (k : string -> caps -> option answer) (rest : string)
    : Prop :=
  forall d, is_Some (k rest d).

(** [w] is a part of the text [s] *)
Definition part_of (w s : string) : Prop :=
  exists before after, s = before +:+ w +:+ after.

(** Pattern syntax *)
Definition star (r : regex) : regex := Rep 0 None true r.
Definition plus (r : regex) : regex := Rep 1 None true r.
Definition lazy_star (r : regex) : regex := Rep 0 None false r.
Definition at_least (n : nat) (r : regex) : regex := Rep n None true r.
Definition chr (a : ascii) : regex := Cls (Ascii.eqb a).
Definition not_chr (a : ascii) : regex := Cls (fun b => negb (Ascii.eqb a b)).
Definition any_dotall : regex := Cls (fun _ => true).
Definition any : regex := not_chr "010".
Definition space : regex := Cls Py.is_space.
Definition digit : regex := Cls Py.is_digit.
Definition word : regex := Cls Py.is_word.

Fixpoint chain (rs : list regex) : regex :=
  match rs with
  | [] => Lit ""
  | [r] => r
  | r :: rs' => Seq r (chain rs')
  end.

End Re.

(** ** Exceptions *)

Inductive exn : Type :=
| KeyError (key : string)
| IndexError
| TypeError
| AttributeError
| ZeroDivisionError
| FileNotFoundError (path : string).

Inductive result (A : Type) : Type :=
| Ok (a : A)
| Raise (e : exn).

Arguments Ok {A} a.
Arguments Raise {A} e.

Definition bind {A B} (x : result A) (f : A -> result B) : result B :=
  match x with
  | Ok a => f a
  | Raise e => Raise e
  end.

Arguments bind : simpl never.

Notation "x <- e1 ;; e2" := (bind e1 (fun x => e2))
  (at level 100, e1 at next level, right associativity).

(** [d[key]] on a dictionary entry that may be missing *)
Definition getitem {A} (key : string) (v : option A) : result A :=
  match v with
  | Some a => Ok a
  | None => Raise (KeyError key)
  end.

(** a loop whose body can raise: the first exception ends it *)
Fixpoint for_each {A B} (f : A -> result B) (l : list A) : result (list B) :=
  match l with
  | [] => Ok []
  | x :: l' => y <- f x ;; ys <- for_each f l' ;; Ok (y :: ys)
  end.

(** the double quote, for the markers that hold one *)
Definition dq : string := String "034" "".
Definition quoted (s : string) : string := dq +:+ s +:+ dq.

(** ** Files

    The scripts read and write whole files; the file system is a map from
    paths to contents. *)

Abbreviation fs := (gmap string string).

Definition read_file (files : fs) (path : string) : result string :=
  match files !! path with
  | Some content => Ok content
  | None => Raise (FileNotFoundError path)
  end.

Definition write_file (files : fs) (path content : string) : fs :=
  <[path := content]> files.

(** * validate_inventory.py *)

Module validate_inventory.

Import Re.

(** A product is a dictionary with the keys ['name'] and ['hcpcs'], each
    of which may be missing. *)
Record product : Type := Product {
  name : option string;
  hcpcs : option string
}.

(** *** CatalogParser

    The handlers of the [HTMLParser] subclass, as steps on the fields of
    the object.  [feed] runs them over the tags and the text that
    [HTMLParser] reads off a document. *)

Module CatalogParser.

Record state : Type := State {
  categories : list string;
  products : list product;
  current_category : option string;
  in_category_header : bool;
  in_product_card : bool;
  in_product_name : bool;
  in_hcpcs_code : bool;
  current_product : product;
  current_data : list string
}.

(** [__init__] *)
Definition init : state :=
  {| categories := []; products := []; current_category := None;
     in_category_header := false; in_product_card := false;
     in_product_name := false; in_hcpcs_code := false;
     current_product := Product None None; current_data := [] |}.

(** [dict(attrs)['class']]: the value of the last [class] attribute *)
Definition class_of (attrs : list (string * option string))
    : option (option string) :=
  (list_to_map (reverse attrs) : gmap string (option string)) !! "class".

Definition handle_starttag (self : state) (tag : string)
    (attrs : list (string * option string)) : result state :=
  match class_of attrs with
  | None => Ok self
  | Some None => Raise TypeError
  | Some (Some class) =>
      let self :=
        if Py.contains "category-header" class
        then {| categories := categories self; products := products self;
                current_category := current_category self;
                in_category_header := true;
                in_product_card := in_product_card self;
                in_product_name := in_product_name self;
                in_hcpcs_code := in_hcpcs_code self;
                current_product := current_product self;
                current_data := [] |}
        else self in
      let self :=
        if Py.contains "product-card" class
        then {| categories := categories self; products := products self;
                current_category := current_category self;
                in_category_header := in_category_header self;
                in_product_card := true;
                in_product_name := in_product_name self;
                in_hcpcs_code := in_hcpcs_code self;
                current_product := Product None None;
                current_data := current_data self |}
        else self in
      let self :=
        if in_product_card self && Py.contains "product-name" class
        then {| categories := categories self; products := products self;
                current_category := current_category self;
                in_category_header := in_category_header self;
                in_product_card := in_product_card self;
                in_product_name := true;
                in_hcpcs_code := in_hcpcs_code self;
                current_product := current_product self;
                current_data := [] |}
        else self in
      let self :=
        if in_product_card self && Py.contains "hcpcs-code" class
        then {| categories := categories self; products := products self;
                current_category := current_category self;
                in_category_header := in_category_header self;
                in_product_card := in_product_card self;
                in_product_name := in_product_name self;
                in_hcpcs_code := true;
                current_product := current_product self;
                current_data := [] |}
        else self in
      Ok self
  end.

Definition joined (self : state) : string :=
  Py.strip (String.concat "" (current_data self)).

Definition handle_endtag (self : state) (tag : string) : state :=
  let self :=
    if String.eqb tag "div" && in_category_header self
    then let category_text := joined self in
         let keep := negb (String.eqb category_text "") in
         {| categories :=
              if keep then categories self ++ [category_text]
              else categories self;
            products := products self;
            current_category :=
              if keep then Some category_text else current_category self;
            in_category_header := false;
            in_product_card := in_product_card self;
            in_product_name := in_product_name self;
            in_hcpcs_code := in_hcpcs_code self;
            current_product := current_product self;
            current_data := [] |}
    else self in
  let self :=
    if String.eqb tag "div" && in_product_name self
    then let product_text := joined self in
         {| categories := categories self; products := products self;
            current_category := current_category self;
            in_category_header := in_category_header self;
            in_product_card := in_product_card self;
            in_product_name := false;
            in_hcpcs_code := in_hcpcs_code self;
            current_product :=
              if negb (String.eqb product_text "")
              then Product (Some product_text) (hcpcs (current_product self))
              else current_product self;
            current_data := [] |}
    else self in
  let self :=
    if String.eqb tag "span" && in_hcpcs_code self
    then let hcpcs_text := joined self in
         {| categories := categories self; products := products self;
            current_category := current_category self;
            in_category_header := in_category_header self;
            in_product_card := in_product_card self;
            in_product_name := in_product_name self;
            in_hcpcs_code := false;
            current_product :=
              if negb (String.eqb hcpcs_text "")
              then Product (name (current_product self)) (Some hcpcs_text)
              else current_product self;
            current_data := [] |}
    else self in
  if String.eqb tag "div" && in_product_card self
     && negb (in_product_name self) && negb (in_hcpcs_code self)
     && bool_decide (is_Some (name (current_product self)))
  then {| categories := categories self;
          products := products self ++ [current_product self];
          current_category := current_category self;
          in_category_header := in_category_header self;
          in_product_card := false;
          in_product_name := in_product_name self;
          in_hcpcs_code := in_hcpcs_code self;
          current_product := Product None None;
          current_data := current_data self |}
  else self.

Definition handle_data (self : state) (data : string) : state :=
  if in_category_header self || in_product_name self || in_hcpcs_code self
  then {| categories := categories self; products := products self;
          current_category := current_category self;
          in_category_header := in_category_header self;
          in_product_card := in_product_card self;
          in_product_name := in_product_name self;
          in_hcpcs_code := in_hcpcs_code self;
          current_product := current_product self;
          current_data := current_data self ++ [data] |}
  else self.

(** what [HTMLParser] hands to the handlers *)
Inductive event : Type :=
| StartTag (tag : string) (attrs : list (string * option string))
| EndTag (tag : string)
| Data (data : string).

Definition handle (self : state) (e : event) : result state :=
  match e with
  | StartTag tag attrs => handle_starttag self tag attrs
  | EndTag tag => Ok (handle_endtag self tag)
  | Data data => Ok (handle_data self data)
  end.

Fixpoint feed (self : state) (events : list event) : result state :=
  match events with
  | [] => Ok self
  | e :: events' => self' <- handle self e ;; feed self' events'
  end.

(** what the guards of [handle_endtag] keep true of the object: no empty
    category, and no product with an empty name or an empty code *)
Definition filled (p : product) : Prop :=
  name p ≠ Some "" ∧ hcpcs p ≠ Some "".

Definition guarded (self : state) : Prop :=
  Forall (λ category, category ≠ "") (categories self)
  ∧ Forall filled (products self)
  ∧ filled (current_product self).

(** and what they keep true besides: every text stored is stripped and
    not empty, and every product appended has a name *)
Definition kept (p : product) : Prop :=
  (∀ n, name p = Some n → n ≠ "" ∧ Py.strip n = n)
  ∧ (∀ code, hcpcs p = Some code → code ≠ "" ∧ Py.strip code = code).

Definition tidy (self : state) : Prop :=
  Forall (λ category, category ≠ "" ∧ Py.strip category = category)
         (categories self)
  ∧ Forall (λ p, is_Some (name p) ∧ kept p) (products self)
  ∧ kept (current_product self).

(** a start tag with a [class] attribute that has no value *)
Definition valueless_class (e : event) : Prop :=
  match e with
  | StartTag _ attrs => class_of attrs = Some None
  | _ => False
  end.

(** the tags and the text of a product card whose name comes before its
    code *)
Definition card_events (n code : string) : list event :=
  [StartTag "div" [("class", Some "product-card")];
   StartTag "div" [("class", Some "product-name")];
   Data n;
   EndTag "div";
   StartTag "span" [("class", Some "hcpcs-code")];
   Data code;
   EndTag "span";
   EndTag "div"].

End CatalogParser.

(** What the two parsers return for one catalog.  The keys
    ['num_unique_hcpcs'] and ['hcpcs_codes'] are set by
    [parse_inventory_before] alone. *)
Record inventory : Type := Inventory {
  categories : list string;
  products : list product;
  num_categories : Z;
  num_products : Z;
  num_unique_hcpcs : option Z;
  hcpcs_codes : option (list string)
}.

(** *** parse_html_file *)

(** the markers of the catalog documents *)
Definition category_header_marker : string :=
  "<div class=" +:+ quoted "category-header" +:+ ">".

Definition product_card_marker : string :=
  "<div class=" +:+ quoted "product-card" +:+ ">".

Definition product_name_marker : string :=
  "<div class=" +:+ quoted "product-name" +:+ ">".

Definition hcpcs_code_marker : string :=
  "<span class=" +:+ quoted "hcpcs-code" +:+ ">".

Definition category_pattern : regex :=
  chain [Lit category_header_marker; star space;
         Grp 1 (plus (not_chr "<")); star space; Lit "</div>"].

Definition product_name_pattern : regex :=
  chain [Lit product_name_marker; Grp 1 (plus (not_chr "<")); Lit "</div>"].

Definition hcpcs_code_pattern : regex :=
  chain [Lit hcpcs_code_marker; Grp 1 (plus (not_chr "<")); Lit "</span>"].

(** the body of the loop over the cards: [None] when the card has no
    product name and adds nothing *)
Definition parse_card (card : string) : option product :=
  match search product_name_pattern card with
  | Some name_match =>
      Some {| name := Some (Py.strip (group name_match 1));
              hcpcs :=
                match search hcpcs_code_pattern card with
                | Some hcpcs_match => Some (Py.strip (group hcpcs_match 1))
                | None => None
                end |}
  | None => None
  end.

(** [parse_html_file] on the content of the file *)
Definition parse_html (content : string) : inventory :=
  let categories := findall1 category_pattern content in
  let categories := Py.strip <$> categories in
  let card_splits := Py.split product_card_marker content in
  let products := omap parse_card (drop 1 card_splits) in
  {| categories := categories;
     products := products;
     num_categories := Py.len categories;
     num_products := Py.len products;
     num_unique_hcpcs := None;
     hcpcs_codes := None |}.

Definition parse_html_file (files : fs) (file_path : string)
    : result inventory :=
  content <- read_file files file_path ;;
  Ok (parse_html content).

(** *** parse_inventory_before *)

Definition section_pattern : regex :=
  chain [at_least 80 (chr "="); Lit (Py.nl +:+ "FILE: ");
       Grp 1 (chain [Lit "catalog_"; plus word; Lit ".html"]);
       Lit Py.nl; at_least 80 (chr "=")].

Definition stats_pattern : regex :=
  chain [Lit "STATISTICS:"; plus space;
       Lit "Total categories: "; Grp 1 (plus digit); plus space;
       Lit "Total products: "; Grp 2 (plus digit); plus space;
       Lit "Unique HCPCS codes: "; Grp 3 (plus digit)].



Definition cat_section_pattern : regex :=
  chain [Lit "CATEGORIES:"; Grp 1 (lazy_star any_dotall);
       Ahead (Alt (Lit "ALL HCPCS CODES") Eos)].

Definition cat_line_pattern : regex :=
  chain [star space; plus digit; Lit "."; plus space; Grp 1 (plus any)].

Definition hcpcs_section_pattern : regex :=
  chain [Lit "ALL HCPCS CODES (sorted, unique):"; Grp 1 (lazy_star any_dotall);
       Ahead (Alt (Lit "COMPLETE PRODUCT LIST") Eos)].

Definition prod_section_pattern : regex :=
  chain [Lit "COMPLETE PRODUCT LIST:"; Grp 1 (lazy_star any_dotall);
       Ahead (Alt (Lit (Py.nl +:+ Py.nl +:+ Py.nl)) Eos)].

Definition prod_line_pattern : regex :=
  chain [star space; plus digit; Lit "."; plus space; Lit "[";
       Grp 1 (plus (not_chr "]")); Lit "]"; plus space; Grp 2 (plus any)].

(** the lines of a section that a pattern finds, [[]] when it finds none *)
Definition section_lines (pat : regex) (file_content : string) : list string :=
  match search pat file_content with
  | Some sec => Py.split Py.nl (Py.strip (group sec 1))
  | None => []
  end.

Definition parse_categories (file_content : string) : list string :=
  omap (fun line =>
          match match_ cat_line_pattern line with
          | Some m => Some (Py.strip (group m 1))
          | None => None
          end)
       (section_lines cat_section_pattern file_content).

Definition parse_hcpcs_codes (file_content : string) : list string :=
  omap (fun line =>
          let code := Py.strip line in
          if negb (String.eqb code "") && negb (String.prefix "=" code)
          then Some code else None)
       (section_lines hcpcs_section_pattern file_content).

Definition parse_products (file_content : string) : list product :=
  omap (fun line =>
          match match_ prod_line_pattern line with
          | Some m =>
              Some {| hcpcs := Some (Py.strip (group m 1));
                      name := Some (Py.strip (group m 2)) |}
          | None => None
          end)
       (section_lines prod_section_pattern file_content).

(** the body of the loop over the sections *)
Definition parse_section (file_content : string) : inventory :=
  let stats_match := search stats_pattern file_content in
  let categories := parse_categories file_content in
  let hcpcs_codes := parse_hcpcs_codes file_content in
  let products := parse_products file_content in
  {| num_categories :=
       match stats_match with
       | Some m => Py.int (group m 1)
       | None => Py.len categories
       end;
     num_products :=
       match stats_match with
       | Some m => Py.int (group m 2)
       | None => Py.len products
       end;
     num_unique_hcpcs :=
       Some match stats_match with
            | Some m => Py.int (group m 3)
            | None => Z.of_nat (size (list_to_set hcpcs_codes : gset string))
            end;
     categories := categories;
     hcpcs_codes := Some hcpcs_codes;
     products := products |}.

(** [range(1, n, 2)] *)
Definition odd_indices (n : nat) : list nat :=
  (fun j => 2 * j + 1) <$> seq 0 (n / 2).

Definition index {A} (l : list A) (i : nat) : result A :=
  match l !! i with
  | Some a => Ok a
  | None => Raise IndexError
  end.

(** the body of the loop over [range(1, len(file_sections), 2)] *)
Definition parse_before_step (file_sections : list string)
    (acc : result (gmap string inventory)) (i : nat)
    : result (gmap string inventory) :=
  files_data <- acc ;;
  file_name <- index file_sections i ;;
  file_content <- index file_sections (i + 1) ;;
  Ok (<[file_name := parse_section file_content]> files_data).

(** [parse_inventory_before] on the content of the file *)
Definition parse_before (content : string) : result (gmap string inventory) :=
  let file_sections := split1 section_pattern content in
  foldl (parse_before_step file_sections) (Ok ∅)
        (odd_indices (length file_sections)).

(** the catalog names of the section delimiters found in the content *)
Definition section_names (content : string) : list string :=
  (fun m => group m 1) <$> (finditer section_pattern content).1.

Definition parse_inventory_before (files : fs) (file_path : string)
    : result (gmap string inventory) :=
  content <- read_file files file_path ;;
  parse_before content.

(** *** compare_inventories *)

Record comparison : Type := Comparison {
  file : string;
  categories_match : bool;
  products_match : bool;
  missing_categories : list string;
  missing_hcpcs : list string;
  missing_products : list string;
  extra_categories : list string;
  extra_hcpcs : list string;
  extra_products : list string;
  before_num_categories : Z;
  after_num_categories : Z;
  before_num_products : Z;
  after_num_products : Z;
  all_match : bool
}.

(** [{p['name'].upper(): p for p in l}]: a later product takes the place
    of an earlier one with the same key; a product without a name raises. *)
Definition by_upper_name_step (acc : result (gmap string product))
    (p : product) : result (gmap string product) :=
  m <- acc ;;
  n <- getitem "name" (name p) ;;
  Ok (<[Py.upper n := p]> m).

Definition by_upper_name (l : list product)
    : result (gmap string product) :=
  foldl by_upper_name_step (Ok ∅) l.

(** every product of such a dictionary sits under its upper-cased name *)
Definition keyed (m : gmap string product) : Prop :=
  ∀ k p, m !! k = Some p → ∃ n, name p = Some n ∧ Py.upper n = k.

Definition named (p : product) : Prop := is_Some (name p).

(** [... for p in l if 'name' in p] *)
Definition with_name (l : list product) : list product :=
  filter (fun p => is_Some (name p)) l.

(** [[d[key]['name'] for key in keys]] *)
Definition names_of (d : gmap string product) (keys : list string)
    : result (list string) :=
  for_each (fun key =>
              p <- getitem key (d !! key) ;;
              getitem "name" (name p))
           keys.

Definition compare_inventories (before_data after_data : inventory)
    (file_name : string) : result comparison :=
  let categories_match :=
    bool_decide (num_categories before_data = num_categories after_data) in
  let products_match :=
    bool_decide (num_products before_data = num_products after_data) in
  codes <- getitem "hcpcs_codes" (hcpcs_codes before_data) ;;
  let before_hcpcs : gset string := list_to_set codes in
  let after_hcpcs : gset string :=
    list_to_set (omap hcpcs (products after_data)) in
  let missing_hcpcs := Py.sorted (before_hcpcs ∖ after_hcpcs) in
  let extra_hcpcs := Py.sorted (after_hcpcs ∖ before_hcpcs) in
  before_products <- by_upper_name (products before_data) ;;
  after_products <- by_upper_name (with_name (products after_data)) ;;
  let missing_product_names := dom before_products ∖ dom after_products in
  missing_products <-
    names_of before_products (Py.sorted missing_product_names) ;;
  let extra_product_names := dom after_products ∖ dom before_products in
  extra_products <-
    names_of after_products (Py.sorted extra_product_names) ;;
  Ok {| file := file_name;
        categories_match := categories_match;
        products_match := products_match;
        missing_categories := [];
        missing_hcpcs := missing_hcpcs;
        missing_products := missing_products;
        extra_categories := [];
        extra_hcpcs := extra_hcpcs;
        extra_products := extra_products;
        before_num_categories := num_categories before_data;
        after_num_categories := num_categories after_data;
        before_num_products := num_products before_data;
        after_num_products := num_products after_data;
        all_match :=
          categories_match && products_match
          && bool_decide (Py.len missing_hcpcs = 0%Z)
          && bool_decide (Py.len extra_hcpcs = 0%Z)
          && bool_decide (Py.len missing_products = 0%Z)
          && bool_decide (Py.len extra_products = 0%Z) |}.

(** The code sets as the specification words them: each side's from
    its own products. *)
Definition product_codes (l : list product) : gset string :=
  list_to_set (omap hcpcs l).

Definition spec_missing_codes (before after : inventory) : list string :=
  Py.sorted (product_codes (products before) ∖ product_codes (products after)).

Definition spec_extra_codes (before after : inventory) : list string :=
  Py.sorted (product_codes (products after) ∖ product_codes (products before)).

(** the keys of [by_upper_name]: the upper-cased names of the products
    that have one *)
Definition name_keys (l : list product) : gset string :=
  list_to_set (Py.upper <$> omap name l).

(** *** compare_inventories, for any upper-casing function

    [str.upper] follows the case tables of Unicode, which this
    development does not hold: [Py.upper] is [str.upper] on ASCII names
    and leaves every other character as it is.  What depends on how the
    names are upper-cased is therefore stated of the function below, for
    an arbitrary [upper]: [compare_inventories] is its instance at
    [Py.upper], the program's is its instance at [str.upper]. *)
Definition by_upper_name_step_with (upper : string -> string)
    (acc : result (gmap string product)) (p : product)
    : result (gmap string product) :=
  m <- acc ;;
  n <- getitem "name" (name p) ;;
  Ok (<[upper n := p]> m).

Definition by_upper_name_with (upper : string -> string) (l : list product)
    : result (gmap string product) :=
  foldl (by_upper_name_step_with upper) (Ok ∅) l.

Definition keyed_with (upper : string -> string) (m : gmap string product)
    : Prop :=
  ∀ k p, m !! k = Some p → ∃ n, name p = Some n ∧ upper n = k.

Definition name_keys_with (upper : string -> string) (l : list product)
    : gset string :=
  list_to_set (upper <$> omap name l).

Definition compare_inventories_with (upper : string -> string)
    (before_data after_data : inventory) (file_name : string)
    : result comparison :=
  let categories_match :=
    bool_decide (num_categories before_data = num_categories after_data) in
  let products_match :=
    bool_decide (num_products before_data = num_products after_data) in
  codes <- getitem "hcpcs_codes" (hcpcs_codes before_data) ;;
  let before_hcpcs : gset string := list_to_set codes in
  let after_hcpcs : gset string :=
    list_to_set (omap hcpcs (products after_data)) in
  let missing_hcpcs := Py.sorted (before_hcpcs ∖ after_hcpcs) in
  let extra_hcpcs := Py.sorted (after_hcpcs ∖ before_hcpcs) in
  before_products <- by_upper_name_with upper (products before_data) ;;
  after_products <-
    by_upper_name_with upper (with_name (products after_data)) ;;
  let missing_product_names := dom before_products ∖ dom after_products in
  missing_products <-
    names_of before_products (Py.sorted missing_product_names) ;;
  let extra_product_names := dom after_products ∖ dom before_products in
  extra_products <-
    names_of after_products (Py.sorted extra_product_names) ;;
  Ok {| file := file_name;
        categories_match := categories_match;
        products_match := products_match;
        missing_categories := [];
        missing_hcpcs := missing_hcpcs;
        missing_products := missing_products;
        extra_categories := [];
        extra_hcpcs := extra_hcpcs;
        extra_products := extra_products;
        before_num_categories := num_categories before_data;
        after_num_categories := num_categories after_data;
        before_num_products := num_products before_data;
        after_num_products := num_products after_data;
        all_match :=
          categories_match && products_match
          && bool_decide (Py.len missing_hcpcs = 0%Z)
          && bool_decide (Py.len extra_hcpcs = 0%Z)
          && bool_decide (Py.len missing_products = 0%Z)
          && bool_decide (Py.len extra_products = 0%Z) |}.

(** an inventory with other category names *)
Definition with_categories (cs : list string) (d : inventory) : inventory :=
  {| categories := cs;
     products := products d;
     num_categories := num_categories d;
     num_products := num_products d;
     num_unique_hcpcs := num_unique_hcpcs d;
     hcpcs_codes := hcpcs_codes d |}.

(** *** generate_report *)

(** [len] of a text with characters outside ASCII, which the report's
    fixed marks are: written here in UTF-8, a character is every byte
    that does not continue one. *)
Fixpoint ulen (s : string) : nat :=
  match s with
  | "" => 0
  | String a s' =>
      let n := nat_of_ascii a in
      if (128 <=? n) && (n <=? 191) then ulen s' else S (ulen s')
  end.

(** [f"{s:<w}"] *)
Definition ljust (w : nat) (s : string) : string :=
  s +:+ Py.repeat_char " " (w - ulen s).

Definition rule (a : ascii) : string := Py.repeat_char a 80.

Definition sum (l : list Z) : Z := foldr Z.add 0%Z l.

Definition status (b : bool) : string := if b then "PASS" else "FAIL".

Definition match_status (b : bool) : string :=
  if b then "✓ MATCH" else "✗ MISMATCH".

Definition header_lines : list string :=
  [rule "="; "INVENTORY VALIDATION REPORT"; "Generated: 2025-10-28";
   rule "="; "";
   "PURPOSE:";
   "  Verify that simplification process only removed ICD-10 codes,";
   "  clinical indications, and documentation requirements while";
   "  preserving all categories, products, and HCPCS codes.";
   "";
   rule "="; "OVERALL SUMMARY"; rule "="; ""].

Definition summary_lines (comparisons : list comparison) : list string :=
  let total_before_categories := sum (before_num_categories <$> comparisons) in
  let total_after_categories := sum (after_num_categories <$> comparisons) in
  let total_before_products := sum (before_num_products <$> comparisons) in
  let total_after_products := sum (after_num_products <$> comparisons) in
  let all_pass := forallb all_match comparisons in
  ["  Total Files Processed: 7";
   "  Total Categories (Before): " +:+ Py.str total_before_categories;
   "  Total Categories (After):  " +:+ Py.str total_after_categories;
   "  Total Products (Before):   " +:+ Py.str total_before_products;
   "  Total Products (After):    " +:+ Py.str total_after_products;
   "";
   "  Overall Status: " +:+ status all_pass;
   ""]
  ++ (if all_pass
      then ["  ✓ All categories preserved";
            "  ✓ All products preserved";
            "  ✓ All HCPCS codes preserved";
            "  ✓ Validation successful!"]
      else ["  ✗ Issues found - see detailed comparison below"])
  ++ [""; rule "="; "DETAILED FILE-BY-FILE COMPARISON"; rule "="; ""].

Definition counts_lines (c : comparison) : list string :=
  ["  COUNTS COMPARISON:";
   "    " +:+ ljust 30 "Metric" +:+ " " +:+ ljust 10 "Before" +:+ " "
     +:+ ljust 10 "After" +:+ " " +:+ ljust 10 "Status";
   "    " +:+ Py.repeat_char "-" 30 +:+ " " +:+ Py.repeat_char "-" 10 +:+ " "
     +:+ Py.repeat_char "-" 10 +:+ " " +:+ Py.repeat_char "-" 10;
   "    " +:+ ljust 30 "Categories" +:+ " "
     +:+ ljust 10 (Py.str (before_num_categories c)) +:+ " "
     +:+ ljust 10 (Py.str (after_num_categories c)) +:+ " "
     +:+ ljust 10 (match_status (categories_match c));
   "    " +:+ ljust 30 "Products" +:+ " "
     +:+ ljust 10 (Py.str (before_num_products c)) +:+ " "
     +:+ ljust 10 (Py.str (after_num_products c)) +:+ " "
     +:+ ljust 10 (match_status (products_match c));
   ""].

Definition entry (item : string) : string := "    - " +:+ item.

(** a block of codes: every entry is listed; nothing for an empty list *)
Definition codes_block (title : string) (l : list string) : list string :=
  match l with
  | [] => []
  | _ => (title +:+ " (" +:+ Py.str (Py.len l) +:+ "):")
         :: (entry <$> l) ++ [""]
  end.

Definition more_line (l : list string) : string :=
  "    ... and " +:+ Py.str (Py.len l - 10) +:+ " more".

(** a block of products: [l[:10]] listed, then how many are left *)
Definition products_block (title : string) (l : list string) : list string :=
  match l with
  | [] => []
  | _ => (title +:+ " (" +:+ Py.str (Py.len l) +:+ "):")
         :: (entry <$> take 10 l)
         ++ (if bool_decide (Py.len l > 10)%Z then [more_line l] else [])
         ++ [""]
  end.

Definition has_issues (c : comparison) : bool :=
  negb (bool_decide (missing_hcpcs c = []))
  || negb (bool_decide (extra_hcpcs c = []))
  || negb (bool_decide (missing_products c = []))
  || negb (bool_decide (extra_products c = [])).

(** the body of the loop over the comparisons *)
Definition file_lines (c : comparison) : list string :=
  [rule "-"; "FILE: " +:+ file c; rule "-"; ""]
  ++ counts_lines c
  ++ codes_block "  ✗ MISSING HCPCS CODES" (missing_hcpcs c)
  ++ codes_block "  ! EXTRA HCPCS CODES" (extra_hcpcs c)
  ++ products_block "  ✗ MISSING PRODUCTS" (missing_products c)
  ++ products_block "  ! EXTRA PRODUCTS" (extra_products c)
  ++ (if has_issues c then []
      else ["  ✓ NO ISSUES FOUND";
            "  ✓ All categories preserved";
            "  ✓ All products preserved";
            "  ✓ All HCPCS codes preserved";
            ""])
  ++ ["  File Status: " +:+ status (all_match c); ""].

Definition conclusion_lines (all_pass : bool) : list string :=
  [rule "="; "VALIDATION CONCLUSION"; rule "="; ""]
  ++ (if all_pass
      then ["  ✓✓✓ VALIDATION PASSED ✓✓✓";
            "";
            "  The simplification process successfully:";
            "  • Preserved all categories";
            "  • Preserved all products";
            "  • Preserved all HCPCS codes";
            "  • Maintained data integrity";
            "";
            "  Only ICD-10 codes, clinical indications, and documentation";
            "  requirements were removed as intended."]
      else ["  ✗✗✗ VALIDATION FAILED ✗✗✗";
            "";
            "  Issues were found during validation.";
            "  Please review the detailed comparison above."])
  ++ [""; rule "="].

Definition report_lines (comparisons : list comparison) : list string :=
  header_lines
  ++ summary_lines comparisons
  ++ concat (file_lines <$> comparisons)
  ++ conclusion_lines (forallb all_match comparisons).

Definition generate_report (before_inventory after_inventory
    : gmap string inventory) (comparisons : list comparison) : string :=
  String.concat Py.nl (report_lines comparisons).

(** the text holds no line break *)
Definition one_line (s : string) : bool :=
  Py.all_chars (fun a => negb (Ascii.eqb a "010")) s.

(** what the report prints of a comparison stays on the line it is
    printed on: its file name, codes and product names are of one line *)
Definition on_one_line (c : comparison) : Prop :=
  one_line (file c) = true
  ∧ Forall (fun x => one_line x = true)
      (missing_hcpcs c ++ extra_hcpcs c
       ++ missing_products c ++ extra_products c).

(** *** main *)

Definition base_path : string := "/home/user/simplifiedcodecatalog".

(** [base_path / file_name] *)
Definition under_base (file_name : string) : string :=
  base_path +:+ "/" +:+ file_name.

Definition html_files : list string :=
  ["catalog_diabetic_hospital.html";
   "catalog_mobility_aids.html";
   "catalog_orthotic_prosthetic.html";
   "catalog_patient_care.html";
   "catalog_specialized.html";
   "catalog_surgical_dressings.html";
   "catalog_therapeutic.html"].

(** [main] from a file system: the file system it leaves and its exit
    status, or the exception that ends it.  What it prints is left out. *)
Definition parse_after_step (files : fs)
    (acc : result (gmap string inventory)) (html_file : string)
    : result (gmap string inventory) :=
  after_inventory <- acc ;;
  d <- parse_html_file files (under_base html_file) ;;
  Ok (<[html_file := d]> after_inventory).

Definition compare_step (before_inventory after_inventory
    : gmap string inventory) (html_file : string) : result comparison :=
  before_data <- getitem html_file (before_inventory !! html_file) ;;
  after_data <- getitem html_file (after_inventory !! html_file) ;;
  compare_inventories before_data after_data html_file.

Definition main (files : fs) : result (fs * Z) :=
  before_inventory <-
    parse_inventory_before files (under_base "inventory_before.txt") ;;
  after_inventory <- foldl (parse_after_step files) (Ok ∅) html_files ;;
  comparisons <-
    for_each (compare_step before_inventory after_inventory) html_files ;;
  let report := generate_report before_inventory after_inventory comparisons in
  let report_path := under_base "validation_report.txt" in
  let files := write_file files report_path report in
  let all_pass := forallb all_match comparisons in
  Ok (files, if all_pass then 0%Z else 1%Z).

End validate_inventory.

(** * simplify_catalogs.py *)

Module simplify_catalogs.

Import Re.

Definition div_open (class : string) : string :=
  "<div class=" +:+ quoted class +:+ ">".

(** the patterns of [simplify_html], in the order it applies them *)
Definition icd10_row_pattern : regex :=
  chain [Lit (div_open "code-row"); star space;
         Lit (div_open "code-label" +:+ "ICD-10 Codes</div>");
         lazy_star any_dotall; Lit "</div>"; star space; Lit "</div>"].

Definition box_pattern (class : string) : regex :=
  chain [Lit (div_open class); lazy_star any_dotall; Lit "</div>"].

Definition style_pattern (class : string) : regex :=
  chain [Lit ("." +:+ class); star space; Lit "{"; star (not_chr "}");
         Lit "}"].

Definition padding_pattern : regex :=
  chain [Grp 1 (chain [Lit ".product-card"; star space; Lit "{";
                       star (not_chr "}"); Lit "padding:"; star space]);
         plus digit; Lit "px"].

Definition page_break_pattern : regex :=
  chain [Grp 1 (chain [Lit ".product-card"; star space; Lit "{";
                       star (not_chr "}")]);
         Grp 2 (chain [Lit "page-break-inside:"; star space;
                       plus (not_chr ";"); Lit ";"])].

Definition product_card_rule : regex := style_pattern "product-card".


(** the texts one of which every substitution before that look needs:
    the three blocks it removes, and the three selectors *)
Definition removal_markers : list string :=
  [div_open "code-row"; div_open "clinical-box"; div_open "med-necessity";
   ".clinical-box"; ".med-necessity"; ".product-card"].

Definition product_card_open : regex :=
  Grp 1 (chain [Lit ".product-card"; star space; Lit "{"]).

Definition blank_lines_pattern : regex :=
  chain [Lit Py.nl; star space; Lit Py.nl; star space; plus (Lit Py.nl)].

(** the content after the seven substitutions that come before the look
    for the [.product-card] rule *)
Definition stripped (content : string) : string :=
  let content := sub icd10_row_pattern [] content in
  let content := sub (box_pattern "clinical-box") [] content in
  let content := sub (box_pattern "med-necessity") [] content in
  let content := sub (style_pattern "clinical-box") [] content in
  let content := sub (style_pattern "med-necessity") [] content in
  let content := sub padding_pattern [RGrp 1; RLit "15px"] content in
  sub page_break_pattern [RGrp 1; RLit "page-break-inside: avoid;"] content.

Definition simplify_html (content : string) : result string :=
  let content := stripped content in
  rule <-
    match search product_card_rule content with
    | Some m => Ok (group m 0)
    | None => Raise AttributeError
    end ;;
  let content :=
    if negb (Py.contains "page-break-inside" rule)
    then sub product_card_open
           [RGrp 1;
            RLit (Py.nl +:+ "            page-break-inside: avoid;")]
           content
    else content in
  let content := sub blank_lines_pattern [RLit (Py.nl +:+ Py.nl)] content in
  Ok content.

(** the [try] block of [process_file]; the reduction it prints divides by
    the size of the content read *)
Definition process_file_body (files : fs) (filepath : string) : result fs :=
  content <- read_file files filepath ;;
  let original_size := Py.slen content in
  simplified <- simplify_html content ;;
  _ <- (if bool_decide (original_size = 0%Z)
        then Raise ZeroDivisionError else Ok tt) ;;
  Ok (write_file files filepath simplified).

(** [process_file]: every exception of the body is caught and turned
    into [False] *)
Definition process_file (files : fs) (filepath : string) : fs * bool :=
  match process_file_body files filepath with
  | Ok files' => (files', true)
  | Raise _ => (files, false)
  end.

Definition base_path : string := "/home/user/simplifiedcodecatalog".

Definition catalog_files : list string :=
  ["catalog_diabetic_hospital.html";
   "catalog_mobility_aids.html";
   "catalog_orthotic_prosthetic.html";
   "catalog_patient_care.html";
   "catalog_specialized.html";
   "catalog_surgical_dressings.html";
   "catalog_therapeutic.html"].

(** [main]: the file system it leaves and whether every file went
    through *)
Definition main (files : fs) : fs * bool :=
  let '(files, success_count) :=
    foldl (fun '(files, success_count) filename =>
             let filepath := base_path +:+ "/" +:+ filename in
             if bool_decide (is_Some (files !! filepath))
             then let '(files', ok) := process_file files filepath in
                  (files', if ok then S success_count else success_count)
             else (files, success_count))
          (files, 0) catalog_files in
  (files, bool_decide (success_count = length catalog_files)).

End simplify_catalogs.


(** * Sample inputs *)

Module samples.

Import validate_inventory.

(** the path of one catalog *)
Definition path : string :=
  "/home/user/simplifiedcodecatalog/catalog_specialized.html".

Definition lines (l : list string) : string := String.concat Py.nl l.

(** a section of the before file that lists two codes and one product *)
Definition two_codes_one_product : string :=
  lines ["";
         "CATEGORIES:";
         "  1. Mobility";
         "";
         "ALL HCPCS CODES (sorted, unique):";
         "  E0100";
         "  E0130";
         "";
         "COMPLETE PRODUCT LIST:";
         "  1. [E0100] Cane";
         ""].

Definition card (product_name : string) (code : option string) : string :=
  product_card_marker
  +:+ product_name_marker +:+ product_name +:+ "</div>"
  +:+ match code with
      | Some c => hcpcs_code_marker +:+ c +:+ "</span>"
      | None => ""
      end
  +:+ "</div>".

Definition heading (text : string) : string :=
  category_header_marker +:+ text +:+ "</div>".

(** the catalog of that section after simplification, unchanged *)
Definition one_product_html : string :=
  heading "Mobility" +:+ card "Cane" (Some "E0100").

(** the scenario of the specification: the walker has gone *)
Definition walker_before : inventory :=
  {| categories := ["Mobility"; "Diabetic"];
     products := [Product (Some "Cane") (Some "E0100");
                  Product (Some "Walker") (Some "E0130")];
     num_categories := 2; num_products := 2;
     num_unique_hcpcs := Some 2%Z;
     hcpcs_codes := Some ["E0100"; "E0130"] |}.

Definition walker_after : inventory :=
  {| categories := ["Mobility"; "Diabetic"];
     products := [Product (Some "Cane") (Some "E0100")];
     num_categories := 2; num_products := 1;
     num_unique_hcpcs := None;
     hcpcs_codes := None |}.

(** a before side with a product that has no name *)
Definition nameless_before : inventory :=
  {| categories := ["Mobility"];
     products := [Product (Some "Cane") (Some "E0100");
                  Product None (Some "E0130")];
     num_categories := 1; num_products := 2;
     num_unique_hcpcs := Some 2%Z;
     hcpcs_codes := Some ["E0100"; "E0130"] |}.

(** a before side with the same product twice, spelled in two ways *)
Definition twice_before : inventory :=
  {| categories := ["Mobility"];
     products := [Product (Some "Walker") (Some "E0130");
                  Product (Some "WALKER") (Some "E0135")];
     num_categories := 1; num_products := 2;
     num_unique_hcpcs := Some 2%Z;
     hcpcs_codes := Some ["E0130"; "E0135"] |}.

(** two products whose codes have changed places *)
Definition swapped_before : inventory :=
  {| categories := ["Mobility"];
     products := [Product (Some "Cane") (Some "E0100");
                  Product (Some "Walker") (Some "E0130")];
     num_categories := 1; num_products := 2;
     num_unique_hcpcs := Some 2%Z;
     hcpcs_codes := Some ["E0100"; "E0130"] |}.

Definition swapped_after : inventory :=
  {| categories := ["Mobility"];
     products := [Product (Some "CANE") (Some "E0130");
                  Product (Some "WALKER") (Some "E0100")];
     num_categories := 1; num_products := 2;
     num_unique_hcpcs := None;
     hcpcs_codes := None |}.

(** the first of them with a product count that its list does not have *)
Definition miscounted_before : inventory :=
  {| categories := ["Mobility"];
     products := [Product (Some "Cane") (Some "E0100");
                  Product (Some "Walker") (Some "E0130")];
     num_categories := 1; num_products := 3;
     num_unique_hcpcs := Some 2%Z;
     hcpcs_codes := Some ["E0100"; "E0130"] |}.

(** an upper-casing function that knows the letters [à] to [þ] besides
    those of ASCII (in UTF-8 the byte 195 and a second byte, which upper
    case lowers by 32), and a product whose name has one *)
Fixpoint upper_latin (s : string) : string :=
  match s with
  | "" => ""
  | String a s' =>
      match s' with
      | String b s'' =>
          let n := nat_of_ascii b in
          if (nat_of_ascii a =? 195) && (160 <=? n) && (n <=? 190)
             && negb (n =? 183)
          then String a (String (ascii_of_nat (n - 32)) (upper_latin s''))
          else String (Py.upper_char a) (upper_latin s')
      | "" => String (Py.upper_char a) ""
      end
  end.

Definition cafe_before : inventory :=
  {| categories := ["Seating"];
     products := [Product (Some "Café Chair") (Some "E0100")];
     num_categories := 1; num_products := 1;
     num_unique_hcpcs := Some 1%Z;
     hcpcs_codes := Some ["E0100"] |}.

Definition cafe_after : inventory :=
  {| categories := ["Seating"];
     products := [Product (Some "CAFÉ CHAIR") (Some "E0130")];
     num_categories := 1; num_products := 1;
     num_unique_hcpcs := None;
     hcpcs_codes := None |}.

(** fifteen product names *)
Definition fifteen_products : list string :=
  (fun n => "Product " +:+ Py.str (Z.of_nat n)) <$> seq 1 15.

(** a comparison with these fifteen missing *)
Definition fifteen_missing : comparison :=
  {| file := "catalog_mobility_aids.html";
     categories_match := true; products_match := false;
     missing_categories := []; missing_hcpcs := [];
     missing_products := fifteen_products;
     extra_categories := []; extra_hcpcs := []; extra_products := [];
     before_num_categories := 1; after_num_categories := 1;
     before_num_products := 15; after_num_products := 0;
     all_match := false |}.

(** a section whose statistics declare fifty products and whose product
    list has forty-nine lines *)
Definition product_line (n : nat) : string :=
  "  " +:+ Py.str (Z.of_nat n) +:+ ". [E0100] Product " +:+ Py.str (Z.of_nat n).

Definition fifty_declared : string :=
  lines (["";
          "STATISTICS:";
          "  Total categories: 2";
          "  Total products: 50";
          "  Unique HCPCS codes: 1";
          "";
          "CATEGORIES:";
          "  1. Mobility";
          "  2. Diabetic";
          "";
          "ALL HCPCS CODES (sorted, unique):";
          "  E0100";
          "";
          "COMPLETE PRODUCT LIST:"]
         ++ (product_line <$> seq 1 49) ++ [""]).

(** a document with one heading that holds a blank, and one with a
    product whose code marker holds a blank *)
Definition blank_heading_html : string := heading " ".
Definition blank_code_html : string := card "Cane" (Some " ").

(** a page without a [.product-card] rule, and a text that has none
    either until its clinical box is taken out *)
Definition no_rule_html : string := "<html><body></body></html>".


(** a before file with a section for each of the first [n] catalogs of
    the file list, and the file system with it and the seven catalogs *)
Definition delimiter (file_name : string) : string :=
  lines [rule "="; "FILE: " +:+ file_name; rule "="].

Definition before_file (n : nat) : string :=
  String.concat ""
    ((fun f => delimiter f +:+ two_codes_one_product) <$> take n html_files).


(** a before file with two sections for one catalog *)
Definition walker_section : string :=
  lines ["";
         "ALL HCPCS CODES (sorted, unique):";
         "  E0130";
         "";
         "COMPLETE PRODUCT LIST:";
         "  1. [E0130] Walker";
         ""].

Definition twice_sectioned : string :=
  delimiter "catalog_specialized.html" +:+ two_codes_one_product
  +:+ delimiter "catalog_specialized.html" +:+ walker_section.

(** what the two readers make of them *)
Definition before_mobility : inventory := parse_section two_codes_one_product.
Definition after_mobility : inventory := parse_html one_product_html.

End samples.

(** * Properties *)

(** ** Strings *)

Section string_facts.

Implicit Types (s t u w : string) (a : ascii).

Lemma app_cons a s t : String a s +:+ t = String a (s +:+ t).
Proof. done. Qed.

Lemma app_nil_l s : "" +:+ s = s.
Proof. done. Qed.

Lemma app_nil_r s : s +:+ "" = s.
Proof. induction s as [|a s IH]; [done|]. by rewrite app_cons, IH. Qed.

Lemma app_assoc s t u : s +:+ t +:+ u = (s +:+ t) +:+ u.
Proof. induction s as [|a s IH]; [done|]. by rewrite !app_cons, IH. Qed.

Lemma length_app s t :
  String.length (s +:+ t) = String.length s + String.length t.
Proof.
  induction s as [|a s IH]; [done|]. rewrite app_cons. simpl. by rewrite IH.
Qed.

Lemma length_zero s : String.length s = 0 → s = "".
Proof. by destruct s. Qed.

Lemma substring_app w s : String.substring 0 (String.length w) (w +:+ s) = w.
Proof.
  induction w as [|a w IH].
  - by destruct s.
  - rewrite app_cons. simpl. by rewrite IH.
Qed.

Lemma strip_prefix_Some p s s' :
  Py.strip_prefix p s = Some s' ↔ s = p +:+ s'.
Proof.
  revert s. induction p as [|a p IH]; intros s; simpl.
  - rewrite app_nil_l. naive_solver.
  - destruct s as [|b s]; [by rewrite app_cons|].
    rewrite app_cons. destruct (Ascii.eqb_spec a b) as [->|Hne].
    + rewrite IH. naive_solver.
    + naive_solver.
Qed.

End string_facts.

(** ** The matcher *)

Section matcher_facts.

Import Re.

Implicit Types (r : regex) (s t w : string) (c : caps)
  (k : string → caps → option answer).

Lemma consumed_app w s : consumed (w +:+ s) s = w.
Proof.
  unfold consumed. rewrite length_app.
  replace (String.length w + String.length s - String.length s)
    with (String.length w) by lia.
  apply substring_app.
Qed.

Lemma rep_loop_ext step lo hi greedy k1 k2 :
  extensional step → (∀ s c, k1 s c = k2 s c) →
  ∀ fuel cnt s c,
    rep_loop step lo hi greedy k1 fuel cnt s c
    = rep_loop step lo hi greedy k2 fuel cnt s c.
Proof.
  intros Hstep Hk. induction fuel as [|fuel IH]; intros cnt s c; [done|].
  cbn [rep_loop]. rewrite (Hk s c).
  rewrite (Hstep s c _ (λ s' c',
             if String.length s' <? String.length s
             then rep_loop step lo hi greedy k2 fuel (S cnt) s' c'
             else None)); [done|].
  intros s' c'. by rewrite IH.
Qed.

Lemma exec_ext r : extensional (exec r).
Proof.
  induction r as [p|p|r1 IH1 r2 IH2|r1 IH1 r2 IH2|lo hi greedy r IH|n r IH
                 |r IH|]; intros s c k1 k2 Hk; cbn [exec].
  - destruct (Py.strip_prefix p s); [apply Hk|done].
  - destruct s as [|a s]; [done|]. destruct (p a); [apply Hk|done].
  - apply IH1. intros s' c'. by apply IH2.
  - by rewrite (IH1 s c k1 k2 Hk), (IH2 s c k1 k2 Hk).
  - by apply rep_loop_ext.
  - apply IH. intros s' c'. apply Hk.
  - destruct (exec r s c _) as [[? ?]|]; [apply Hk|done].
  - destruct (_ || _); [apply Hk|done].
Qed.

(** the rounds of a repetition do not depend on the fuel, once it is
    above the length of the text *)
Lemma rep_loop_fuel step lo hi greedy k :
  extensional step →
  ∀ fuel1 fuel2 cnt s c,
    String.length s < fuel1 → String.length s < fuel2 →
    rep_loop step lo hi greedy k fuel1 cnt s c
    = rep_loop step lo hi greedy k fuel2 cnt s c.
Proof.
  intros Hstep. induction fuel1 as [|fuel1 IH]; intros fuel2 cnt s c H1 H2;
    [lia|].
  destruct fuel2 as [|fuel2]; [lia|]. cbn [rep_loop].
  rewrite (Hstep s c _ (λ s' c',
             if String.length s' <? String.length s
             then rep_loop step lo hi greedy k fuel2 (S cnt) s' c'
             else None)); [done|].
  intros s' c'. destruct (Nat.ltb_spec (String.length s') (String.length s));
    [|done].
  apply IH; lia.
Qed.

Lemma rep_loop_sound step (M : string → string → caps → caps → Prop)
    lo hi greedy k :
  (∀ s c k' res, step s c k' = Some res →
     ∃ w s' c', s = w +:+ s' ∧ M w s' c c' ∧ k' s' c' = Some res) →
  ∀ fuel cnt s c res,
    rep_loop step lo hi greedy k fuel cnt s c = Some res →
    ∃ w s' c', s = w +:+ s' ∧ rounds M lo hi cnt w s' c c'
               ∧ k s' c' = Some res.
Proof.
  intros Hstep. induction fuel as [|fuel IH]; intros cnt s c res H; [done|].
  cbn [rep_loop] in H.
  assert ((if below cnt hi
           then step s c (λ s' c',
                  if String.length s' <? String.length s
                  then rep_loop step lo hi greedy k fuel (S cnt) s' c'
                  else None)
           else None) = Some res
          ∨ (if lo <=? cnt then k s c else None) = Some res) as [Ha|Hs].
  { destruct greedy.
    - destruct (if below cnt hi then _ else _); [by left|by right].
    - destruct (if lo <=? cnt then _ else _); [by right|by left]. }
  - destruct (below cnt hi) eqn:Hb; [|done].
    apply Hstep in Ha as (w1 & s1 & c1 & -> & HM & Ha).
    destruct (Nat.ltb_spec (String.length s1) (String.length (w1 +:+ s1)))
      as [Hlt|]; [|done].
    apply IH in Ha as (w2 & s2 & c2 & -> & Hr & Hk).
    exists (w1 +:+ w2), s2, c2. split_and!; [by rewrite app_assoc| |done].
    apply rounds_again with c1; [done| |done..].
    intros ->. rewrite app_nil_l in Hlt. lia.
  - destruct (Nat.leb_spec lo cnt); [|done].
    exists "", s, c. split_and!; [done| |done]. by constructor.
Qed.

(** the matcher is sound: what it answers comes from a match of the
    pattern at the start of the text, handed to the continuation *)
Lemma exec_sound r : ∀ s c k res,
  exec r s c k = Some res →
  ∃ w s' c', s = w +:+ s' ∧ matches r w s' c c' ∧ k s' c' = Some res.
Proof.
  induction r as [p|p|r1 IH1 r2 IH2|r1 IH1 r2 IH2|lo hi greedy r IH|n r IH
                 |r IH|]; intros s c k res H; cbn [exec] in H.
  - destruct (Py.strip_prefix p s) as [s'|] eqn:Hp; [|done].
    apply strip_prefix_Some in Hp as ->.
    exists p, s', c. split_and!; [done|constructor|done].
  - destruct s as [|a s]; [done|]. destruct (p a) eqn:Hp; [|done].
    exists (String a ""), s, c. split_and!; [done|by constructor|done].
  - apply IH1 in H as (w1 & s1 & c1 & -> & H1 & H).
    apply IH2 in H as (w2 & s2 & c2 & -> & H2 & H).
    exists (w1 +:+ w2), s2, c2. split_and!; [by rewrite app_assoc| |done].
    by apply matches_Seq with c1.
  - destruct (exec r1 s c k) as [x|] eqn:H1.
    + injection H as ->. apply IH1 in H1 as (w & s' & c' & -> & H1 & H).
      exists w, s', c'. split_and!; [done|by apply matches_Alt_l|done].
    + apply IH2 in H as (w & s' & c' & -> & H2 & H).
      exists w, s', c'. split_and!; [done|by apply matches_Alt_r|done].
  - apply (rep_loop_sound _ (matches r)) in H as (w & s' & c' & -> & Hr & H);
      [|exact IH].
    exists w, s', c'. split_and!; [done|by constructor|done].
  - apply IH in H as (w & s' & c' & -> & Hm & H).
    rewrite consumed_app in H.
    exists w, s', (<[n := w]> c'). split_and!; [done|by constructor|done].
  - destruct (exec r s c _) as [[x c']|] eqn:Hr; [|done].
    apply IH in Hr as (w & s' & c'' & -> & Hm & [= -> ->]).
    exists "", (w +:+ x), c'. split_and!; [done|by constructor|done].
  - destruct (String.eqb_spec s "") as [->|]; simpl in H.
    + exists "", "", c. split_and!; [done|constructor; by left|done].
    + destruct (String.eqb_spec s Py.nl) as [->|]; [|done].
      exists "", Py.nl, c. split_and!; [done|constructor; by right|done].
Qed.

Lemma match_at_sound must_advance r s s' c :
  match_at must_advance r s = Some (s', c) →
  ∃ w, s = w +:+ s' ∧ matches r w s' ∅ c
       ∧ (must_advance = true → w ≠ "").
Proof.
  unfold match_at. intros (w & s1 & c1 & -> & Hm & Hk)%exec_sound.
  destruct (must_advance && _) eqn:Hb; [done|]. injection Hk as -> ->.
  exists w. split_and!; [done..|]. intros -> ->.
  by rewrite app_nil_l, Nat.eqb_refl in Hb.
Qed.

Lemma match_sound r s m :
  match_ r s = Some m →
  s = m_whole m +:+ m_after m
  ∧ matches r (m_whole m) (m_after m) ∅ (m_groups m).
Proof.
  unfold match_. destruct (match_at false r s) as [[s' c]|] eqn:H; [|done].
  intros [= <-]. apply match_at_sound in H as (w & -> & Hm & _).
  by rewrite consumed_app.
Qed.

Lemma match_here must_advance r pre s s' c :
  match_at must_advance r s = Some (s', c) →
  let m := MatchObj pre (consumed s s') s' c in
  m_before m = pre +:+ ""
  ∧ s = "" +:+ m_whole m +:+ m_after m
  ∧ matches r (m_whole m) (m_after m) ∅ (m_groups m)
  ∧ (must_advance = true → m_whole m ≠ "").
Proof.
  intros (w & Hw & Hm & Hadv)%match_at_sound.
  assert (consumed s s' = w) as Hc by (rewrite Hw; apply consumed_app).
  cbn [m_before m_whole m_after m_groups]. rewrite Hc, app_nil_r.
  by split_and!.
Qed.

(** what [search_from] finds: a match of the pattern after the text
    passed over; right after an empty match, not an empty match at the
    very start *)
Lemma search_from_sound r : ∀ s must_advance pre m,
  search_from must_advance r pre s = Some m →
  ∃ skipped,
    m_before m = pre +:+ skipped
    ∧ s = skipped +:+ m_whole m +:+ m_after m
    ∧ matches r (m_whole m) (m_after m) ∅ (m_groups m)
    ∧ (must_advance = true → skipped = "" → m_whole m ≠ "").
Proof.
  induction s as [|a s IH]; intros must_advance pre m H; cbn [search_from] in H.
  - destruct (match_at must_advance r "") as [[s' c]|] eqn:Hm; [|done].
    injection H as <-. exists "".
    destruct (match_here _ _ pre _ _ _ Hm) as (? & ? & ? & ?). auto.
  - destruct (match_at must_advance r (String a s)) as [[s' c]|] eqn:Hm.
    + injection H as <-. exists "".
      destruct (match_here _ _ pre _ _ _ Hm) as (? & ? & ? & ?). auto.
    + apply IH in H as (skipped & Hb & -> & Hm' & _).
      exists (String a skipped). rewrite Hb. split_and!; [|done..].
      by rewrite <- app_assoc.
Qed.

Lemma search_sound r s m :
  search r s = Some m →
  s = m_before m +:+ m_whole m +:+ m_after m
  ∧ matches r (m_whole m) (m_after m) ∅ (m_groups m).
Proof.
  intros (skipped & Hb & Hs & Hm & _)%search_from_sound.
  rewrite app_nil_l in Hb. by rewrite Hb.
Qed.

(** every match the scanning functions see is a match of the pattern in
    a part of the text *)
Lemma scan_sound r : ∀ fuel must_advance s,
  Forall (λ m, part_of (m_whole m) s
               ∧ matches r (m_whole m) (m_after m) ∅ (m_groups m))
         (scan fuel must_advance r s).1.
Proof.
  induction fuel as [|fuel IH]; intros must_advance s; cbn [scan];
    [constructor|].
  destruct (search_from must_advance r "" s) as [m|] eqn:Hm; [|constructor].
  specialize (IH (String.eqb (m_whole m) "") (m_after m)).
  destruct (scan fuel _ r (m_after m)) as [ms tl]. cbn [fst] in *.
  apply search_from_sound in Hm as (skipped & _ & Hs & Hm & _).
  constructor.
  - split; [|done]. by exists skipped, (m_after m).
  - eapply Forall_impl; [exact IH|]. intros m' [Hp Hm'].
    destruct Hp as (b & a & Hp).
    split; [|done]. exists (skipped +:+ m_whole m +:+ b), a.
    by rewrite Hs, Hp, <- !app_assoc.
Qed.

(** the fuel of [finditer] is never used up: with more fuel the scan is
    the same *)
Lemma scan_fuel r : ∀ fuel1 fuel2 (must_advance : bool) s,
  2 * String.length s + (if must_advance then 0 else 1) < fuel1 →
  2 * String.length s + (if must_advance then 0 else 1) < fuel2 →
  scan fuel1 must_advance r s = scan fuel2 must_advance r s.
Proof.
  induction fuel1 as [|fuel1 IH]; intros fuel2 must_advance s H1 H2; [lia|].
  destruct fuel2 as [|fuel2]; [lia|]. cbn [scan].
  destruct (search_from must_advance r "" s) as [m|] eqn:Hm; [|done].
  apply search_from_sound in Hm as (skipped & _ & Hs & _ & Hadv).
  apply (f_equal String.length) in Hs. rewrite !length_app in Hs.
  rewrite (IH fuel2); [done|..];
    (destruct (String.eqb_spec (m_whole m) "") as [Hw|Hw];
     [rewrite Hw in Hs; simpl in Hs;
      destruct must_advance;
      [destruct skipped; [by destruct Hadv|simpl in Hs; lia]|lia]
     |destruct (m_whole m); [done|simpl in Hs; lia]]).
Qed.

End matcher_facts.

(** ** The matcher misses no match *)

Section matcher_complete.

Import Re.

Implicit Types (r : regex) (s w rest : string) (c d : caps)
  (k : string → caps → option answer).

Lemma rep_loop_complete step (M : string → string → caps → caps → Prop)
    lo hi greedy k :
  (∀ w rest c c', M w rest c c' →
     ∀ k', accepts k' rest → ∀ d, is_Some (step (w +:+ rest) d k')) →
  ∀ cnt w rest c c',
    rounds M lo hi cnt w rest c c' →
    accepts k rest →
    ∀ fuel d, String.length (w +:+ rest) < fuel →
      is_Some (rep_loop step lo hi greedy k fuel cnt (w +:+ rest) d).
Proof.
  intros Hstep cnt w rest c c' Hr Hk.
  induction Hr as [cnt rest c Hlo|cnt w1 w2 rest c c1 c2 Hb Hne HM _ IH];
    intros fuel d Hfuel; (destruct fuel as [|fuel]; [lia|]); cbn [rep_loop].
  - rewrite app_nil_l. destruct (Nat.leb_spec lo cnt); [|lia].
    destruct greedy; [|by destruct (Hk d) as [x ->]].
    destruct (if below cnt hi then _ else _); [done|]. apply Hk.
  - rewrite Hb, <- app_assoc.
    assert (is_Some (step (w1 +:+ w2 +:+ rest) d (λ s' c',
              if String.length s' <? String.length (w1 +:+ w2 +:+ rest)
              then rep_loop step lo hi greedy k fuel (S cnt) s' c'
              else None))) as [x Hx].
    { apply (Hstep _ _ _ _ HM). intros d'.
      rewrite <- app_assoc, !length_app in Hfuel.
      assert (String.length w1 ≠ 0) by (by intros ?%length_zero).
      destruct (Nat.ltb_spec (String.length (w2 +:+ rest))
                  (String.length (w1 +:+ w2 +:+ rest))) as [|Hge].
      - apply IH; [done|]. rewrite length_app. lia.
      - rewrite !length_app in Hge. lia. }
    rewrite Hx. destruct greedy; [done|].
    by destruct (if lo <=? cnt then _ else _).
Qed.

(** wherever the pattern matches and the continuation accepts what
    follows, the matcher answers *)
Lemma exec_complete r : ∀ w rest c c',
  matches r w rest c c' →
  ∀ k, accepts k rest → ∀ d, is_Some (exec r (w +:+ rest) d k).
Proof.
  induction r as [p|p|r1 IH1 r2 IH2|r1 IH1 r2 IH2|lo hi greedy r IH|n r IH
                 |r IH|]; intros w rest c c' Hm k Hk d; cbn [exec].
  - inversion Hm; subst.
    rewrite (proj2 (strip_prefix_Some _ _ rest) eq_refl). apply Hk.
  - inversion Hm as [|? a ? ? Hp| | | | | | |]; subst.
    rewrite app_cons, app_nil_l, Hp. apply Hk.
  - inversion Hm as [| |? ? w1 w2 ? ? c1 ? H1 H2| | | | | |]; subst.
    rewrite <- app_assoc. apply (IH1 _ _ _ _ H1).
    intros d'. by apply (IH2 _ _ _ _ H2).
  - inversion Hm as [| | |? ? ? ? ? ? H1|? ? ? ? ? ? H2| | | |]; subst.
    + by destruct (IH1 _ _ _ _ H1 k Hk d) as [x ->].
    + destruct (exec r1 (w +:+ rest) d k); [done|]. by apply (IH2 _ _ _ _ H2).
  - inversion Hm as [| | | | |? ? ? ? ? ? ? ? Hr| | |]; subst.
    apply (rep_loop_complete _ (matches r) lo hi greedy k IH _ _ _ _ _ Hr Hk).
    lia.
  - inversion Hm as [| | | | | |? ? ? ? ? c1 H1| |]; subst.
    apply (IH _ _ _ _ H1). intros d'. apply Hk.
  - inversion Hm as [| | | | | | |? w0 rest0 ? ? H1|]; subst.
    rewrite app_nil_l.
    destruct (IH _ _ _ _ H1 (λ s' c', Some (s', c')) (λ _, ltac:(by eexists)) d)
      as [[x c''] ->].
    apply Hk.
  - inversion Hm as [| | | | | | | |? ? Hrest]; subst.
    rewrite app_nil_l.
    destruct Hrest as [->| ->]; simpl; apply Hk.
Qed.

Lemma match_at_complete r w rest c c' :
  matches r w rest c c' → is_Some (match_at false r (w +:+ rest)).
Proof.
  intros Hm. unfold match_at. apply (exec_complete _ _ _ _ _ Hm).
  intros d. by eexists.
Qed.

(** [re.search] returns [None] only when the pattern matches nowhere in
    the text *)
Lemma search_from_complete r : ∀ before must_advance pre w rest c c',
  matches r w rest c c' →
  (must_advance = true → before ≠ "") →
  is_Some (search_from must_advance r pre (before +:+ w +:+ rest)).
Proof.
  induction before as [|a before IH];
    intros must_advance pre w rest c c' Hm Hadv.
  - destruct must_advance; [by destruct Hadv|]. rewrite app_nil_l.
    destruct (match_at_complete _ _ _ _ _ Hm) as [[s' c0] Hs].
    destruct (w +:+ rest); cbn [search_from]; by rewrite Hs.
  - rewrite app_cons. cbn [search_from].
    destruct (match_at must_advance r _) as [[s' c0]|]; [done|].
    by apply IH with c c'.
Qed.

Lemma search_complete r before w rest c c' :
  matches r w rest c c' → is_Some (search r (before +:+ w +:+ rest)).
Proof. intros Hm. by apply search_from_complete with c c'. Qed.

Lemma search_None r s :
  search r s = None →
  ∀ before w rest c c', s = before +:+ w +:+ rest → ¬ matches r w rest c c'.
Proof.
  intros Hs before w rest c c' -> Hm.
  destruct (search_complete r before _ _ _ _ Hm) as [m Hm']. congruence.
Qed.



End matcher_complete.

(** ** What a match of a pattern looks like *)

Section matches_inversion.

Import Re.

Implicit Types (r : regex) (w rest : string) (c : caps).

Lemma matches_Lit_inv p w rest c c' :
  matches (Lit p) w rest c c' → w = p ∧ c' = c.
Proof. by inversion 1. Qed.

Lemma matches_Seq_inv r1 r2 w rest c c' :
  matches (Seq r1 r2) w rest c c' →
  ∃ w1 w2 c1, w = w1 +:+ w2 ∧ matches r1 w1 (w2 +:+ rest) c c1
              ∧ matches r2 w2 rest c1 c'.
Proof. inversion 1; subst. eauto 10. Qed.

Lemma matches_Grp_inv n r w rest c c' :
  matches (Grp n r) w rest c c' →
  ∃ c1, matches r w rest c c1 ∧ c' = <[n := w]> c1.
Proof. inversion 1; subst. eauto. Qed.

Lemma rounds_Cls p lo hi cnt w rest c c' :
  rounds (matches (Cls p)) lo hi cnt w rest c c' →
  c' = c ∧ Py.all_chars p w = true ∧ lo ≤ cnt + String.length w.
Proof.
  induction 1 as [cnt rest c Hlo|cnt w1 w2 rest c c1 c2 _ Hne Hm _ IH].
  - split_and!; [done..|]. simpl. lia.
  - inversion Hm; subst. destruct IH as (-> & Hall & Hle).
    split_and!; [done| |].
    + rewrite app_cons, app_nil_l. simpl. by rewrite Hall, andb_true_r.
    + rewrite length_app. simpl. lia.
Qed.

(** a run of characters of one class: [p*], [p+], [p{n,}] *)
Lemma matches_run p lo hi greedy w rest c c' :
  matches (Rep lo hi greedy (Cls p)) w rest c c' →
  c' = c ∧ Py.all_chars p w = true ∧ lo ≤ String.length w.
Proof.
  inversion 1 as [| | | | |? ? ? ? ? ? ? ? Hr| | |]; subst.
  by apply rounds_Cls in Hr.
Qed.

End matches_inversion.

Ltac inv_matches :=
  repeat match goal with
  | H : Re.matches (Re.Seq _ _) _ _ _ _ |- _ =>
      let w1 := fresh "w" in
      let w2 := fresh "w" in
      let c1 := fresh "c" in
      apply matches_Seq_inv in H as (w1 & w2 & c1 & -> & ? & ?)
  | H : Re.matches (Re.Lit _) _ _ _ _ |- _ =>
      apply matches_Lit_inv in H as [-> ->]
  | H : Re.matches (Re.Grp _ _) _ _ _ _ |- _ =>
      let c1 := fresh "c" in
      apply matches_Grp_inv in H as (c1 & ? & ->)
  | H : Re.matches (Re.Rep _ _ _ (Re.Cls _)) _ _ _ _ |- _ =>
      apply matches_run in H as (-> & ? & ?)
  end.

Section pattern_shapes.

Import Re validate_inventory.

(** a code found in a card stands between the code marker and its end *)
Lemma hcpcs_code_shape w rest c c' :
  matches hcpcs_code_pattern w rest c c' →
  ∃ g, w = hcpcs_code_marker +:+ g +:+ "</span>"
       ∧ g ≠ "" ∧ c' !! 1 = Some g.
Proof.
  unfold hcpcs_code_pattern, plus, not_chr. cbn [chain]. intros H.
  inv_matches. eexists. split_and!; [done| |by rewrite lookup_insert_eq].
  intros ->. simpl in *. lia.
Qed.

(** a section delimiter is two rules of at least eighty [=] around the
    line [FILE: name] of its catalog *)
Lemma section_shape w rest c c' :
  matches section_pattern w rest c c' →
  ∃ rule1 stem rule2,
    w = rule1 +:+ Py.nl +:+ "FILE: "
        +:+ ("catalog_" +:+ stem +:+ ".html") +:+ Py.nl +:+ rule2
    ∧ Py.all_chars (Ascii.eqb "=") rule1 = true ∧ 80 ≤ String.length rule1
    ∧ Py.all_chars (Ascii.eqb "=") rule2 = true ∧ 80 ≤ String.length rule2
    ∧ Py.all_chars Py.is_word stem = true ∧ stem ≠ ""
    ∧ c' !! 1 = Some ("catalog_" +:+ stem +:+ ".html").
Proof.
  unfold section_pattern, at_least, plus, word, chr. cbn [chain]. intros H.
  inv_matches.
  match goal with
  | |- ∃ _ _ _, ?a +:+ _ +:+ (_ +:+ ?b +:+ _) +:+ _ +:+ ?d = _ ∧ _ =>
      exists a, b, d
  end.
  split_and!; try done;
    [intros ->; simpl in *; lia|by rewrite lookup_insert_eq].
Qed.


Lemma part_of_trans (u w s : string) : part_of u w → part_of w s → part_of u s.
Proof.
  intros (b1 & a1 & ->) (b2 & a2 & ->). exists (b2 +:+ b1), (a1 +:+ a2).
  by rewrite <- !app_assoc.
Qed.

(** a catalog among the section names has its [FILE:] line in the text *)
Lemma section_name_line content f :
  f ∈ section_names content →
  part_of (Py.nl +:+ "FILE: " +:+ f +:+ Py.nl) content.
Proof.
  unfold section_names, finditer.
  intros (m & -> & Hm)%list_elem_of_fmap.
  pose proof (scan_sound section_pattern (2 * String.length content + 2)
                false content) as Hall.
  rewrite Forall_forall in Hall. destruct (Hall m Hm) as [Hpart Hmatch].
  apply section_shape in Hmatch
    as (rule1 & stem & rule2 & Hw & _ & _ & _ & _ & _ & _ & Hg).
  apply part_of_trans with (m_whole m); [|done].
  unfold group. rewrite Hg. cbn [default from_option id].
  exists rule1, rule2.
  by rewrite Hw, <- !app_assoc.
Qed.

Lemma no_line_no_section content f :
  ¬ part_of (Py.nl +:+ "FILE: " +:+ f +:+ Py.nl) content →
  f ∉ section_names content.
Proof. intros Hno Hf. by apply Hno, section_name_line. Qed.

(** a card without the code marker yields a product without a code *)
Lemma no_marker_no_code card p :
  ¬ part_of hcpcs_code_marker card →
  parse_card card = Some p → hcpcs p = None.
Proof.
  intros Hno. unfold parse_card.
  destruct (search product_name_pattern card) as [name_match|]; [|done].
  destruct (search hcpcs_code_pattern card) as [m|] eqn:Hm;
    [|by intros [= <-]].
  destruct Hno. apply search_sound in Hm as [Hcard Hmatch].
  apply hcpcs_code_shape in Hmatch as (g & Hw & _).
  exists (m_before m), (g +:+ "</span>" +:+ m_after m).
  by rewrite Hcard, Hw, <- !app_assoc.
Qed.

End pattern_shapes.

Section strip_facts.

Implicit Types (s : string).

Lemma lstrip_rstrip_lstrip s :
  Py.lstrip (Py.rstrip (Py.lstrip s)) = Py.rstrip (Py.lstrip s).
Proof.
  induction s as [|a s IH]; [done|]. cbn [Py.lstrip].
  destruct (Py.is_space a) eqn:Ha; [done|]. cbn [Py.rstrip].
  destruct (Py.rstrip s); rewrite ?Ha; cbn [Py.lstrip]; by rewrite Ha.
Qed.

Lemma rstrip_idem s : Py.rstrip (Py.rstrip s) = Py.rstrip s.
Proof.
  induction s as [|a s IH]; [done|]. cbn [Py.rstrip].
  destruct (Py.rstrip s) as [|b t] eqn:Hs.
  - destruct (Py.is_space a) eqn:Ha; [done|]. cbn [Py.rstrip]. by rewrite Ha.
  - change (Py.rstrip (String a (String b t)))
      with (match Py.rstrip (String b t) with
            | "" => if Py.is_space a then "" else String a ""
            | u => String a u
            end).
    by rewrite IH.
Qed.

(** [strip] leaves a stripped text as it is *)
Lemma strip_idem s : Py.strip (Py.strip s) = Py.strip s.
Proof. unfold Py.strip. by rewrite lstrip_rstrip_lstrip, rstrip_idem. Qed.

End strip_facts.


Section text_level.

Import Re validate_inventory.


Lemma nonempty_length (s : string) : 1 ≤ String.length s → s ≠ "".
Proof. intros H ->. simpl in H. lia. Qed.


End text_level.

Section text_level_simplifier.

Import Re simplify_catalogs.



End text_level_simplifier.

Section reader_facts.

Import Re validate_inventory.

(** the fuel [finditer] gives its scan is enough: more changes nothing *)
Lemma finditer_fuel r (s : string) fuel :
  2 * String.length s + 1 < fuel → scan fuel false r s = finditer r s.
Proof. intros H. unfold finditer. apply scan_fuel; lia. Qed.

(** the rounds of a repetition in a pattern run with enough fuel too *)
Lemma exec_Rep_fuel lo hi greedy r (s : string) c k fuel :
  String.length s < fuel →
  rep_loop (exec r) lo hi greedy k fuel 0 s c = exec (Rep lo hi greedy r) s c k.
Proof. intros H. cbn [exec]. apply rep_loop_fuel; [apply exec_ext|lia..]. Qed.

(** the names and codes the extractor stores are stripped *)
Lemma parse_card_trimmed card p :
  parse_card card = Some p →
  (∃ n, name p = Some n ∧ Py.strip n = n)
  ∧ ∀ code, hcpcs p = Some code → Py.strip code = code.
Proof.
  unfold parse_card.
  destruct (search product_name_pattern card) as [name_match|]; [|done].
  intros [= <-]. cbn [name hcpcs]. split.
  - eexists. split; [done|]. apply strip_idem.
  - destruct (search hcpcs_code_pattern card) as [hcpcs_match|]; [|done].
    intros code [= <-]. apply strip_idem.
Qed.

Lemma parse_html_trimmed content :
  Forall (λ category, Py.strip category = category)
         (categories (parse_html content))
  ∧ Forall (λ p, ∃ n, name p = Some n ∧ Py.strip n = n)
           (products (parse_html content)).
Proof.
  cbn [parse_html categories products]. split.
  - apply Forall_fmap, Forall_forall. intros c _. apply strip_idem.
  - apply Forall_forall. intros p (card & _ & Hp)%list_elem_of_omap.
    by apply parse_card_trimmed in Hp as [? _].
Qed.

(** and so are those the snapshot reader stores *)
Lemma parse_section_trimmed text :
  Forall (λ p, ∃ n, name p = Some n ∧ Py.strip n = n)
         (products (parse_section text)).
Proof.
  cbn [products parse_section]. unfold parse_products.
  apply Forall_forall. intros p (line & _ & Hp)%list_elem_of_omap.
  destruct (match_ prod_line_pattern line); [|done].
  injection Hp as <-. eexists. split; [done|]. apply strip_idem.
Qed.

End reader_facts.

(** ** Sorting a set *)

Section sorted_facts.

Implicit Types (X : gset string) (x : string).

Lemma elem_of_sorted x X : x ∈ Py.sorted X ↔ x ∈ X.
Proof.
  unfold Py.sorted. rewrite merge_sort_Permutation. apply elem_of_elements.
Qed.

Lemma sorted_NoDup X : NoDup (Py.sorted X).
Proof.
  unfold Py.sorted. rewrite merge_sort_Permutation. apply NoDup_elements.
Qed.

Lemma sorted_empty : Py.sorted ∅ = [].
Proof. unfold Py.sorted. by rewrite elements_empty. Qed.

(** a sorted list without a repeated element ascends strictly *)
Lemma StronglySorted_strict (l : list string) :
  StronglySorted String.le l → NoDup l →
  StronglySorted (strict String.le) l.
Proof.
  induction 1 as [|x l Hl IH Hx]; intros Hnd; [constructor|].
  apply NoDup_cons in Hnd as [Hnx Hnd].
  constructor; [by apply IH|].
  rewrite Forall_forall in Hx |- *. intros y Hy. split; [by apply Hx|].
  intros Hyx. apply Hnx.
  by rewrite (anti_symm String.le x y (Hx y Hy) Hyx).
Qed.

Lemma sorted_ascending X : StronglySorted (strict String.le) (Py.sorted X).
Proof.
  apply StronglySorted_strict; [|apply sorted_NoDup].
  apply StronglySorted_merge_sort; apply _.
Qed.

End sorted_facts.

(** ** The exception monad *)

Lemma bind_Ok {A B} (x : result A) (f : A → result B) (b : B) :
  bind x f = Ok b → ∃ a, x = Ok a ∧ f a = Ok b.
Proof. destruct x as [a|e]; simpl; [eauto|done]. Qed.

Lemma bind_ret {A B} (a : A) (f : A → result B) : bind (Ok a) f = f a.
Proof. done. Qed.

Lemma bind_raise {A B} (e : exn) (f : A → result B) :
  bind (Raise e) f = Raise e.
Proof. done. Qed.

Ltac run_bind := simpl; rewrite ?bind_ret, ?bind_raise; simpl.
Ltac run_bind_in H := simpl in H; rewrite ?bind_ret, ?bind_raise in H; simpl in H.

Lemma getitem_Ok {A} key (v : option A) a :
  getitem key v = Ok a ↔ v = Some a.
Proof. destruct v; simpl; naive_solver. Qed.

Ltac inv_bind H :=
  repeat match type of H with
  | bind _ _ = Ok _ =>
      let a := fresh "a" in
      let Ha := fresh "Ha" in
      apply bind_Ok in H as (a & Ha & H)
  end.

(** ** The comparator's dictionaries *)

Section comparator_facts.

Import validate_inventory.

Implicit Types (l : list product) (m d : gmap string product)
  (p : product) (k n : string).

Lemma by_upper_name_raise l e :
  foldl by_upper_name_step (Raise e) l = Raise e.
Proof. induction l as [|p l IH]; simpl; auto. Qed.

Lemma by_upper_name_spec l : ∀ m0 m,
  foldl by_upper_name_step (Ok m0) l = Ok m →
  keyed m0 →
  Forall named l
  ∧ keyed m
  ∧ ∀ k, k ∈ dom m ↔
         k ∈ dom m0 ∨ ∃ p n, p ∈ l ∧ name p = Some n ∧ Py.upper n = k.
Proof.
  induction l as [|p l IH]; simpl; intros m0 m Hm Hk.
  - injection Hm as <-. split_and!; [constructor|done|]. set_solver.
  - unfold by_upper_name_step at 2 in Hm.
    destruct (name p) as [n|] eqn:Hn; run_bind_in Hm.
    2: { by rewrite by_upper_name_raise in Hm. }
    apply IH in Hm as (Hall & Hkm & Hdom).
    + split_and!; [constructor; [by eexists|done]|done|].
      intros k. rewrite Hdom, dom_insert. split.
      * intros [[->%elem_of_singleton|?]%elem_of_union|(q & n' & ? & ? & ?)].
        -- right. exists p, n. split_and!; [left|done..].
        -- by left.
        -- right. exists q, n'. split_and!; [by right|done..].
      * intros [?|(q & n' & [->|?]%elem_of_cons & Hq & <-)].
        -- left. set_solver.
        -- left. rewrite Hn in Hq. injection Hq as <-. set_solver.
        -- right. by exists q, n'.
    + intros k q. rewrite lookup_insert. case_decide as Hc.
      * intros [= <-]. by exists n.
      * apply Hk.
Qed.

Lemma by_upper_name_Ok l m :
  by_upper_name l = Ok m →
  Forall named l
  ∧ keyed m
  ∧ ∀ k, k ∈ dom m ↔ ∃ p n, p ∈ l ∧ name p = Some n ∧ Py.upper n = k.
Proof.
  intros H. apply by_upper_name_spec in H as (? & ? & Hdom).
  - split_and!; [done..|]. intros k. rewrite Hdom. set_solver.
  - intros k p. by rewrite lookup_empty.
Qed.

Lemma by_upper_name_total l :
  Forall named l → ∃ m, by_upper_name l = Ok m.
Proof.
  intros H. unfold by_upper_name. generalize (∅ : gmap string product).
  induction H as [|p l [n Hn] _ IH]; intros m0; simpl; [by eexists|].
  unfold by_upper_name_step at 2. rewrite Hn. run_bind. apply IH.
Qed.

Lemma with_name_named l : Forall named (with_name l).
Proof. apply Forall_forall. intros p [? _]%list_elem_of_filter. done. Qed.

Lemma elem_of_with_name p l :
  p ∈ with_name l ↔ p ∈ l ∧ named p.
Proof. unfold with_name. rewrite list_elem_of_filter. naive_solver. Qed.

(** the names listed for a run of keys: one per key, each the name kept
    under its key *)
Lemma names_of_Ok d keys ns :
  names_of d keys = Ok ns →
  Forall2 (λ k n, ∃ p, d !! k = Some p ∧ name p = Some n) keys ns.
Proof.
  unfold names_of. revert ns.
  induction keys as [|k keys IH]; simpl; intros ns H.
  - injection H as <-. constructor.
  - inv_bind H. injection H as <-.
    apply bind_Ok in Ha as (p & Hp%getitem_Ok & Hn%getitem_Ok).
    constructor; [by exists p|by apply IH].
Qed.

Lemma names_of_total d keys :
  keyed d → (∀ k, k ∈ keys → k ∈ dom d) →
  ∃ ns, names_of d keys = Ok ns.
Proof.
  intros Hk. unfold names_of.
  induction keys as [|k keys IH]; simpl; intros Hin; [by eexists|].
  assert (k ∈ dom d) as [p Hp]%elem_of_dom by (apply Hin; left).
  destruct (Hk _ _ Hp) as (n & Hn & _).
  destruct IH as [ns Hns]; [intros; apply Hin; by right|].
  exists (n :: ns). rewrite Hp, Hns. run_bind. by rewrite Hn.
Qed.

(** what a comparison that returns has read and computed *)
Lemma compare_inventories_Ok before after file_name r :
  compare_inventories before after file_name = Ok r →
  ∃ codes bp ap,
    hcpcs_codes before = Some codes
    ∧ by_upper_name (products before) = Ok bp
    ∧ by_upper_name (with_name (products after)) = Ok ap
    ∧ missing_hcpcs r
      = Py.sorted (list_to_set codes ∖ list_to_set (omap hcpcs (products after)))
    ∧ extra_hcpcs r
      = Py.sorted (list_to_set (omap hcpcs (products after)) ∖ list_to_set codes)
    ∧ names_of bp (Py.sorted (dom bp ∖ dom ap)) = Ok (missing_products r)
    ∧ names_of ap (Py.sorted (dom ap ∖ dom bp)) = Ok (extra_products r)
    ∧ missing_categories r = [] ∧ extra_categories r = []
    ∧ categories_match r
      = bool_decide (num_categories before = num_categories after)
    ∧ products_match r
      = bool_decide (num_products before = num_products after)
    ∧ all_match r
      = categories_match r && products_match r
        && bool_decide (missing_hcpcs r = [])
        && bool_decide (extra_hcpcs r = [])
        && bool_decide (missing_products r = [])
        && bool_decide (extra_products r = []).
Proof.
  unfold compare_inventories. intros H.
  apply bind_Ok in H as (codes & Hc%getitem_Ok & H).
  apply bind_Ok in H as (bp & Hbp & H).
  apply bind_Ok in H as (ap & Hap & H).
  apply bind_Ok in H as (mp & Hmp & H).
  apply bind_Ok in H as (ep & Hep & H).
  injection H as <-. exists codes, bp, ap. simpl.
  split_and!; try done.
  f_equal; [f_equal; [f_equal; [f_equal|]|]|];
    apply bool_decide_ext; unfold Py.len;
    (split; [intros ?; apply length_zero_iff_nil; lia | by intros ->]).
Qed.

(** the comparator returns on what the two readers hand it: a declared
    code list and a name on every before-product *)
Lemma compare_inventories_total before after file_name :
  is_Some (hcpcs_codes before) → Forall named (products before) →
  ∃ r, compare_inventories before after file_name = Ok r.
Proof.
  intros [codes Hc] Hb. unfold compare_inventories. rewrite Hc. run_bind.
  destruct (by_upper_name_total _ Hb) as [bp Hbp].
  destruct (by_upper_name_total _ (with_name_named (products after)))
    as [ap Hap].
  rewrite Hbp, Hap. run_bind.
  apply by_upper_name_Ok in Hbp as (_ & Hkb & _).
  apply by_upper_name_Ok in Hap as (_ & Hka & _).
  destruct (names_of_total bp (Py.sorted (dom bp ∖ dom ap)) Hkb) as [mp ->].
  { intros k. rewrite elem_of_sorted. set_solver. }
  destruct (names_of_total ap (Py.sorted (dom ap ∖ dom bp)) Hka) as [ep ->].
  { intros k. rewrite elem_of_sorted. set_solver. }
  run_bind. by eexists.
Qed.

End comparator_facts.

(** ** The comparator *)

Section comparator.

Import validate_inventory.

Implicit Types (before after S : inventory) (r : comparison)
  (p : product) (c : string).

Lemma elem_of_product_codes c (l : list product) :
  c ∈ product_codes l ↔ ∃ p, p ∈ l ∧ hcpcs p = Some c.
Proof.
  unfold product_codes. rewrite elem_of_list_to_set, list_elem_of_omap.
  done.
Qed.

(** a declared code that no product carries, and a carried code that
    is not declared *)
Lemma elem_of_declared_only c (codes : list string) (l : list product) :
  c ∈ Py.sorted (list_to_set codes ∖ list_to_set (omap hcpcs l)) ↔
  c ∈ codes ∧ ¬ ∃ p, p ∈ l ∧ hcpcs p = Some c.
Proof.
  fold (product_codes l).
  rewrite <- elem_of_product_codes, elem_of_sorted, elem_of_difference,
    elem_of_list_to_set.
  reflexivity.
Qed.

Lemma elem_of_carried_only c (codes : list string) (l : list product) :
  c ∈ Py.sorted (list_to_set (omap hcpcs l) ∖ list_to_set codes) ↔
  (∃ p, p ∈ l ∧ hcpcs p = Some c) ∧ c ∉ codes.
Proof.
  fold (product_codes l).
  rewrite <- elem_of_product_codes, elem_of_sorted, elem_of_difference,
    elem_of_list_to_set.
  reflexivity.
Qed.

(** C1, as the code has it.  The before-side code set is the one declared
    in before's own code list ([hcpcs_codes]), not the codes of before's
    products; the after-side code set is made of the codes that after's
    products carry.  [missing_hcpcs] holds exactly the declared codes that
    no after-product carries, [extra_hcpcs] exactly the carried codes
    that are not declared, and both ascend strictly. *)
Theorem C1_code_sets before after file_name r :
  compare_inventories before after file_name = Ok r →
  ∃ codes,
    hcpcs_codes before = Some codes
    ∧ (∀ c, c ∈ missing_hcpcs r ↔
            c ∈ codes ∧ ¬ ∃ p, p ∈ products after ∧ hcpcs p = Some c)
    ∧ (∀ c, c ∈ extra_hcpcs r ↔
            (∃ p, p ∈ products after ∧ hcpcs p = Some c) ∧ c ∉ codes)
    ∧ StronglySorted (strict String.le) (missing_hcpcs r)
    ∧ StronglySorted (strict String.le) (extra_hcpcs r).
Proof.
  intros (codes & bp & ap & Hc & _ & _ & Hm & He & _)%compare_inventories_Ok.
  exists codes. rewrite Hm, He. split_and!.
  - exact Hc.
  - intros c. apply elem_of_declared_only.
  - intros c. apply elem_of_carried_only.
  - apply sorted_ascending.
  - apply sorted_ascending.
Qed.

Lemma C1_code_sets_witness :
  ∃ r,
    compare_inventories samples.before_mobility samples.after_mobility
      "catalog_mobility_aids.html" = Ok r
    ∧ ∃ codes,
        hcpcs_codes samples.before_mobility = Some codes
        ∧ (∀ c, c ∈ missing_hcpcs r ↔
                c ∈ codes
                ∧ ¬ ∃ p, p ∈ products samples.after_mobility
                         ∧ hcpcs p = Some c)
        ∧ (∀ c, c ∈ extra_hcpcs r ↔
                (∃ p, p ∈ products samples.after_mobility
                      ∧ hcpcs p = Some c) ∧ c ∉ codes)
        ∧ StronglySorted (strict String.le) (missing_hcpcs r)
        ∧ StronglySorted (strict String.le) (extra_hcpcs r).
Proof.
  eexists. split; [vm_compute; reflexivity|].
  apply (C1_code_sets samples.before_mobility samples.after_mobility
           "catalog_mobility_aids.html").
  vm_compute. reflexivity.
Defined.

(** Against the specification's wording (code sets from the products of
    each side): a before-section that declares a code no product of it
    carries.  The products of both sides carry the same codes, yet the
    declared code is reported missing. *)
Lemma C1_counterexample :
  ∃ r,
    compare_inventories samples.before_mobility samples.after_mobility
      "catalog_mobility_aids.html" = Ok r
    ∧ missing_hcpcs r = ["E0130"]
    ∧ spec_missing_codes samples.before_mobility samples.after_mobility = []
    ∧ missing_hcpcs r
      ≠ spec_missing_codes samples.before_mobility samples.after_mobility.
Proof.
  eexists. split_and!; [vm_compute; reflexivity..|].
  vm_compute. discriminate.
Qed.

(** C2, as the code has it.  For every snapshot as the Snapshot Reader builds it (a
    declared code list, a name on every product) whose declared code
    list holds exactly the codes its products carry, comparing the
    snapshot with itself returns [all_match = true] and the four
    difference lists empty. *)
Theorem C2_compare_self S file_name codes :
  hcpcs_codes S = Some codes →
  Forall named (products S) →
  (list_to_set codes : gset string) = product_codes (products S) →
  ∃ r, compare_inventories S S file_name = Ok r
       ∧ all_match r = true
       ∧ missing_hcpcs r = [] ∧ extra_hcpcs r = []
       ∧ missing_products r = [] ∧ extra_products r = [].
Proof.
  intros Hc Hn Hs.
  destruct (compare_inventories_total S S file_name) as [r Hr]; [by eexists|done|].
  exists r. split; [done|].
  apply compare_inventories_Ok in Hr
    as (codes' & bp & ap & Hc' & Hbp & Hap & Hm & He & Hmp & Hep & _ & _
        & Hcm & Hpm & Hall).
  rewrite Hc in Hc'. injection Hc' as <-.
  fold (product_codes (products S)) in Hm, He. rewrite Hs in Hm, He.
  rewrite difference_diag_L, sorted_empty in Hm, He.
  assert (dom bp = dom ap) as Hd.
  { apply by_upper_name_Ok in Hbp as (_ & _ & Hb).
    apply by_upper_name_Ok in Hap as (_ & _ & Ha).
    apply set_eq. intros k. rewrite Hb, Ha.
    setoid_rewrite elem_of_with_name. unfold named. naive_solver. }
  rewrite Hd, difference_diag_L, sorted_empty in Hmp, Hep.
  injection Hmp as Hmp. injection Hep as Hep.
  rewrite Hall, Hcm, Hpm, Hm, He, <- Hmp, <- Hep.
  rewrite !bool_decide_eq_true_2 by done. done.
Qed.

Lemma C2_compare_self_witness :
  hcpcs_codes samples.swapped_before = Some ["E0100"; "E0130"]
  ∧ ∃ r, compare_inventories samples.swapped_before samples.swapped_before
           "catalog_mobility_aids.html" = Ok r
         ∧ all_match r = true
         ∧ missing_hcpcs r = [] ∧ extra_hcpcs r = []
         ∧ missing_products r = [] ∧ extra_products r = [].
Proof.
  split; [reflexivity|].
  apply (C2_compare_self samples.swapped_before
           "catalog_mobility_aids.html" ["E0100"; "E0130"]).
  - reflexivity.
  - repeat constructor; by eexists.
  - vm_compute. reflexivity.
Defined.

(** Against the specification's wording (every snapshot matches itself):
    the snapshot the Snapshot Reader makes of a section that declares a
    code none of its products carries.  Compared with itself it has a
    missing code and does not match. *)
Lemma C2_counterexample :
  ∃ r,
    compare_inventories samples.before_mobility samples.before_mobility
      "catalog_mobility_aids.html" = Ok r
    ∧ missing_hcpcs r = ["E0130"]
    ∧ all_match r = false.
Proof. eexists. split_and!; vm_compute; reflexivity. Qed.

(** the walker of the specification's scenario is reported missing, with
    its code *)
Example walker_missing :
  ∃ r, compare_inventories samples.walker_before samples.walker_after
         "catalog_mobility_aids.html" = Ok r
       ∧ categories_match r = true ∧ products_match r = false
       ∧ missing_products r = ["Walker"] ∧ missing_hcpcs r = ["E0130"]
       ∧ extra_products r = [] ∧ extra_hcpcs r = []
       ∧ all_match r = false.
Proof. eexists. split_and!; vm_compute; reflexivity. Qed.

(** Against the specification's wording (a code difference within a
    matched pair always surfaces): two matched pairs that have exchanged
    their codes.  "Cane" (E0100) matches "CANE" (E0130), the codes of
    the pair differ, and no code is reported missing or extra. *)
Lemma C7_counterexample :
  ∃ r,
    compare_inventories samples.swapped_before samples.swapped_after
      "catalog_mobility_aids.html" = Ok r
    ∧ Product (Some "Cane") (Some "E0100") ∈ products samples.swapped_before
    ∧ Product (Some "CANE") (Some "E0130") ∈ products samples.swapped_after
    ∧ Py.upper "Cane" = Py.upper "CANE"
    ∧ missing_products r = [] ∧ extra_products r = []
    ∧ missing_hcpcs r = [] ∧ extra_hcpcs r = []
    ∧ all_match r = true.
Proof.
  eexists. split_and!; try (vm_compute; reflexivity); simpl; left.
Qed.

(** a snapshot of the extractor has no declared code list: compared with
    itself it raises *)
Example compare_after_with_itself :
  compare_inventories samples.after_mobility samples.after_mobility
    "catalog_mobility_aids.html" = Raise (KeyError "hcpcs_codes").
Proof. vm_compute. reflexivity. Qed.

(** C9.  Every comparison the comparator returns has [missing_categories]
    and [extra_categories] empty; [categories_match] compares the two
    category counts and nothing else, and the comparison is the same
    whatever the category names of the two sides are. *)
Theorem C9_categories_not_diffed before after file_name r :
  compare_inventories before after file_name = Ok r →
  missing_categories r = [] ∧ extra_categories r = []
  ∧ categories_match r
    = bool_decide (num_categories before = num_categories after)
  ∧ ∀ cb ca,
      compare_inventories (with_categories cb before)
        (with_categories ca after) file_name = Ok r.
Proof.
  intros Hr.
  destruct (compare_inventories_Ok _ _ _ _ Hr)
    as (codes & bp & ap & _ & _ & _ & _ & _ & _ & _ & Hmc & Hec & Hcm & _).
  split_and!; [done..|]. intros cb ca. exact Hr.
Qed.

Lemma C9_categories_not_diffed_witness :
  ∃ r,
    compare_inventories samples.before_mobility samples.after_mobility
      "catalog_mobility_aids.html" = Ok r
    ∧ missing_categories r = [] ∧ extra_categories r = []
    ∧ categories_match r
      = bool_decide (num_categories samples.before_mobility
                     = num_categories samples.after_mobility)
    ∧ ∀ cb ca,
        compare_inventories (with_categories cb samples.before_mobility)
          (with_categories ca samples.after_mobility)
          "catalog_mobility_aids.html" = Ok r.
Proof.
  eexists. split; [vm_compute; reflexivity|].
  apply (C9_categories_not_diffed samples.before_mobility
           samples.after_mobility "catalog_mobility_aids.html").
  vm_compute. reflexivity.
Defined.

End comparator.

(** ** The reporter *)

Section reporter.

Import validate_inventory.






(** the entry of the report for the sample with fifteen missing *)
Example fifteen_missing_entry :
  file_lines samples.fifteen_missing
  = [rule "-"; "FILE: catalog_mobility_aids.html"; rule "-"; "";
     "  COUNTS COMPARISON:";
     "    Metric                         Before     After      Status    ";
     "    ------------------------------ ---------- ---------- ----------";
     "    Categories                     1          1          ✓ MATCH   ";
     "    Products                       15         0          ✗ MISMATCH";
     "";
     "  ✗ MISSING PRODUCTS (15):";
     "    - Product 1"; "    - Product 2"; "    - Product 3";
     "    - Product 4"; "    - Product 5"; "    - Product 6";
     "    - Product 7"; "    - Product 8"; "    - Product 9";
     "    - Product 10";
     "    ... and 5 more";
     "";
     "  File Status: FAIL";
     ""].
Proof. vm_compute. reflexivity. Qed.

(** the fifteen products of the sample, as the report lists them *)
Example fifteen_products_block :
  products_block "  ✗ MISSING PRODUCTS" samples.fifteen_products
  = ["  ✗ MISSING PRODUCTS (15):";
     "    - Product 1"; "    - Product 2"; "    - Product 3";
     "    - Product 4"; "    - Product 5"; "    - Product 6";
     "    - Product 7"; "    - Product 8"; "    - Product 9";
     "    - Product 10";
     "    ... and 5 more";
     ""].
Proof. vm_compute. reflexivity. Qed.

End reporter.

(** ** The snapshot reader *)

Section snapshot_reader.

Import Re validate_inventory.









(** the scenario of the specification: fifty declared, forty-nine listed *)
Example fifty_declared_forty_nine_listed :
  num_products (parse_section samples.fifty_declared) = 50%Z
  ∧ length (products (parse_section samples.fifty_declared)) = 49.
Proof. split; vm_compute; reflexivity. Qed.

End snapshot_reader.

(** ** The extractor *)

Section extractor.

Import Re validate_inventory.

(** C4.  [parse_html_file] keeps a heading that holds only white space:
    the pattern takes the white space as the heading text, [strip]
    empties it, and the empty string is a category of the result. *)
Theorem C4_blank_heading_kept :
  categories (parse_html samples.blank_heading_html) = [""]
  ∧ num_categories (parse_html samples.blank_heading_html) = 1%Z.
Proof. split; vm_compute; reflexivity. Qed.

(** C5.  [parse_html_file] gives a product whose code marker holds only
    white space the empty string as its code. *)
Theorem C5_blank_code_kept :
  products (parse_html samples.blank_code_html)
  = [Product (Some "Cane") (Some "")].
Proof. vm_compute. reflexivity. Qed.

(** The other extractor of the file, [CatalogParser], drops both.  Its
    handlers keep the object [guarded]: *)
Lemma handle_starttag_guarded self tag attrs self' :
  CatalogParser.guarded self →
  CatalogParser.handle_starttag self tag attrs = Ok self' →
  CatalogParser.guarded self'.
Proof.
  unfold CatalogParser.handle_starttag, CatalogParser.guarded.
  intros (Hc & Hp & Hcur) H.
  destruct (CatalogParser.class_of attrs) as [[class|]|]; [|done|by injection H as <-].
  injection H as <-.
  repeat (match goal with |- context [if ?b then _ else _] => destruct b end;
          simpl); split_and!; try done.
Qed.

Lemma handle_endtag_guarded self tag :
  CatalogParser.guarded self →
  CatalogParser.guarded (CatalogParser.handle_endtag self tag).
Proof.
  unfold CatalogParser.handle_endtag, CatalogParser.guarded,
    CatalogParser.filled.
  intros (Hc & Hp & Hn & Hh).
  repeat (match goal with
          | |- context [if ?b then _ else _] =>
              let E := fresh "E" in destruct b eqn:E
          end; simpl in * );
    rewrite ?Forall_app, ?Forall_singleton; split_and!; try done;
    try (intros ->; by rewrite ?String.eqb_refl in * );
    try (intros [= Heq]; rewrite Heq in *; by rewrite ?String.eqb_refl in * ).
Qed.

Lemma handle_data_guarded self data :
  CatalogParser.guarded self →
  CatalogParser.guarded (CatalogParser.handle_data self data).
Proof.
  unfold CatalogParser.handle_data.
  by destruct (_ || _).
Qed.

Lemma init_guarded : CatalogParser.guarded CatalogParser.init.
Proof. by split_and!; try constructor. Qed.

Lemma feed_guarded events : ∀ self self',
  CatalogParser.guarded self →
  CatalogParser.feed self events = Ok self' →
  CatalogParser.guarded self'.
Proof.
  induction events as [|e events IH]; simpl; intros self self' Hg H.
  - by injection H as <-.
  - apply bind_Ok in H as (self1 & H1 & H). apply (IH self1); [|done].
    destruct e; simpl in H1.
    + by apply (handle_starttag_guarded self tag attrs).
    + injection H1 as <-. by apply handle_endtag_guarded.
    + injection H1 as <-. by apply handle_data_guarded.
Qed.

(** after any run of tags and text, the parser holds no empty category
    and no product with an empty code *)
Lemma CatalogParser_drops_blanks events self :
  CatalogParser.feed CatalogParser.init events = Ok self →
  Forall (λ category, category ≠ "") (CatalogParser.categories self)
  ∧ Forall (λ p, hcpcs p ≠ Some "") (CatalogParser.products self).
Proof.
  intros (Hc & Hp & _)%(feed_guarded _ _ _ init_guarded).
  split; [done|]. eapply Forall_impl; [exact Hp|]. by intros p [_ ?].
Qed.

End extractor.

(** ** The simplifier *)

Section simplifier.

Import Re simplify_catalogs.






End simplifier.

(** ** The sections of the before file and the validation job *)

Section job.

Import Re validate_inventory.

Implicit Types (ms : list match_obj) (tl content : string)
  (files : fs) (bi ai : gmap string inventory).

(** what [split1] returns for the matches [ms] and the tail [tl] *)
Local Abbreviation pieces ms tl :=
  (concat ((λ m, [m_before m; group m 1]) <$> ms) ++ [tl]).

Lemma pieces_length ms tl : length (pieces ms tl) = 2 * length ms + 1.
Proof.
  induction ms as [|m ms IH]; [done|].
  cbn [fmap list_fmap concat app length] in *. lia.
Qed.

Lemma pieces_odd ms tl : ∀ j,
  pieces ms tl !! (2 * j + 1) = (λ m, group m 1) <$> ms !! j.
Proof.
  induction ms as [|m ms IH]; intros j.
  - destruct j; [done|]. replace (2 * S j + 1) with (S (S (2 * j + 1))) by lia.
    done.
  - destruct j; [done|]. replace (2 * S j + 1) with (S (S (2 * j + 1))) by lia.
    apply IH.
Qed.

Lemma pieces_even ms tl : ∀ j,
  j < length ms → is_Some (pieces ms tl !! (2 * j + 1 + 1)).
Proof.
  intros j Hj. apply lookup_lt_is_Some. rewrite pieces_length. lia.
Qed.

Lemma parse_before_fold ms tl : ∀ n,
  n ≤ length ms →
  ∃ bi,
    foldl (parse_before_step (pieces ms tl)) (Ok ∅)
      ((λ j, 2 * j + 1) <$> seq 0 n) = Ok bi
    ∧ (∀ f, f ∈ dom bi ↔ f ∈ take n ((λ m, group m 1) <$> ms))
    ∧ (∀ f d, bi !! f = Some d → ∃ text, d = parse_section text).
Proof.
  induction n as [|n IH]; intros Hn.
  - exists ∅. split_and!; [done| |].
    + intros f. rewrite dom_empty, take_0. set_solver.
    + intros f d. by rewrite lookup_empty.
  - destruct IH as (bi & Hbi & Hdom & Hval); [lia|].
    destruct (lookup_lt_is_Some_2 ms n) as [m Hm]; [lia|].
    destruct (pieces_even ms tl n) as [text Htext]; [lia|].
    exists (<[group m 1 := parse_section text]> bi).
    split_and!.
    + rewrite seq_S, Nat.add_0_l, fmap_app, foldl_app, Hbi.
      cbn [fmap list_fmap foldl].
      unfold parse_before_step, index.
      rewrite bind_ret, pieces_odd, Hm.
      cbn [fmap option_fmap option_map]. rewrite bind_ret, Htext.
      by rewrite bind_ret.
    + intros f. rewrite dom_insert, elem_of_union, Hdom, elem_of_singleton.
      rewrite (take_S_r _ _ (group m 1)) by (by rewrite list_lookup_fmap, Hm).
      rewrite elem_of_app, list_elem_of_singleton. tauto.
    + intros f d. rewrite lookup_insert. case_decide; [|by apply Hval].
      intros [= <-]. by exists text.
Qed.

(** [parse_inventory_before] returns on every content; its keys are the
    names of the delimiters found, its values sections read by the loop
    body *)
Lemma parse_before_Ok content :
  ∃ bi,
    parse_before content = Ok bi
    ∧ (∀ f, f ∈ dom bi ↔ f ∈ section_names content)
    ∧ (∀ f d, bi !! f = Some d → ∃ text, d = parse_section text).
Proof.
  unfold parse_before, section_names, split1, odd_indices.
  destruct (finditer section_pattern content) as [ms tl].
  cbn [fst].
  destruct (parse_before_fold ms tl (length ms)) as (bi & Hbi & Hdom & Hval);
    [done|].
  rewrite take_ge in Hdom by (by rewrite length_fmap).
  exists bi. split_and!; [|done..].
  rewrite pieces_length.
  replace ((2 * length ms + 1) / 2) with (length ms); [done|].
  apply Nat.div_unique with 1; lia.
Qed.

Lemma parse_section_named text :
  is_Some (hcpcs_codes (parse_section text))
  ∧ Forall named (products (parse_section text)).
Proof.
  split; [by eexists|]. cbn [products parse_section]. unfold parse_products.
  apply Forall_forall. intros p (line & _ & Hp)%list_elem_of_omap.
  destruct (match_ prod_line_pattern line); [|done].
  injection Hp as <-. by eexists.
Qed.







End job.

Section job_samples.

Import Re validate_inventory.



End job_samples.

(** * Further properties *)

(** ** More on the comparator *)

Section comparator_more.

Import validate_inventory.

Implicit Types (before after : inventory) (r : comparison)
  (p : product) (l : list product).

Lemma sorted_is_nil (X : gset string) : Py.sorted X = [] ↔ X = ∅.
Proof.
  split; [|intros ->; apply sorted_empty].
  intros E. apply set_eq. intros x. rewrite <- elem_of_sorted, E.
  set_solver.
Qed.

Lemma by_upper_name_unnamed l :
  ¬ Forall named l → by_upper_name l = Raise (KeyError "name").
Proof.
  intros H. unfold by_upper_name. generalize (∅ : gmap string product).
  induction l as [|p l IH]; intros m0; [by destruct H|]. cbn [foldl].
  unfold by_upper_name_step at 2. rewrite bind_ret.
  destruct (name p) as [n|] eqn:Hn; cbn [getitem].
  - rewrite bind_ret. apply IH. intros Hl. apply H. constructor; [|done].
    unfold named. by rewrite Hn.
  - rewrite bind_raise. apply by_upper_name_raise.
Qed.

(** X1.  [compare_inventories] returns exactly when the before side has a
    code list and a name on each of its products.  Without the code list
    it raises [KeyError('hcpcs_codes')]; with it and a nameless
    before-product, [KeyError('name')].  A nameless after-product is
    passed over and raises nothing. *)
Theorem X1_compare_raises before after file_name :
  (hcpcs_codes before = None →
   compare_inventories before after file_name
   = Raise (KeyError "hcpcs_codes"))
  ∧ (is_Some (hcpcs_codes before) → ¬ Forall named (products before) →
     compare_inventories before after file_name = Raise (KeyError "name"))
  ∧ (is_Some (hcpcs_codes before) → Forall named (products before) →
     ∃ r, compare_inventories before after file_name = Ok r).
Proof.
  split_and!.
  - intros H. unfold compare_inventories. rewrite H. apply bind_raise.
  - intros [codes H] Hn. unfold compare_inventories.
    rewrite H. cbn [getitem]. rewrite bind_ret.
    rewrite (by_upper_name_unnamed _ Hn). apply bind_raise.
  - intros H Hn. by apply compare_inventories_total.
Qed.

Lemma X1_compare_raises_witness :
  (hcpcs_codes samples.after_mobility = None
   ∧ compare_inventories samples.after_mobility samples.after_mobility
       "catalog_mobility_aids.html" = Raise (KeyError "hcpcs_codes"))
  ∧ (is_Some (hcpcs_codes samples.nameless_before)
     ∧ ¬ Forall named (products samples.nameless_before)
     ∧ compare_inventories samples.nameless_before samples.after_mobility
         "catalog_mobility_aids.html" = Raise (KeyError "name"))
  ∧ (is_Some (hcpcs_codes samples.swapped_before)
     ∧ Forall named (products samples.swapped_before)
     ∧ ∃ r, compare_inventories samples.swapped_before
              samples.after_mobility "catalog_mobility_aids.html" = Ok r).
Proof.
  assert (hcpcs_codes samples.after_mobility = None) as H1 by reflexivity.
  assert (is_Some (hcpcs_codes samples.nameless_before)) as H2
    by (by eexists).
  assert (¬ Forall named (products samples.nameless_before)) as H3.
  { intros H. apply Forall_cons in H as [_ H]. apply Forall_cons in H as [H _].
    by destruct H. }
  assert (is_Some (hcpcs_codes samples.swapped_before)) as H4 by (by eexists).
  assert (Forall named (products samples.swapped_before)) as H5
    by (repeat constructor; by eexists).
  split; [split; [exact H1|]|split; [split; [exact H2|split; [exact H3|]]
                                   |split; [exact H4|split; [exact H5|]]]].
  - exact (proj1 (X1_compare_raises samples.after_mobility
                    samples.after_mobility "catalog_mobility_aids.html") H1).
  - exact (proj1 (proj2 (X1_compare_raises samples.nameless_before
                           samples.after_mobility
                           "catalog_mobility_aids.html")) H2 H3).
  - exact (proj2 (proj2 (X1_compare_raises samples.swapped_before
                           samples.after_mobility
                           "catalog_mobility_aids.html")) H4 H5).
Defined.

Lemma names_of_length (d : gmap string product) keys ns :
  names_of d keys = Ok ns → length ns = length keys.
Proof. intros H%names_of_Ok. symmetry. by eapply Forall2_length. Qed.

Lemma differences_empty (X Y : gset string) :
  X ∖ Y = ∅ ∧ Y ∖ X = ∅ ↔ X = Y.
Proof.
  split.
  - intros [H1 H2]. apply set_eq. intros x. split; intros Hx.
    + destruct (decide (x ∈ Y)); [done|].
      assert (x ∈ X ∖ Y) as H by (by apply elem_of_difference).
      rewrite H1 in H. by apply not_elem_of_empty in H.
    + destruct (decide (x ∈ X)); [done|].
      assert (x ∈ Y ∖ X) as H by (by apply elem_of_difference).
      rewrite H2 in H. by apply not_elem_of_empty in H.
  - intros ->. by rewrite difference_diag_L.
Qed.

Lemma fmap_nil_iff {A B} (f : A → B) (l : list A) : f <$> l = [] ↔ l = [].
Proof. by destruct l. Qed.

(** the names listed are names of products of the dictionary *)
Lemma names_of_elem (d : gmap string product) keys ns e :
  names_of d keys = Ok ns → e ∈ ns →
  ∃ k p, k ∈ keys ∧ d !! k = Some p ∧ name p = Some e.
Proof.
  intros H%names_of_Ok. induction H as [|k n keys ns (p & Hp & Hn) _ IH].
  - by intros ?%elem_of_nil.
  - intros [->|He]%elem_of_cons.
    + exists k, p. split_and!; [left|done..].
    + destruct (IH He) as (k' & p' & ? & ? & ?).
      exists k', p'. split_and!; [by right|done..].
Qed.

End comparator_more.

(** ** The comparator, for any upper-casing function

    The lemmas on the comparator's dictionaries and the properties that
    depend on the names, for an arbitrary function [upper] in the place of
    [str.upper]. *)

Section any_upper.

Import validate_inventory.

Variable upper : string → string.

Implicit Types (before after : inventory) (r : comparison)
  (l : list product) (m d : gmap string product) (p : product)
  (k n : string).

Lemma by_upper_name_raise_any l e :
  foldl (by_upper_name_step_with upper) (Raise e) l = Raise e.
Proof. induction l as [|p l IH]; simpl; auto. Qed.

Lemma by_upper_name_spec_any l : ∀ m0 m,
  foldl (by_upper_name_step_with upper) (Ok m0) l = Ok m →
  keyed_with upper m0 →
  Forall named l
  ∧ keyed_with upper m
  ∧ ∀ k, k ∈ dom m ↔
         k ∈ dom m0 ∨ ∃ p n, p ∈ l ∧ name p = Some n ∧ upper n = k.
Proof.
  induction l as [|p l IH]; simpl; intros m0 m Hm Hk.
  - injection Hm as <-. split_and!; [constructor|done|]. set_solver.
  - unfold by_upper_name_step_with at 2 in Hm.
    destruct (name p) as [n|] eqn:Hn; run_bind_in Hm.
    2: { by rewrite by_upper_name_raise_any in Hm. }
    apply IH in Hm as (Hall & Hkm & Hdom).
    + split_and!; [constructor; [by eexists|done]|done|].
      intros k. rewrite Hdom, dom_insert. split.
      * intros [[->%elem_of_singleton|?]%elem_of_union|(q & n' & ? & ? & ?)].
        -- right. exists p, n. split_and!; [left|done..].
        -- by left.
        -- right. exists q, n'. split_and!; [by right|done..].
      * intros [?|(q & n' & [->|?]%elem_of_cons & Hq & <-)].
        -- left. set_solver.
        -- left. rewrite Hn in Hq. injection Hq as <-. set_solver.
        -- right. by exists q, n'.
    + intros k q. rewrite lookup_insert. case_decide as Hc.
      * intros [= <-]. by exists n.
      * apply Hk.
Qed.

Lemma by_upper_name_Ok_any l m :
  by_upper_name_with upper l = Ok m →
  Forall named l
  ∧ keyed_with upper m
  ∧ ∀ k, k ∈ dom m ↔ ∃ p n, p ∈ l ∧ name p = Some n ∧ upper n = k.
Proof.
  intros H. apply by_upper_name_spec_any in H as (? & ? & Hdom).
  - split_and!; [done..|]. intros k. rewrite Hdom. set_solver.
  - intros k p. by rewrite lookup_empty.
Qed.

Lemma by_upper_name_total_any l :
  Forall named l → ∃ m, by_upper_name_with upper l = Ok m.
Proof.
  intros H. unfold by_upper_name_with. generalize (∅ : gmap string product).
  induction H as [|p l [n Hn] _ IH]; intros m0; simpl; [by eexists|].
  unfold by_upper_name_step_with at 2. rewrite Hn. run_bind. apply IH.
Qed.

Lemma names_of_total_any d keys :
  keyed_with upper d → (∀ k, k ∈ keys → k ∈ dom d) →
  ∃ ns, names_of d keys = Ok ns.
Proof.
  intros Hk. unfold names_of.
  induction keys as [|k keys IH]; simpl; intros Hin; [by eexists|].
  assert (k ∈ dom d) as [p Hp]%elem_of_dom by (apply Hin; left).
  destruct (Hk _ _ Hp) as (n & Hn & _).
  destruct IH as [ns Hns]; [intros; apply Hin; by right|].
  exists (n :: ns). rewrite Hp, Hns. run_bind. by rewrite Hn.
Qed.

(** what a comparison that returns has read and computed *)
Lemma compare_inventories_Ok_any before after file_name r :
  compare_inventories_with upper before after file_name = Ok r →
  ∃ codes bp ap,
    hcpcs_codes before = Some codes
    ∧ by_upper_name_with upper (products before) = Ok bp
    ∧ by_upper_name_with upper (with_name (products after)) = Ok ap
    ∧ missing_hcpcs r
      = Py.sorted (list_to_set codes ∖ list_to_set (omap hcpcs (products after)))
    ∧ extra_hcpcs r
      = Py.sorted (list_to_set (omap hcpcs (products after)) ∖ list_to_set codes)
    ∧ names_of bp (Py.sorted (dom bp ∖ dom ap)) = Ok (missing_products r)
    ∧ names_of ap (Py.sorted (dom ap ∖ dom bp)) = Ok (extra_products r)
    ∧ missing_categories r = [] ∧ extra_categories r = []
    ∧ categories_match r
      = bool_decide (num_categories before = num_categories after)
    ∧ products_match r
      = bool_decide (num_products before = num_products after)
    ∧ all_match r
      = categories_match r && products_match r
        && bool_decide (missing_hcpcs r = [])
        && bool_decide (extra_hcpcs r = [])
        && bool_decide (missing_products r = [])
        && bool_decide (extra_products r = []).
Proof.
  unfold compare_inventories_with. intros H.
  apply bind_Ok in H as (codes & Hc%getitem_Ok & H).
  apply bind_Ok in H as (bp & Hbp & H).
  apply bind_Ok in H as (ap & Hap & H).
  apply bind_Ok in H as (mp & Hmp & H).
  apply bind_Ok in H as (ep & Hep & H).
  injection H as <-. exists codes, bp, ap. simpl.
  split_and!; try done.
  f_equal; [f_equal; [f_equal; [f_equal|]|]|];
    apply bool_decide_ext; unfold Py.len;
    (split; [intros ?; apply length_zero_iff_nil; lia | by intros ->]).
Qed.

(** the comparator returns on what the two readers hand it: a declared
    code list and a name on every before-product *)
Lemma compare_inventories_total_any before after file_name :
  is_Some (hcpcs_codes before) → Forall named (products before) →
  ∃ r, compare_inventories_with upper before after file_name = Ok r.
Proof.
  intros [codes Hc] Hb. unfold compare_inventories_with. rewrite Hc. run_bind.
  destruct (by_upper_name_total_any _ Hb) as [bp Hbp].
  destruct (by_upper_name_total_any _ (with_name_named (products after)))
    as [ap Hap].
  rewrite Hbp, Hap. run_bind.
  apply by_upper_name_Ok_any in Hbp as (_ & Hkb & _).
  apply by_upper_name_Ok_any in Hap as (_ & Hka & _).
  destruct (names_of_total_any bp (Py.sorted (dom bp ∖ dom ap)) Hkb) as [mp ->].
  { intros k. rewrite elem_of_sorted. set_solver. }
  destruct (names_of_total_any ap (Py.sorted (dom ap ∖ dom bp)) Hka) as [ep ->].
  { intros k. rewrite elem_of_sorted. set_solver. }
  run_bind. by eexists.
Qed.

(** every name listed for a run of keys upper-cases to one of the keys *)
Lemma names_of_upper_any (d : gmap string product) keys ns e :
  keyed_with upper d → names_of d keys = Ok ns → e ∈ ns → upper e ∈ keys.
Proof.
  intros Hk H%names_of_Ok. induction H as [|k n keys ns (p & Hp & Hn) _ IH].
  - by intros ?%elem_of_nil.
  - intros [->|?]%elem_of_cons; [|right; auto].
    destruct (Hk _ _ Hp) as (n' & Hn' & <-).
    rewrite Hn in Hn'. injection Hn' as <-. left.
Qed.

(** C7, as the code has it.  Whatever function the comparator
    upper-cases names with ([str.upper] in the program), a before-product
    and an after-product whose names, as the readers stored them, are
    equal once upper-cased put no entry in [missing_products] or in
    [extra_products].  Codes are compared
    catalog-wide and apart from names: the code of the before-product is
    in [missing_hcpcs] exactly when before's code list declares it and no
    after-product carries it, and the code of the after-product is in
    [extra_hcpcs] exactly when before's code list does not declare it. *)
Theorem C7_same_name before after file_name r pb pa nb na :
  compare_inventories_with upper before after file_name = Ok r →
  pb ∈ products before → pa ∈ products after →
  name pb = Some nb → name pa = Some na →
  upper nb = upper na →
  (∀ e, e ∈ missing_products r ∨ e ∈ extra_products r →
        upper e ≠ upper nb ∧ upper e ≠ upper na)
  ∧ (∀ codes cb ca,
       hcpcs_codes before = Some codes →
       hcpcs pb = Some cb → hcpcs pa = Some ca →
       (cb ∈ missing_hcpcs r ↔
          cb ∈ codes ∧ ¬ ∃ p, p ∈ products after ∧ hcpcs p = Some cb)
       ∧ (ca ∈ extra_hcpcs r ↔ ca ∉ codes)).
Proof.
  intros Hr Hpb Hpa Hnb Hna Hu. split.
  - apply compare_inventories_Ok_any in Hr
      as (codes & bp & ap & _ & Hbp & Hap & _ & _ & Hmp & Hep & _).
    apply by_upper_name_Ok_any in Hbp as (_ & Hkb & Hdb).
    apply by_upper_name_Ok_any in Hap as (_ & Hka & Hda).
    assert (upper nb ∈ dom bp) as Hb by (apply Hdb; eauto).
    assert (upper nb ∈ dom ap) as Ha.
    { apply Hda. exists pa, na. rewrite elem_of_with_name. unfold named.
      rewrite Hna. eauto. }
    intros e He. rewrite <- Hu.
    assert (upper e ≠ upper nb); [|done].
    intros Heq. destruct He as [He|He].
    + apply (names_of_upper_any _ _ _ _ Hkb Hmp) in He.
      rewrite Heq, elem_of_sorted in He. set_solver.
    + apply (names_of_upper_any _ _ _ _ Hka Hep) in He.
      rewrite Heq, elem_of_sorted in He. set_solver.
  - intros codes cb ca Hc Hcb Hca.
    apply compare_inventories_Ok_any in Hr
      as (codes' & bp & ap & Hc' & _ & _ & Hm & He & _).
    rewrite Hc in Hc'. injection Hc' as <-.
    rewrite Hm, He, elem_of_declared_only, elem_of_carried_only.
    split; [done|]. naive_solver.
Qed.

Lemma elem_of_name_keys_any k l :
  k ∈ name_keys_with upper l ↔ ∃ p n, p ∈ l ∧ name p = Some n ∧ upper n = k.
Proof.
  unfold name_keys_with. rewrite elem_of_list_to_set, list_elem_of_fmap.
  setoid_rewrite list_elem_of_omap. naive_solver.
Qed.

Lemma dom_by_upper_name_any l (m : gmap string product) :
  by_upper_name_with upper l = Ok m → dom m = name_keys_with upper l.
Proof.
  intros (_ & _ & Hdom)%by_upper_name_Ok_any. apply set_eq. intros k.
  by rewrite Hdom, elem_of_name_keys_any.
Qed.

Lemma name_keys_with_name_any l : name_keys_with upper (with_name l) = name_keys_with upper l.
Proof.
  apply set_eq. intros k. rewrite !elem_of_name_keys_any.
  setoid_rewrite elem_of_with_name. unfold named. naive_solver.
Qed.

(** the names listed for the keys of a keyed dictionary upper-case to
    the keys *)
Lemma names_of_keys_any (d : gmap string product) keys ns :
  keyed_with upper d → names_of d keys = Ok ns → upper <$> ns = keys.
Proof.
  intros Hk H%names_of_Ok.
  induction H as [|k n keys ns (p & Hp & Hn) _ IH]; [done|].
  cbn [fmap list_fmap]. f_equal; [|exact IH].
  destruct (Hk _ _ Hp) as (n' & Hn' & <-). congruence.
Qed.

(** what the two product differences of a comparison are *)
Lemma product_differences_any before after file_name r :
  compare_inventories_with upper before after file_name = Ok r →
  upper <$> missing_products r
  = Py.sorted (name_keys_with upper (products before) ∖ name_keys_with upper (products after))
  ∧ upper <$> extra_products r
    = Py.sorted (name_keys_with upper (products after) ∖ name_keys_with upper (products before)).
Proof.
  intros (codes & bp & ap & _ & Hbp & Hap & _ & _ & Hmp & Hep & _)
    %compare_inventories_Ok_any.
  rewrite <- (name_keys_with_name_any (products after)).
  rewrite <- (dom_by_upper_name_any _ _ Hbp), <- (dom_by_upper_name_any _ _ Hap).
  apply by_upper_name_Ok_any in Hbp as (_ & Hkb & _).
  apply by_upper_name_Ok_any in Hap as (_ & Hka & _).
  split; [exact (names_of_keys_any _ _ _ Hkb Hmp)|exact (names_of_keys_any _ _ _ Hka Hep)].
Qed.

(** X2.  Whatever function the comparator upper-cases names with, a
    comparison passes exactly when the two category counts are equal,
    the two product counts are equal, the codes declared for the before
    side are, as a set, the codes the after-products carry, and the two
    sides have the same set of upper-cased product names. *)
Theorem X2_all_match before after file_name r codes :
  compare_inventories_with upper before after file_name = Ok r →
  hcpcs_codes before = Some codes →
  all_match r = true ↔
    num_categories before = num_categories after
    ∧ num_products before = num_products after
    ∧ (list_to_set codes : gset string) = product_codes (products after)
    ∧ name_keys_with upper (products before) = name_keys_with upper (products after).
Proof.
  intros Hr Hc.
  destruct (product_differences_any _ _ _ _ Hr) as [Hmp Hep].
  apply compare_inventories_Ok_any in Hr
    as (codes' & bp & ap & Hc' & _ & _ & Hm & He & _ & _ & _ & _ & Hcm & Hpm
        & ->).
  rewrite Hc in Hc'. injection Hc' as <-.
  fold (product_codes (products after)) in Hm, He.
  rewrite !andb_true_iff, !bool_decide_eq_true, Hcm, Hpm,
    !bool_decide_eq_true.
  rewrite <- (fmap_nil_iff upper (missing_products r)),
    <- (fmap_nil_iff upper (extra_products r)).
  rewrite Hm, He, Hmp, Hep, !sorted_is_nil.
  rewrite <- (differences_empty (list_to_set codes)),
    <- (differences_empty (name_keys_with upper (products before))).
  tauto.
Qed.

(** the products of the dictionary are products of the list *)
Lemma by_upper_name_values_any l : ∀ (m0 m : gmap string product),
  foldl (by_upper_name_step_with upper) (Ok m0) l = Ok m →
  ∀ k p, m !! k = Some p → p ∈ l ∨ m0 !! k = Some p.
Proof.
  induction l as [|q l IH]; cbn [foldl]; intros m0 m Hm k p Hp.
  - injection Hm as <-. by right.
  - unfold by_upper_name_step_with at 2 in Hm. rewrite bind_ret in Hm.
    destruct (name q) as [n|] eqn:Hn; cbn [getitem] in Hm.
    + rewrite bind_ret in Hm.
      destruct (IH _ _ Hm k p Hp) as [?|Hin]; [left; by right|].
      rewrite lookup_insert in Hin. case_decide; [|by right].
      injection Hin as <-. left. left.
    + by rewrite bind_raise, by_upper_name_raise_any in Hm.
Qed.

Lemma by_upper_name_elem_any l (m : gmap string product) k p :
  by_upper_name_with upper l = Ok m → m !! k = Some p → p ∈ l.
Proof.
  intros Hm Hp. destruct (by_upper_name_values_any _ _ _ Hm k p Hp) as [?|H];
    [done|]. by rewrite lookup_empty in H.
Qed.

(** X3.  Whatever function the comparator upper-cases names with: the
    missing products are before-products, listed under the names they
    have in the before file; upper-cased, the list is the
    ascending run of the upper-cased before-names that no after-product
    has, each once.  The extra products are the same with the sides
    exchanged. *)
Theorem X3_product_differences before after file_name r :
  compare_inventories_with upper before after file_name = Ok r →
  upper <$> missing_products r
  = Py.sorted (name_keys_with upper (products before) ∖ name_keys_with upper (products after))
  ∧ upper <$> extra_products r
    = Py.sorted (name_keys_with upper (products after) ∖ name_keys_with upper (products before))
  ∧ Forall (λ e, ∃ p, p ∈ products before ∧ name p = Some e)
           (missing_products r)
  ∧ Forall (λ e, ∃ p, p ∈ products after ∧ name p = Some e)
           (extra_products r)
  ∧ StronglySorted (strict String.le) (upper <$> missing_products r)
  ∧ StronglySorted (strict String.le) (upper <$> extra_products r).
Proof.
  intros Hr. destruct (product_differences_any _ _ _ _ Hr) as [Hm He].
  apply compare_inventories_Ok_any in Hr
    as (codes & bp & ap & _ & Hbp & Hap & _ & _ & Hmp & Hep & _).
  split_and!; [done|done| | |rewrite Hm|rewrite He];
    try apply sorted_ascending.
  - apply Forall_forall. intros e He'.
    destruct (names_of_elem _ _ _ _ Hmp He') as (k & p & _ & Hp & Hn).
    exists p. split; [|done]. exact (by_upper_name_elem_any _ _ _ _ Hbp Hp).
  - apply Forall_forall. intros e He'.
    destruct (names_of_elem _ _ _ _ Hep He') as (k & p & _ & Hp & Hn).
    exists p. split; [|done].
    pose proof (by_upper_name_elem_any _ _ _ _ Hap Hp) as Hin.
    by apply elem_of_with_name in Hin as [Hin _].
Qed.

(** a key that no later product has keeps its product *)
Lemma by_upper_name_keeps_any l k : ∀ (m0 m : gmap string product),
  foldl (by_upper_name_step_with upper) (Ok m0) l = Ok m →
  (∀ q n, q ∈ l → name q = Some n → upper n ≠ k) →
  m !! k = m0 !! k.
Proof.
  induction l as [|q l IH]; cbn [foldl]; intros m0 m Hm Hne.
  - by injection Hm as <-.
  - unfold by_upper_name_step_with at 2 in Hm. rewrite bind_ret in Hm.
    destruct (name q) as [n|] eqn:Hn; cbn [getitem] in Hm.
    + rewrite bind_ret in Hm. rewrite (IH _ _ Hm).
      * apply lookup_insert_ne. apply (Hne q); [left|done].
      * intros q' n' Hq'. apply Hne. by right.
    + by rewrite bind_raise, by_upper_name_raise_any in Hm.
Qed.

(** [{p['name'].upper(): p for p in l}] keeps, of the products with one
    upper-cased name, the last *)
Lemma by_upper_name_last_any l1 p l2 n (m : gmap string product) :
  by_upper_name_with upper (l1 ++ p :: l2) = Ok m →
  name p = Some n →
  (∀ q n', q ∈ l2 → name q = Some n' → upper n' ≠ upper n) →
  m !! upper n = Some p.
Proof.
  unfold by_upper_name_with. rewrite foldl_app. cbn [foldl]. intros Hm Hn Hl2.
  destruct (foldl (by_upper_name_step_with upper) (Ok ∅) l1) as [m1|e] eqn:H1.
  - unfold by_upper_name_step_with at 2 in Hm. rewrite bind_ret, Hn in Hm.
    cbn [getitem] in Hm. rewrite bind_ret in Hm.
    rewrite (by_upper_name_keeps_any _ _ _ _ Hm Hl2). apply lookup_insert_eq.
  - unfold by_upper_name_step_with at 2 in Hm.
    by rewrite bind_raise, by_upper_name_raise_any in Hm.
Qed.

(** X4.  Whatever function the comparator upper-cases names with,
    products are told apart by their upper-cased names only: of the
    before-products that share one, the last of the list stands for
    all.  When no after-product has that name, the last one's spelling
    is reported missing, and no other spelling of the name is. *)
Theorem X4_last_spelling before after file_name r l1 p l2 n :
  compare_inventories_with upper before after file_name = Ok r →
  products before = l1 ++ p :: l2 →
  name p = Some n →
  (∀ q n', q ∈ l2 → name q = Some n' → upper n' ≠ upper n) →
  (∀ q n', q ∈ products after → name q = Some n' →
           upper n' ≠ upper n) →
  n ∈ missing_products r
  ∧ ∀ e, e ∈ missing_products r → upper e = upper n → e = n.
Proof.
  intros Hr Hl Hn Hl2 Hafter.
  apply compare_inventories_Ok_any in Hr
    as (codes & bp & ap & _ & Hbp & Hap & _ & _ & Hmp & _).
  rewrite Hl in Hbp.
  pose proof (by_upper_name_last_any _ _ _ _ _ Hbp Hn Hl2) as Hp.
  destruct (by_upper_name_Ok_any _ _ Hbp) as (_ & Hkb & _).
  destruct (by_upper_name_Ok_any _ _ Hap) as (_ & _ & Hda).
  split.
  - assert (upper n ∈ Py.sorted (dom bp ∖ dom ap)) as Hk.
    { rewrite elem_of_sorted, elem_of_difference. split.
      - apply elem_of_dom. by eexists.
      - rewrite Hda. intros (q & n' & [Hq _]%elem_of_with_name & Hq' & Heq).
        by apply (Hafter q n'). }
    apply names_of_Ok in Hmp. revert Hk.
    induction Hmp as [|k e keys ns (p' & Hp' & Hn') _ IH];
      [by intros ?%elem_of_nil|].
    intros [<-|Hk]%elem_of_cons; [|right; by apply IH].
    rewrite Hp in Hp'. injection Hp' as <-.
    rewrite Hn in Hn'. injection Hn' as <-. left.
  - intros e He Hu.
    destruct (names_of_elem _ _ _ _ Hmp He) as (k & p' & _ & Hp' & Hn').
    destruct (Hkb _ _ Hp') as (e' & He' & <-).
    rewrite Hn' in He'. injection He' as <-.
    rewrite Hu, Hp in Hp'. injection Hp' as <-. congruence.
Qed.

End any_upper.

Section any_upper_samples.

Import validate_inventory.

(** [compare_inventories] is the instance at [Py.upper] *)
Lemma compare_inventories_upper :
  compare_inventories_with Py.upper = compare_inventories.
Proof. reflexivity. Qed.

Lemma product_differences before after file_name r :
  compare_inventories before after file_name = Ok r →
  Py.upper <$> missing_products r
  = Py.sorted (name_keys (products before) ∖ name_keys (products after))
  ∧ Py.upper <$> extra_products r
    = Py.sorted (name_keys (products after) ∖ name_keys (products before)).
Proof. exact (product_differences_any Py.upper before after file_name r). Qed.

Lemma C7_same_name_witness :
  ∃ r,
    compare_inventories_with samples.upper_latin samples.cafe_before
      samples.cafe_after "catalog_specialized.html" = Ok r
    ∧ samples.upper_latin "Café Chair" = samples.upper_latin "CAFÉ CHAIR"
    ∧ (∀ e, e ∈ missing_products r ∨ e ∈ extra_products r →
            samples.upper_latin e ≠ samples.upper_latin "Café Chair"
            ∧ samples.upper_latin e ≠ samples.upper_latin "CAFÉ CHAIR")
    ∧ (∀ codes cb ca,
         hcpcs_codes samples.cafe_before = Some codes →
         Some "E0100" = Some cb → Some "E0130" = Some ca →
         (cb ∈ missing_hcpcs r ↔
            cb ∈ codes
            ∧ ¬ ∃ p, p ∈ products samples.cafe_after ∧ hcpcs p = Some cb)
         ∧ (ca ∈ extra_hcpcs r ↔ ca ∉ codes)).
Proof.
  eexists. split; [vm_compute; reflexivity|].
  split; [vm_compute; reflexivity|].
  apply (C7_same_name samples.upper_latin samples.cafe_before
           samples.cafe_after "catalog_specialized.html" _
           (Product (Some "Café Chair") (Some "E0100"))
           (Product (Some "CAFÉ CHAIR") (Some "E0130"))
           "Café Chair" "CAFÉ CHAIR").
  - vm_compute. reflexivity.
  - simpl. left.
  - simpl. left.
  - reflexivity.
  - reflexivity.
  - vm_compute. reflexivity.
Defined.

Lemma X2_all_match_witness :
  ∃ r,
    compare_inventories_with samples.upper_latin samples.cafe_before
      samples.cafe_after "catalog_specialized.html" = Ok r
    ∧ hcpcs_codes samples.cafe_before = Some ["E0100"]
    ∧ (all_match r = true ↔
         num_categories samples.cafe_before
         = num_categories samples.cafe_after
         ∧ num_products samples.cafe_before
           = num_products samples.cafe_after
         ∧ (list_to_set ["E0100"] : gset string)
           = product_codes (products samples.cafe_after)
         ∧ name_keys_with samples.upper_latin (products samples.cafe_before)
           = name_keys_with samples.upper_latin
               (products samples.cafe_after)).
Proof.
  eexists. split; [vm_compute; reflexivity|]. split; [reflexivity|].
  apply (X2_all_match samples.upper_latin samples.cafe_before
           samples.cafe_after "catalog_specialized.html").
  - vm_compute. reflexivity.
  - reflexivity.
Defined.

Lemma X3_product_differences_witness :
  ∃ r,
    compare_inventories_with Py.upper samples.walker_before
      samples.walker_after "catalog_mobility_aids.html" = Ok r
    ∧ missing_products r = ["Walker"]
    ∧ Py.upper <$> missing_products r
      = Py.sorted (name_keys_with Py.upper (products samples.walker_before)
                   ∖ name_keys_with Py.upper
                       (products samples.walker_after))
    ∧ Py.upper <$> extra_products r
      = Py.sorted (name_keys_with Py.upper (products samples.walker_after)
                   ∖ name_keys_with Py.upper
                       (products samples.walker_before))
    ∧ Forall (λ e, ∃ p, p ∈ products samples.walker_before ∧ name p = Some e)
             (missing_products r)
    ∧ Forall (λ e, ∃ p, p ∈ products samples.walker_after ∧ name p = Some e)
             (extra_products r)
    ∧ StronglySorted (strict String.le) (Py.upper <$> missing_products r)
    ∧ StronglySorted (strict String.le) (Py.upper <$> extra_products r).
Proof.
  eexists. split; [vm_compute; reflexivity|]. split; [reflexivity|].
  apply (X3_product_differences Py.upper samples.walker_before
           samples.walker_after "catalog_mobility_aids.html").
  vm_compute. reflexivity.
Defined.

Lemma X4_last_spelling_witness :
  ∃ r,
    compare_inventories_with Py.upper samples.twice_before
      samples.after_mobility "catalog_mobility_aids.html" = Ok r
    ∧ missing_products r = ["WALKER"]
    ∧ "WALKER" ∈ missing_products r
    ∧ ∀ e, e ∈ missing_products r → Py.upper e = Py.upper "WALKER" →
           e = "WALKER".
Proof.
  eexists. split; [vm_compute; reflexivity|]. split; [reflexivity|].
  apply (X4_last_spelling Py.upper samples.twice_before
           samples.after_mobility "catalog_mobility_aids.html" _
           [Product (Some "Walker") (Some "E0130")]
           (Product (Some "WALKER") (Some "E0135")) []).
  - vm_compute. reflexivity.
  - reflexivity.
  - reflexivity.
  - by intros q n' ?%elem_of_nil.
  - intros q n' Hq Hn.
    replace (products samples.after_mobility)
      with [Product (Some "Cane") (Some "E0100")] in Hq
      by (vm_compute; reflexivity).
    apply list_elem_of_singleton in Hq as ->. injection Hn as <-.
    vm_compute. discriminate.
Defined.

End any_upper_samples.

(** ** More on the extractor *)

Section extractor_more.

Import Re validate_inventory.

Lemma prefix_true (p s : string) :
  String.prefix p s = true → ∃ t, s = p +:+ t.
Proof.
  revert s. induction p as [|a p IH]; intros s.
  - intros _. by exists s.
  - destruct s as [|b s]; [done|]. simpl.
    destruct (ascii_dec a b) as [->|]; [|done].
    intros [t ->]%IH. exists t. by rewrite app_cons.
Qed.

(** [s.split(sep)] of a text without [sep] is the text itself *)
Lemma split_aux_none (sep : string) : ∀ s cur,
  ¬ part_of sep s → Py.split_aux sep 0 cur s = [cur +:+ s].
Proof.
  induction s as [|a s IH]; intros cur Hno; cbn [Py.split_aux].
  - by rewrite app_nil_r.
  - destruct (String.prefix sep (String a s)) eqn:Hp.
    + destruct Hno. apply prefix_true in Hp as [t ->]. by exists "", t.
    + rewrite IH.
      * by rewrite <- app_assoc.
      * intros (b & t & ->). apply Hno. exists (String a b), t.
        by rewrite app_cons.
Qed.

Lemma split_none (sep s : string) : ¬ part_of sep s → Py.split sep s = [s].
Proof. intros H. unfold Py.split. by rewrite split_aux_none. Qed.

(** a pattern that starts with a literal is found only in a text that
    holds the literal *)
Lemma search_literal p r (s : string) m :
  search (Seq (Lit p) r) s = Some m → part_of p s.
Proof.
  intros [Hs Hm]%search_sound.
  apply matches_Seq_inv in Hm as (w1 & w2 & c1 & Hw & H1 & _).
  apply matches_Lit_inv in H1 as [-> _].
  exists (m_before m), (w2 +:+ m_after m). by rewrite Hs, Hw, <- !app_assoc.
Qed.

Lemma search_no_literal p r (s : string) :
  ¬ part_of p s → search (Seq (Lit p) r) s = None.
Proof.
  intros Hno. destruct (search _ s) as [m|] eqn:Hm; [|done].
  destruct Hno. by eapply search_literal.
Qed.

(** nothing is found where the pattern matches nowhere *)
Lemma finditer_None r (s : string) :
  search r s = None → finditer r s = ([], s).
Proof.
  unfold finditer, search. intros H.
  replace (2 * String.length s + 2) with (S (2 * String.length s + 1)) by lia.
  cbn [scan]. by rewrite H.
Qed.

(** X5.  A product block without the name marker yields no product,
    whatever else it holds; a block that yields a product yields one with
    a name, and with a code only when the block holds the code marker. *)
Theorem X5_card_markers (card : string) :
  (¬ part_of product_name_marker card → parse_card card = None)
  ∧ (∀ p, parse_card card = Some p →
          is_Some (name p)
          ∧ part_of product_name_marker card
          ∧ (is_Some (hcpcs p) → part_of hcpcs_code_marker card)).
Proof.
  unfold parse_card, product_name_pattern, hcpcs_code_pattern. cbn [chain].
  split.
  - intros Hno. by rewrite search_no_literal.
  - intros p.
    destruct (search (Seq (Lit product_name_marker) _) card) as [nm|] eqn:Hn;
      [|done].
    intros [= <-]. cbn [name hcpcs]. split_and!.
    + by eexists.
    + by eapply search_literal.
    + destruct (search (Seq (Lit hcpcs_code_marker) _) card) as [cm|] eqn:Hc;
        [|by intros [? ?]].
      intros _. by eapply search_literal.
Qed.

Lemma prefix_app_true (p t : string) : String.prefix p (p +:+ t) = true.
Proof.
  induction p as [|a p IH]; [by destruct t|].
  rewrite app_cons. simpl. by destruct (ascii_dec a a).
Qed.

(** [sub in s] holds exactly when [sub] is a part of [s] *)
Lemma contains_part_of (sub s : string) :
  Py.contains sub s = true ↔ part_of sub s.
Proof.
  split.
  - induction s as [|a s IH]; cbn [Py.contains].
    + rewrite orb_false_r. intros [t ->]%prefix_true. by exists "", t.
    + intros [[t Ht]%prefix_true|(b & t & ->)%IH]%orb_true_iff.
      * exists "", t. by rewrite Ht.
      * exists (String a b), t. by rewrite app_cons.
  - intros (b & t & ->). induction b as [|a b IH].
    + rewrite app_nil_l.
      destruct (sub +:+ t) eqn:E; cbn [Py.contains]; rewrite <- E;
        by rewrite prefix_app_true.
    + rewrite app_cons. cbn [Py.contains]. by rewrite IH, orb_true_r.
Qed.

Lemma not_part_of (sub s : string) :
  Py.contains sub s = false → ¬ part_of sub s.
Proof. intros H Hp%contains_part_of. congruence. Qed.

Lemma X5_card_markers_witness :
  (¬ part_of product_name_marker "<div>Cane</div>"
   ∧ parse_card "<div>Cane</div>" = None)
  ∧ ∀ p, parse_card (samples.card "Cane" None) = Some p →
         is_Some (name p)
         ∧ part_of product_name_marker (samples.card "Cane" None)
         ∧ (is_Some (hcpcs p) →
            part_of hcpcs_code_marker (samples.card "Cane" None)).
Proof.
  assert (¬ part_of product_name_marker "<div>Cane</div>") as H
    by (apply not_part_of; vm_compute; reflexivity).
  split.
  - split; [exact H|]. exact (proj1 (X5_card_markers "<div>Cane</div>") H).
  - exact (proj2 (X5_card_markers (samples.card "Cane" None))).
Defined.

(** X6.  A document without the product-card marker has no products, and
    a document without the category-header marker has no categories:
    the counts are zero and nothing is raised. *)
Theorem X6_no_markers (content : string) :
  (¬ part_of product_card_marker content →
   products (parse_html content) = []
   ∧ num_products (parse_html content) = 0%Z)
  ∧ (¬ part_of category_header_marker content →
     categories (parse_html content) = []
     ∧ num_categories (parse_html content) = 0%Z).
Proof.
  unfold parse_html. cbn [products num_products categories num_categories].
  split.
  - intros Hno. by rewrite split_none.
  - intros Hno. unfold findall1, category_pattern. cbn [chain].
    by rewrite finditer_None by (by apply search_no_literal).
Qed.

Lemma X6_no_markers_witness :
  (¬ part_of product_card_marker samples.no_rule_html
   ∧ products (parse_html samples.no_rule_html) = []
   ∧ num_products (parse_html samples.no_rule_html) = 0%Z)
  ∧ (¬ part_of category_header_marker samples.no_rule_html
     ∧ categories (parse_html samples.no_rule_html) = []
     ∧ num_categories (parse_html samples.no_rule_html) = 0%Z).
Proof.
  assert (¬ part_of product_card_marker samples.no_rule_html) as H1
    by (apply not_part_of; vm_compute; reflexivity).
  assert (¬ part_of category_header_marker samples.no_rule_html) as H2
    by (apply not_part_of; vm_compute; reflexivity).
  split.
  - split; [exact H1|exact (proj1 (X6_no_markers samples.no_rule_html) H1)].
  - split; [exact H2|exact (proj2 (X6_no_markers samples.no_rule_html) H2)].
Defined.

Lemma split_aux_nonempty (sep : string) (s : string) :
  ∀ skip cur, 0 < length (Py.split_aux sep skip cur s).
Proof.
  induction s as [|a s IH]; intros skip cur; cbn [Py.split_aux].
  - cbn [length]. lia.
  - destruct skip as [|n]; [|apply IH].
    destruct (String.prefix sep (String a s)); [cbn [length]; lia|apply IH].
Qed.

Lemma split_nonempty (sep s : string) : 0 < length (Py.split sep s).
Proof. apply split_aux_nonempty. Qed.

(** X7.  What the extractor stores is stripped and counted as it is: no
    category, product name or code has white space at either end (so
    [strip] leaves each as it is), every product has a name, the two
    counts are the lengths of the two lists, and there are no more
    products than product-card markers in the document. *)
Theorem X7_extracted_values (content : string) :
  let d := parse_html content in
  Forall (λ category, Py.strip category = category) (categories d)
  ∧ Forall (λ p, (∃ n, name p = Some n ∧ Py.strip n = n)
                 ∧ ∀ code, hcpcs p = Some code → Py.strip code = code)
           (products d)
  ∧ num_categories d = Py.len (categories d)
  ∧ num_products d = Py.len (products d)
  ∧ S (length (products d))
    ≤ length (Py.split product_card_marker content).
Proof.
  cbn zeta. split_and!.
  - apply (proj1 (parse_html_trimmed content)).
  - cbn [parse_html products]. apply Forall_forall.
    intros p (card & _ & Hp)%list_elem_of_omap.
    exact (parse_card_trimmed card p Hp).
  - done.
  - done.
  - cbn [parse_html products].
    assert (∀ l : list string, length (omap parse_card l) ≤ length l) as Hle.
    { induction l as [|x l IH]; [done|]. cbn [omap list_omap].
      destruct (parse_card x); simpl; lia. }
    specialize (Hle (drop 1 (Py.split product_card_marker content))).
    rewrite length_drop in Hle.
    pose proof (split_nonempty product_card_marker content). lia.
Qed.

End extractor_more.

(** ** More on the validation job *)

Section job_more.

Import Re validate_inventory.

Implicit Types (files : fs) (bi ai : gmap string inventory).






Lemma compare_inventories_file before after file_name r :
  compare_inventories before after file_name = Ok r → file r = file_name.
Proof.
  intros H. unfold compare_inventories in H. inv_bind H.
  by injection H as <-.
Qed.


(** X8.  Comparing what the snapshot reader makes of any section text with
    what the extractor makes of any document never raises: the reader
    always sets the code list and gives each product a name, which are
    the two keys the comparator looks up without a guard. *)
Theorem X8_readers_compare (file_content content file_name : string) :
  ∃ r, compare_inventories (parse_section file_content) (parse_html content)
         file_name = Ok r
       ∧ file r = file_name
       ∧ missing_categories r = [] ∧ extra_categories r = [].
Proof.
  destruct (compare_inventories_total (parse_section file_content)
              (parse_html content) file_name) as [r Hr];
    [apply parse_section_named..|].
  exists r. split; [done|].
  pose proof (compare_inventories_Ok _ _ _ _ Hr)
    as (? & ? & ? & _ & _ & _ & _ & _ & _ & _ & Hmc & Hec & _).
  split_and!; [|done..]. by eapply compare_inventories_file.
Qed.







End job_more.

Section job_more_samples.

Import Re validate_inventory.






End job_more_samples.

(** ** More on the snapshot reader *)

Section reader_more.

Import Re validate_inventory.

Implicit Types (content file_content : string) (bi : gmap string inventory).

(** the catalog names of the delimiters are of the form the pattern asks
    for *)
Lemma section_names_shape content f :
  f ∈ section_names content →
  ∃ stem, f = "catalog_" +:+ stem +:+ ".html"
          ∧ Py.all_chars Py.is_word stem = true ∧ stem ≠ "".
Proof.
  unfold section_names, finditer.
  intros (m & -> & Hm)%list_elem_of_fmap.
  pose proof (scan_sound section_pattern (2 * String.length content + 2)
                false content) as Hall.
  rewrite Forall_forall in Hall. destruct (Hall m Hm) as [_ Hmatch].
  apply section_shape in Hmatch
    as (rule1 & stem & rule2 & _ & _ & _ & _ & _ & Hword & Hne & Hg).
  exists stem. unfold group. rewrite Hg. by cbn [default from_option id].
Qed.

Lemma split1_length r (s : string) :
  ∃ n, length (split1 r s) = 2 * n + 1.
Proof.
  unfold split1. destruct (finditer r s) as [ms tl].
  exists (length ms). apply pieces_length.
Qed.

Lemma odd_indices_odd n : odd_indices (2 * n + 1) = (λ j, 2 * j + 1) <$> seq 0 n.
Proof.
  unfold odd_indices. replace ((2 * n + 1) / 2) with n; [done|].
  apply Nat.div_unique with 1; lia.
Qed.

(** the loop over the sections, on any list of pieces of odd length: the
    entry of a name is the section after its last occurrence *)
Lemma parse_before_last (l : list string) : ∀ n,
  2 * n + 1 ≤ length l →
  ∃ bi,
    foldl (parse_before_step l) (Ok ∅) ((λ j, 2 * j + 1) <$> seq 0 n) = Ok bi
    ∧ ∀ j f text,
        j < n → l !! (2 * j + 1) = Some f → l !! (2 * j + 2) = Some text →
        (∀ k, j < k → k < n → l !! (2 * k + 1) ≠ Some f) →
        bi !! f = Some (parse_section text).
Proof.
  induction n as [|n IH]; intros Hn.
  - exists ∅. split; [done|]. intros; lia.
  - destruct IH as (bi & Hbi & Hlast); [lia|].
    destruct (lookup_lt_is_Some_2 l (2 * n + 1)) as [fn Hfn]; [lia|].
    destruct (lookup_lt_is_Some_2 l (2 * n + 2)) as [tn Htn]; [lia|].
    exists (<[fn := parse_section tn]> bi). split.
    + rewrite seq_S, Nat.add_0_l, fmap_app, foldl_app, Hbi.
      cbn [fmap list_fmap foldl]. unfold parse_before_step, index.
      rewrite bind_ret, Hfn, bind_ret.
      replace (2 * n + 1 + 1) with (2 * n + 2) by lia.
      by rewrite Htn, bind_ret.
    + intros j f text Hj Hf Ht Hlater.
      destruct (decide (j = n)) as [->|Hne].
      * rewrite Hfn in Hf. rewrite Htn in Ht.
        injection Hf as ->. injection Ht as ->. apply lookup_insert_eq.
      * rewrite lookup_insert_ne.
        -- apply (Hlast j); [lia|done..|]. intros k ? ?. apply Hlater; lia.
        -- intros ->. apply (Hlater n); [lia..|done].
Qed.

Lemma section_lines_absent p r file_content :
  ¬ part_of p file_content → section_lines (Seq (Lit p) r) file_content = [].
Proof.
  intros Hno. unfold section_lines. by rewrite search_no_literal.
Qed.

(** X12.  [parse_inventory_before] returns on every content within the
    texts covered (ASCII, no run of more than 4300 digits): the index
    after a section name is always within the list of pieces.  Every key
    of the mapping it returns is of the form [catalog_<word>.html] and
    stands in the content on a [FILE:] line of its own; every value has
    the code list and the code count set, and a name on each product. *)
Theorem X12_section_keys content :
  Py.covered content = true →
  ∃ bi,
    parse_before content = Ok bi
    ∧ (∀ f, f ∈ dom bi →
         (∃ stem, f = "catalog_" +:+ stem +:+ ".html"
                  ∧ Py.all_chars Py.is_word stem = true ∧ stem ≠ "")
         ∧ part_of (Py.nl +:+ "FILE: " +:+ f +:+ Py.nl) content)
    ∧ (∀ f d, bi !! f = Some d →
         is_Some (hcpcs_codes d) ∧ is_Some (num_unique_hcpcs d)
         ∧ Forall named (products d)).
Proof.
  intros _. destruct (parse_before_Ok content) as (bi & Hbi & Hdom & Hval).
  exists bi. split_and!; [done| |].
  - intros f Hf%Hdom.
    split; [by apply (section_names_shape content)|].
    by apply section_name_line.
  - intros f d [text ->]%Hval. split_and!; [by eexists..|].
    apply parse_section_named.
Qed.

(** X13.  What the snapshot reader stores of a section is stripped: the
    category names, the codes and both fields of every product.  A code
    of the code list is never empty and never starts with [=], so a rule
    of [=] signs under the list is not taken for a code; every product
    has a name and a code. *)
Theorem X13_section_values file_content :
  let d := parse_section file_content in
  Forall (λ category, Py.strip category = category) (categories d)
  ∧ (∃ codes,
       hcpcs_codes d = Some codes
       ∧ Forall (λ code, code ≠ "" ∧ Py.strip code = code
                         ∧ String.prefix "=" code = false) codes)
  ∧ Forall (λ p, ∃ n code,
               name p = Some n ∧ hcpcs p = Some code
               ∧ Py.strip n = n ∧ Py.strip code = code)
           (products d).
Proof.
  cbn zeta. cbn [parse_section categories hcpcs_codes products]. split_and!.
  - unfold parse_categories. apply Forall_forall.
    intros c (line & _ & Hc)%list_elem_of_omap.
    destruct (match_ cat_line_pattern line); [|done].
    injection Hc as <-. apply strip_idem.
  - eexists. split; [done|]. unfold parse_hcpcs_codes. apply Forall_forall.
    intros c (line & _ & Hc)%list_elem_of_omap. cbn zeta in Hc.
    destruct (String.eqb (Py.strip line) "") eqn:Hempty; [done|].
    destruct (String.prefix "=" (Py.strip line)) eqn:Hrule; [done|].
    injection Hc as <-. split_and!; [|apply strip_idem|done].
    intros Heq. by rewrite Heq in Hempty.
  - unfold parse_products. apply Forall_forall.
    intros p (line & _ & Hp)%list_elem_of_omap.
    destruct (match_ prod_line_pattern line); [|done].
    injection Hp as <-. eexists _, _. cbn [name hcpcs].
    split_and!; [done..|apply strip_idem|apply strip_idem].
Qed.

(** X14.  A section without the heading of a list has that list empty:
    no categories without [CATEGORIES:], an empty code list without the
    code heading, no products without the product heading.  Without
    [STATISTICS:] too, both counts are zero. *)
Theorem X14_no_headings file_content :
  let d := parse_section file_content in
  (¬ part_of "CATEGORIES:" file_content → categories d = [])
  ∧ (¬ part_of "ALL HCPCS CODES (sorted, unique):" file_content →
     hcpcs_codes d = Some [])
  ∧ (¬ part_of "COMPLETE PRODUCT LIST:" file_content → products d = [])
  ∧ (¬ part_of "STATISTICS:" file_content →
     ¬ part_of "CATEGORIES:" file_content →
     ¬ part_of "COMPLETE PRODUCT LIST:" file_content →
     num_categories d = 0%Z ∧ num_products d = 0%Z).
Proof.
  cbn zeta.
  assert (¬ part_of "CATEGORIES:" file_content →
          parse_categories file_content = []) as Hc.
  { intros Hno. unfold parse_categories, cat_section_pattern. cbn [chain].
    by rewrite section_lines_absent. }
  assert (¬ part_of "COMPLETE PRODUCT LIST:" file_content →
          parse_products file_content = []) as Hp.
  { intros Hno. unfold parse_products, prod_section_pattern. cbn [chain].
    by rewrite section_lines_absent. }
  cbn [parse_section categories hcpcs_codes products num_categories
         num_products].
  split_and!; [done| |done|].
  - intros Hno. unfold parse_hcpcs_codes, hcpcs_section_pattern. cbn [chain].
    by rewrite section_lines_absent.
  - intros Hs Hcat Hprod. unfold stats_pattern. cbn [chain].
    rewrite search_no_literal by done. by rewrite Hc, Hp.
Qed.

(** X15.  When a before file within the texts covered has more than one
    section for a catalog, the mapping holds the last: the entry of a
    name is what the loop body makes of the text that follows the last
    delimiter with that name. *)
Theorem X15_last_section content j f text :
  Py.covered content = true →
  split1 section_pattern content !! (2 * j + 1) = Some f →
  split1 section_pattern content !! (2 * j + 2) = Some text →
  (∀ k, j < k → split1 section_pattern content !! (2 * k + 1) ≠ Some f) →
  ∃ bi, parse_before content = Ok bi
        ∧ bi !! f = Some (parse_section text).
Proof.
  intros _ Hf Ht Hlater. unfold parse_before.
  destruct (split1_length section_pattern content) as [n Hn].
  rewrite Hn, odd_indices_odd.
  destruct (parse_before_last (split1 section_pattern content) n)
    as (bi & Hbi & Hlast); [lia|].
  exists bi. split; [done|].
  apply (Hlast j); [|done..|by intros k ? _; apply Hlater].
  apply lookup_lt_Some in Ht. lia.
Qed.

End reader_more.

Section reader_more_samples.

Import Re validate_inventory.

Lemma X12_section_keys_witness :
  Py.covered (samples.before_file 7) = true
  ∧ ∃ bi,
      parse_before (samples.before_file 7) = Ok bi
      ∧ (∀ f, f ∈ dom bi →
           (∃ stem, f = "catalog_" +:+ stem +:+ ".html"
                    ∧ Py.all_chars Py.is_word stem = true ∧ stem ≠ "")
           ∧ part_of (Py.nl +:+ "FILE: " +:+ f +:+ Py.nl)
               (samples.before_file 7))
      ∧ (∀ f d, bi !! f = Some d →
           is_Some (hcpcs_codes d) ∧ is_Some (num_unique_hcpcs d)
           ∧ Forall named (products d)).
Proof.
  assert (Py.covered (samples.before_file 7) = true) as H
    by (vm_compute; reflexivity).
  split; [exact H|]. exact (X12_section_keys (samples.before_file 7) H).
Defined.

Lemma X14_no_headings_witness :
  (¬ part_of "CATEGORIES:" "Nothing listed."
   ∧ categories (parse_section "Nothing listed.") = [])
  ∧ (¬ part_of "ALL HCPCS CODES (sorted, unique):" "Nothing listed."
     ∧ hcpcs_codes (parse_section "Nothing listed.") = Some [])
  ∧ (¬ part_of "COMPLETE PRODUCT LIST:" "Nothing listed."
     ∧ products (parse_section "Nothing listed.") = [])
  ∧ (¬ part_of "STATISTICS:" "Nothing listed."
     ∧ num_categories (parse_section "Nothing listed.") = 0%Z
     ∧ num_products (parse_section "Nothing listed.") = 0%Z).
Proof.
  assert (¬ part_of "CATEGORIES:" "Nothing listed.") as H1
    by (apply not_part_of; vm_compute; reflexivity).
  assert (¬ part_of "ALL HCPCS CODES (sorted, unique):" "Nothing listed.")
    as H2 by (apply not_part_of; vm_compute; reflexivity).
  assert (¬ part_of "COMPLETE PRODUCT LIST:" "Nothing listed.") as H3
    by (apply not_part_of; vm_compute; reflexivity).
  assert (¬ part_of "STATISTICS:" "Nothing listed.") as H4
    by (apply not_part_of; vm_compute; reflexivity).
  destruct (X14_no_headings "Nothing listed.") as (G1 & G2 & G3 & G4).
  split_and!; [exact H1|exact (G1 H1)|exact H2|exact (G2 H2)|exact H3
               |exact (G3 H3)|exact H4|exact (proj1 (G4 H4 H1 H3))
               |exact (proj2 (G4 H4 H1 H3))].
Defined.

Lemma X15_last_section_witness :
  (Py.covered samples.twice_sectioned = true
   ∧ split1 section_pattern samples.twice_sectioned !! (2 * 1 + 1)
   = Some "catalog_specialized.html"
   ∧ split1 section_pattern samples.twice_sectioned !! (2 * 1 + 2)
     = Some samples.walker_section
   ∧ ∀ k, 1 < k →
          split1 section_pattern samples.twice_sectioned !! (2 * k + 1)
          ≠ Some "catalog_specialized.html")
  ∧ ∃ bi, parse_before samples.twice_sectioned = Ok bi
          ∧ bi !! "catalog_specialized.html"
            = Some (parse_section samples.walker_section).
Proof.
  assert (split1 section_pattern samples.twice_sectioned
          = [""; "catalog_specialized.html"; samples.two_codes_one_product;
             "catalog_specialized.html"; samples.walker_section]) as E
    by (vm_compute; reflexivity).
  assert (split1 section_pattern samples.twice_sectioned !! (2 * 1 + 1)
          = Some "catalog_specialized.html") as H1 by (by rewrite E).
  assert (split1 section_pattern samples.twice_sectioned !! (2 * 1 + 2)
          = Some samples.walker_section) as H2 by (by rewrite E).
  assert (∀ k, 1 < k →
            split1 section_pattern samples.twice_sectioned !! (2 * k + 1)
            ≠ Some "catalog_specialized.html") as H3.
  { intros k Hk. rewrite E, lookup_ge_None_2; [done|]. cbn [length]. lia. }
  assert (Py.covered samples.twice_sectioned = true) as H0
    by (vm_compute; reflexivity).
  split; [exact (conj H0 (conj H1 (conj H2 H3)))|].
  exact (X15_last_section _ _ _ _ H0 H1 H2 H3).
Defined.

End reader_more_samples.

(** ** More on the report *)

Section reporter_more.

Import validate_inventory.

Implicit Types (before after : inventory) (r c : comparison)
  (l : list string).

Lemma has_issues_false c :
  has_issues c = false
  ↔ missing_hcpcs c = [] ∧ extra_hcpcs c = []
    ∧ missing_products c = [] ∧ extra_products c = [].
Proof.
  unfold has_issues.
  rewrite !orb_false_iff, !negb_false_iff, !bool_decide_eq_true. tauto.
Qed.

(** the four lists of differences are empty exactly when the two sets of
    codes and the two sets of names are the same *)
Lemma no_issues_iff before after file_name r codes :
  compare_inventories before after file_name = Ok r →
  hcpcs_codes before = Some codes →
  has_issues r = false
  ↔ (list_to_set codes : gset string) = product_codes (products after)
    ∧ name_keys (products before) = name_keys (products after).
Proof.
  intros Hr Hc. rewrite has_issues_false.
  destruct (product_differences _ _ _ _ Hr) as [Hmp Hep].
  apply compare_inventories_Ok in Hr
    as (codes' & bp & ap & Hc' & _ & _ & Hm & He & _).
  rewrite Hc in Hc'. injection Hc' as <-.
  fold (product_codes (products after)) in Hm, He.
  rewrite <- (fmap_nil_iff Py.upper (missing_products r)),
    <- (fmap_nil_iff Py.upper (extra_products r)).
  rewrite Hm, He, Hmp, Hep, !sorted_is_nil.
  rewrite <- (differences_empty (list_to_set codes)),
    <- (differences_empty (name_keys (products before))).
  tauto.
Qed.

(** X16.  A block of at most ten products lists them all and has no line
    for the rest: it is the block a code list of the same entries gets.
    A product block never has more than thirteen lines, whereas a code
    block has a line for every code. *)
Theorem X16_short_blocks (title : string) l :
  (length l ≤ 10 → products_block title l = codes_block title l)
  ∧ length (products_block title l) ≤ 13
  ∧ (l ≠ [] → length (codes_block title l) = length l + 2)
  ∧ (products_block title l = [] ↔ l = []).
Proof.
  split_and!.
  - intros Hl. destruct l as [|x l]; [done|].
    unfold products_block, codes_block.
    rewrite take_ge by lia.
    rewrite bool_decide_eq_false_2 by (unfold Py.len; lia). done.
  - destruct l as [|x l]; [cbn [products_block length]; lia|].
    unfold products_block. cbn [length].
    rewrite !List.length_app, length_fmap, length_take.
    destruct (bool_decide _); cbn [length]; lia.
  - intros Hne. destruct l as [|x l]; [done|].
    unfold codes_block. cbn [length].
    rewrite List.length_app, length_fmap. cbn [length]. lia.
  - split; [|by intros ->]. by destruct l.
Qed.

(** X17.  The file status and the list of issues are decided apart.  When
    the two sides have the same codes and the same names but differ in a
    count, the comparison has no difference to list and yet does not
    match: the report's entry for the file says that no issues were found
    and that everything is preserved, and ends with the status FAIL. *)
Theorem X17_fail_without_issues before after file_name r codes :
  compare_inventories before after file_name = Ok r →
  hcpcs_codes before = Some codes →
  (list_to_set codes : gset string) = product_codes (products after) →
  name_keys (products before) = name_keys (products after) →
  num_categories before ≠ num_categories after
  ∨ num_products before ≠ num_products after →
  all_match r = false
  ∧ file_lines r
    = [rule "-"; "FILE: " +:+ file_name; rule "-"; ""]
      ++ counts_lines r
      ++ ["  ✓ NO ISSUES FOUND";
          "  ✓ All categories preserved";
          "  ✓ All products preserved";
          "  ✓ All HCPCS codes preserved";
          "";
          "  File Status: FAIL";
          ""].
Proof.
  intros Hr Hc Hcodes Hnames Hcount.
  assert (has_issues r = false) as Hi
    by (by apply (no_issues_iff _ _ _ _ _ Hr Hc)).
  pose proof (compare_inventories_file _ _ _ _ Hr) as Hfile.
  pose proof Hi as (Hmh & Heh & Hmp & Hep)%has_issues_false.
  apply compare_inventories_Ok in Hr
    as (_ & _ & _ & _ & _ & _ & _ & _ & _ & _ & _ & _ & Hcm & Hpm & Ha).
  assert (all_match r = false) as Hfalse.
  { rewrite Ha, Hcm, Hpm.
    destruct Hcount as [Hn|Hn]; rewrite (bool_decide_eq_false_2 _ Hn);
      [done|]. by rewrite andb_false_r. }
  split; [done|].
  unfold file_lines.
  rewrite Hi, Hfalse, Hmh, Heh, Hmp, Hep, Hfile. reflexivity.
Qed.

Lemma X17_fail_without_issues_witness :
  ∃ r,
    compare_inventories samples.miscounted_before samples.swapped_after
      "catalog_mobility_aids.html" = Ok r
    ∧ hcpcs_codes samples.miscounted_before = Some ["E0100"; "E0130"]
    ∧ (list_to_set ["E0100"; "E0130"] : gset string)
      = product_codes (products samples.swapped_after)
    ∧ name_keys (products samples.miscounted_before)
      = name_keys (products samples.swapped_after)
    ∧ (num_categories samples.miscounted_before
       ≠ num_categories samples.swapped_after
       ∨ num_products samples.miscounted_before
         ≠ num_products samples.swapped_after)
    ∧ all_match r = false
    ∧ file_lines r
      = [rule "-"; "FILE: " +:+ "catalog_mobility_aids.html"; rule "-"; ""]
        ++ counts_lines r
        ++ ["  ✓ NO ISSUES FOUND";
            "  ✓ All categories preserved";
            "  ✓ All products preserved";
            "  ✓ All HCPCS codes preserved";
            "";
            "  File Status: FAIL";
            ""].
Proof.
  assert (∃ r, compare_inventories samples.miscounted_before
                 samples.swapped_after "catalog_mobility_aids.html" = Ok r)
    as [r Hr] by (eexists; vm_compute; reflexivity).
  assert ((list_to_set ["E0100"; "E0130"] : gset string)
          = product_codes (products samples.swapped_after)) as H1
    by compute_done.
  assert (name_keys (products samples.miscounted_before)
          = name_keys (products samples.swapped_after)) as H2
    by compute_done.
  assert (num_categories samples.miscounted_before
          ≠ num_categories samples.swapped_after
          ∨ num_products samples.miscounted_before
            ≠ num_products samples.swapped_after) as H3
    by (right; compute_done).
  exists r. split_and!; [exact Hr|reflexivity|exact H1|exact H2|exact H3|..];
    apply (X17_fail_without_issues _ _ _ _ _ Hr eq_refl H1 H2 H3).
Defined.

End reporter_more.

(** ** More on [CatalogParser] *)

Section parser_more.

Import validate_inventory.
Import CatalogParser.

Implicit Types (self : state) (events : list event).

Lemma joined_kept self :
  joined self ≠ "" → joined self ≠ "" ∧ Py.strip (joined self) = joined self.
Proof. intros H. split; [done|]. apply strip_idem. Qed.

Lemma eqb_empty (s : string) : String.eqb s "" = false → s ≠ "".
Proof. intros H ->. by rewrite String.eqb_refl in H. Qed.

Lemma handle_starttag_tidy self tag attrs self' :
  tidy self → handle_starttag self tag attrs = Ok self' → tidy self'.
Proof.
  unfold handle_starttag, tidy.
  intros (Hc & Hp & Hcur) H.
  destruct (class_of attrs) as [[class|]|]; [|done|by injection H as <-].
  injection H as <-.
  repeat (match goal with |- context [if ?b then _ else _] => destruct b end;
          simpl); split_and!; try done; by split.
Qed.

Lemma handle_endtag_tidy self tag : tidy self → tidy (handle_endtag self tag).
Proof.
  unfold handle_endtag, tidy, kept.
  intros (Hc & Hp & Hn & Hh).
  pose proof (strip_idem (String.concat "" (current_data self))) as Hs.
  fold (joined self) in Hs.
  repeat (match goal with
          | |- context [if ?b then _ else _] =>
              let E := fresh "E" in destruct b eqn:E
          end; simpl in * );
    rewrite ?Forall_app, ?Forall_singleton;
    repeat match goal with
           | H : negb _ = true |- _ => apply negb_true_iff, eqb_empty in H
           | H : _ && _ = true |- _ => apply andb_true_iff in H as [? ?]
           | H : bool_decide _ = true |- _ => apply bool_decide_eq_true in H
           end;
    split_and!; try done; try (by intros ? [= <-]); try (by intros ? [=]).
Qed.

Lemma handle_data_tidy self data : tidy self → tidy (handle_data self data).
Proof. unfold handle_data. by destruct (_ || _). Qed.

Lemma init_tidy : tidy init.
Proof. by split_and!; try constructor. Qed.

Lemma feed_tidy events : ∀ self self',
  tidy self → feed self events = Ok self' → tidy self'.
Proof.
  induction events as [|e events IH]; simpl; intros self self' Hg H.
  - by injection H as <-.
  - apply bind_Ok in H as (self1 & H1 & H). apply (IH self1); [|done].
    destruct e; simpl in H1.
    + by apply (handle_starttag_tidy self tag attrs).
    + injection H1 as <-. by apply handle_endtag_tidy.
    + injection H1 as <-. by apply handle_data_tidy.
Qed.

Lemma handle_total self e :
  ¬ valueless_class e → ∃ self', handle self e = Ok self'.
Proof.
  destruct e as [tag attrs| |]; cbn [handle valueless_class];
    [|by eexists..].
  intros Hv. unfold handle_starttag.
  destruct (class_of attrs) as [[class|]|]; [by eexists|done|by eexists].
Qed.

Lemma handle_raises self e x :
  handle self e = Raise x → x = TypeError ∧ valueless_class e.
Proof.
  destruct e as [tag attrs| |]; cbn [handle valueless_class]; [|done..].
  unfold handle_starttag.
  destruct (class_of attrs) as [[class|]|]; [done| |done].
  by intros [= <-].
Qed.

(** X18.  After any run of tags and text from a new parser, every
    category and every product name or code the parser has stored is
    stripped and not empty, and every product it has appended has a
    name. *)
Theorem X18_parser_stores events self :
  feed init events = Ok self →
  Forall (λ category, category ≠ "" ∧ Py.strip category = category)
         (categories self)
  ∧ Forall (λ p, (∃ n, name p = Some n ∧ n ≠ "" ∧ Py.strip n = n)
                 ∧ ∀ code, hcpcs p = Some code →
                           code ≠ "" ∧ Py.strip code = code)
           (products self).
Proof.
  intros (Hc & Hp & _)%(feed_tidy _ _ _ init_tidy).
  split; [done|]. eapply Forall_impl; [exact Hp|].
  intros p [[n Hn] [Hname Hcode]]. split; [|done].
  exists n. split; [done|]. by apply Hname.
Qed.

(** X19.  The parser ends with an exception exactly when it meets a start
    tag whose [class] attribute has no value; the exception is the
    [TypeError] of the membership test on [None]. *)
Theorem X19_feed_raises events : ∀ self,
  (Forall (λ e, ¬ valueless_class e) events →
   ∃ self', feed self events = Ok self')
  ∧ (Exists valueless_class events → feed self events = Raise TypeError).
Proof.
  induction events as [|e events IH]; intros self.
  - split; [by eexists|]. by intros ?%Exists_nil.
  - cbn [feed]. split.
    + intros [He Hes]%Forall_cons.
      destruct (handle_total self e He) as [self1 ->]. rewrite bind_ret.
      by apply IH.
    + intros Hex. destruct (handle self e) as [self1|x] eqn:Hh.
      * rewrite bind_ret. apply IH.
        apply Exists_cons in Hex as [He|Hes]; [|done].
        destruct e as [tag attrs| |]; cbn [valueless_class] in He;
          [|done..].
        cbn [handle] in Hh. unfold handle_starttag in Hh.
        by rewrite He in Hh.
      * apply handle_raises in Hh as [-> _]. apply bind_raise.
Qed.

(** X20.  The parser appends a product as soon as the block of its name
    closes.  For a card whose name (an ASCII text that is not blank)
    comes before its code, the product is appended without a code, and
    the code that follows is dropped: the card is no longer open when
    its marker is met. *)
Theorem X20_code_after_name self (n code : string) :
  in_category_header self = false → in_product_name self = false →
  in_hcpcs_code self = false → Py.isascii n = true → Py.strip n ≠ "" →
  ∃ self',
    feed self (card_events n code) = Ok self'
    ∧ products self' = products self ++ [Product (Some (Py.strip n)) None]
    ∧ categories self' = categories self
    ∧ in_product_card self' = false
    ∧ current_product self' = Product None None.
Proof.
  intros Hh Hn Hc _ Hne. destruct self as [cs ps cc ih ic inm icd cp cd].
  cbn in Hh, Hn, Hc. subst ih inm icd.
  assert (String.eqb (Py.strip n) "" = false) as He
    by (by apply String.eqb_neq).
  set (closed := State cs (ps ++ [Product (Some (Py.strip n)) None]) cc
                   false false false false (Product None None) []).
  assert (handle_starttag (State cs ps cc false ic false false cp cd) "div"
            [("class", Some "product-card")]
          = Ok (State cs ps cc false true false false (Product None None) cd))
    as H1 by reflexivity.
  assert (handle_starttag
            (State cs ps cc false true false false (Product None None) cd)
            "div" [("class", Some "product-name")]
          = Ok (State cs ps cc false true true false (Product None None) []))
    as H2 by reflexivity.
  assert (handle_data
            (State cs ps cc false true true false (Product None None) []) n
          = State cs ps cc false true true false (Product None None) [n])
    as H3 by reflexivity.
  assert (handle_endtag
            (State cs ps cc false true true false (Product None None) [n])
            "div"
          = closed) as H4.
  { unfold handle_endtag, joined.
    cbn [in_category_header in_product_name in_hcpcs_code categories
           products current_category in_product_card current_product
           current_data String.concat String.eqb Ascii.eqb Bool.eqb andb
           negb].
    rewrite He.
    cbn [in_category_header in_product_name in_hcpcs_code categories
           products current_category in_product_card current_product
           current_data andb negb name hcpcs].
    by rewrite bool_decide_eq_true_2 by (by eexists). }
  assert (handle_starttag closed "span" [("class", Some "hcpcs-code")]
          = Ok closed) as H5 by reflexivity.
  assert (handle_data closed code = closed) as H6 by reflexivity.
  assert (handle_endtag closed "span" = closed) as H7 by reflexivity.
  assert (handle_endtag closed "div" = closed) as H8 by reflexivity.
  exists closed. split; [|done].
  unfold card_events. cbn [feed handle].
  by rewrite H1, bind_ret, H2, bind_ret, H3, bind_ret, H4, bind_ret, H5,
    bind_ret, H6, bind_ret, H7, bind_ret, H8, bind_ret.
Qed.

Lemma X18_parser_stores_witness :
  ∃ self,
    feed init (card_events " Cane " "E0100") = Ok self
    ∧ Forall (λ category, category ≠ "" ∧ Py.strip category = category)
             (categories self)
    ∧ Forall (λ p, (∃ n, name p = Some n ∧ n ≠ "" ∧ Py.strip n = n)
                   ∧ ∀ code, hcpcs p = Some code →
                             code ≠ "" ∧ Py.strip code = code)
             (products self).
Proof.
  eexists. split; [vm_compute; reflexivity|].
  apply (X18_parser_stores (card_events " Cane " "E0100")).
  vm_compute. reflexivity.
Defined.

Lemma X20_code_after_name_witness :
  (in_category_header init = false ∧ in_product_name init = false
   ∧ in_hcpcs_code init = false ∧ Py.isascii " Cane " = true
   ∧ Py.strip " Cane " ≠ "")
  ∧ ∃ self',
      feed init (card_events " Cane " "E0100") = Ok self'
      ∧ products self' = products init ++ [Product (Some (Py.strip " Cane ")) None]
      ∧ categories self' = categories init
      ∧ in_product_card self' = false
      ∧ current_product self' = Product None None.
Proof.
  assert (Py.strip " Cane " ≠ "") as H by (vm_compute; discriminate).
  split; [by split_and!|].
  exact (X20_code_after_name init " Cane " "E0100" eq_refl eq_refl eq_refl
           eq_refl H).
Defined.

End parser_more.

(** ** More on the simplifier *)

Section simplifier_more.

Import Re simplify_catalogs.

Implicit Types (files : fs) (filepath content : string).

Lemma slen_zero (s : string) : Py.slen s = 0%Z → s = "".
Proof. destruct s; [done|]. unfold Py.slen. simpl. lia. Qed.

Lemma simplify_html_empty : simplify_html "" = Raise AttributeError.
Proof. vm_compute. reflexivity. Qed.

Lemma simplify_html_raises content e :
  simplify_html content = Raise e → e = AttributeError.
Proof.
  unfold simplify_html.
  destruct (search product_card_rule (stripped content)); [done|].
  rewrite bind_raise. by intros [= <-].
Qed.

(** the [try] block of [process_file], by what it reads *)
Lemma process_file_body_eq files filepath :
  process_file_body files filepath
  = match files !! filepath with
    | Some content =>
        match simplify_html content with
        | Ok simplified => Ok (<[filepath := simplified]> files)
        | Raise e => Raise e
        end
    | None => Raise (FileNotFoundError filepath)
    end.
Proof.
  unfold process_file_body, read_file.
  destruct (files !! filepath) as [content|]; [|done]. rewrite bind_ret.
  destruct (simplify_html content) as [simplified|e] eqn:Hs; [|done].
  rewrite bind_ret. case_bool_decide as Hz; [|done].
  apply slen_zero in Hz. subst content.
  by rewrite simplify_html_empty in Hs.
Qed.

(** one file of the list: a catalog that is there is put through
    [process_file], one that is not is passed over *)
Local Abbreviation step :=
  (λ '(files, success_count) filename,
     let filepath := base_path +:+ "/" +:+ filename in
     if bool_decide (is_Some (files !! filepath))
     then let '(files', ok) := process_file files filepath in
          (files', if ok then S success_count else success_count)
     else (files, success_count)).

(** what [main] leaves at the path of a catalog *)
Local Abbreviation left_of files filename :=
  ((λ content, match simplify_html content with
               | Ok simplified => simplified
               | Raise _ => content
               end) <$> files !! (base_path +:+ "/" +:+ filename)).

Local Abbreviation simplifies files filename :=
  (∃ content simplified,
     files !! (base_path +:+ "/" +:+ filename) = Some content
     ∧ simplify_html content = Ok simplified).

Lemma string_app_inj (s t u : string) : s +:+ t = s +:+ u → t = u.
Proof.
  induction s as [|a s IH]; [done|]. rewrite !app_cons. intros [= H].
  by apply IH.
Qed.

Lemma step_spec files (count : nat) filename :
  ∃ files' count',
    step (files, count) filename = (files', count')
    ∧ files' !! (base_path +:+ "/" +:+ filename) = left_of files filename
    ∧ (∀ path, path ≠ base_path +:+ "/" +:+ filename →
               files' !! path = files !! path)
    ∧ (count' = S count ∧ simplifies files filename
       ∨ count' = count ∧ ¬ simplifies files filename).
Proof.
  cbn zeta beta iota. unfold process_file. rewrite process_file_body_eq.
  destruct (files !! (base_path +:+ "/" +:+ filename)) as [content|] eqn:Hc.
  - rewrite bool_decide_eq_true_2 by (by eexists).
    destruct (simplify_html content) as [simplified|e] eqn:Hs.
    + eexists _, _. split; [done|]. split_and!.
      * rewrite lookup_insert_eq. cbn [fmap option_fmap option_map].
        by rewrite Hs.
      * intros path Hp. by rewrite lookup_insert_ne.
      * left. split; [done|]. by exists content, simplified.
    + eexists _, _. split; [done|]. split_and!; [|done|].
      * rewrite Hc. cbn [fmap option_fmap option_map]. by rewrite Hs.
      * right. split; [done|]. intros (c & s & [= <-] & Hs'). congruence.
  - rewrite bool_decide_eq_false_2 by (by intros [? ?]).
    eexists _, _. split; [done|]. split_and!; [by rewrite Hc|done|].
    right. split; [done|]. by intros (c & s & ? & _).
Qed.

Lemma main_fold (l : list string) : NoDup l → ∀ files (count : nat),
  ∃ files' count',
    foldl step (files, count) l = (files', count')
    ∧ (∀ filename, filename ∈ l →
         files' !! (base_path +:+ "/" +:+ filename) = left_of files filename)
    ∧ (∀ path, (∀ filename, filename ∈ l →
                            path ≠ base_path +:+ "/" +:+ filename) →
               files' !! path = files !! path)
    ∧ count' ≤ count + length l
    ∧ (count' = count + length l
       ↔ ∀ filename, filename ∈ l → simplifies files filename).
Proof.
  induction 1 as [|h l Hh Hnd IH]; intros files count.
  - exists files, count. split; [done|]. split_and!.
    + by intros f ?%elem_of_nil.
    + done.
    + cbn [length]. lia.
    + split; [by intros _ f ?%elem_of_nil|]. intros _. cbn [length]. lia.
  - destruct (step_spec files count h)
      as (files1 & count1 & Hstep & Hat & Hother & Hcount).
    destruct (IH files1 count1)
      as (files' & count' & Hfold & Hin & Hout & Hle & Hall).
    assert (∀ f, f ∈ l →
              files1 !! (base_path +:+ "/" +:+ f)
              = files !! (base_path +:+ "/" +:+ f)) as Hsame.
    { intros f Hf. apply Hother. intros Heq.
      apply string_app_inj, string_app_inj in Heq. by subst f. }
    exists files', count'.
    split; [cbn [foldl]; rewrite <- Hfold; f_equal; exact Hstep|].
    split_and!.
    + intros f [->|Hf]%elem_of_cons.
      * rewrite Hout; [done|]. intros g Hg Heq.
        apply string_app_inj, string_app_inj in Heq. by subst g.
      * rewrite (Hin f Hf). by rewrite (Hsame f Hf).
    + intros path Hpath. rewrite Hout.
      * apply Hother, Hpath. left.
      * intros g Hg. apply Hpath. by right.
    + cbn [length]. destruct Hcount as [[-> _]|[-> _]]; lia.
    + cbn [length]. split.
      * intros Hc f [->|Hf]%elem_of_cons.
        -- destruct Hcount as [[_ ?]|[-> _]]; [done|lia].
        -- assert (count' = count1 + length l) as Hc'
             by (destruct Hcount as [[-> _]|[-> _]]; lia).
           destruct (proj1 Hall Hc' f Hf) as (c & s & Hf1 & Hs).
           exists c, s. by rewrite <- (Hsame f Hf).
      * intros Hs. destruct Hcount as [[-> _]|[_ Hno]].
        -- assert (count' = S count + length l); [|lia].
           apply Hall. intros f Hf.
           destruct (Hs f) as (c & s & Hf1 & Hs'); [by right|].
           exists c, s. by rewrite (Hsame f Hf).
        -- destruct Hno. apply Hs. left.
Qed.

(** X21.  On a file system that is a map from paths to texts, the [try]
    block of [process_file] ends with one of two exceptions and no other:
    that of a file that is not there, and the [AttributeError] of
    [simplify_html].  The division by the size of the content read never
    fails, since an empty content has no [.product-card] rule.  A file
    that goes through holds the simplified content afterwards; in every
    other case the file system is left as it was. *)
Theorem X21_process_file files filepath :
  (∀ e, process_file_body files filepath = Raise e →
        files !! filepath = None ∧ e = FileNotFoundError filepath
        ∨ (∃ content, files !! filepath = Some content
                      ∧ simplify_html content = Raise AttributeError)
          ∧ e = AttributeError)
  ∧ (∀ files', process_file files filepath = (files', true) →
       ∃ content simplified,
         files !! filepath = Some content ∧ content ≠ ""
         ∧ simplify_html content = Ok simplified
         ∧ files' = <[filepath := simplified]> files)
  ∧ (∀ files', process_file files filepath = (files', false) →
               files' = files).
Proof.
  unfold process_file. rewrite process_file_body_eq.
  destruct (files !! filepath) as [content|] eqn:Hc.
  - destruct (simplify_html content) as [simplified|e] eqn:Hs.
    + split_and!; [done| |done].
      intros files' [= <-]. exists content, simplified.
      split_and!; [done| |done..].
      intros ->. by rewrite simplify_html_empty in Hs.
    + pose proof (simplify_html_raises _ _ Hs) as ->.
      split_and!; [|done|by intros files' [= <-]].
      intros e [= <-]. right. split; [|done]. by exists content.
  - split_and!; [|done|by intros files' [= <-]].
    intros e [= <-]. by left.
Qed.

(** X22.  [main] changes nothing but the seven catalogs: every other path
    holds what it held, and no path is added.  A catalog that is there
    and simplifies holds its simplified content afterwards, every other
    catalog is as it was.  [main] reports success exactly when each of
    the seven catalogs is there and simplifies. *)
Theorem X22_simplify_main files :
  ∃ files' ok,
    main files = (files', ok)
    ∧ (∀ filename, filename ∈ catalog_files →
         files' !! (base_path +:+ "/" +:+ filename)
         = (λ content, match simplify_html content with
                       | Ok simplified => simplified
                       | Raise _ => content
                       end) <$> files !! (base_path +:+ "/" +:+ filename))
    ∧ (∀ path, (∀ filename, filename ∈ catalog_files →
                            path ≠ base_path +:+ "/" +:+ filename) →
               files' !! path = files !! path)
    ∧ dom files' = dom files
    ∧ (ok = true
       ↔ ∀ filename, filename ∈ catalog_files →
           ∃ content simplified,
             files !! (base_path +:+ "/" +:+ filename) = Some content
             ∧ simplify_html content = Ok simplified).
Proof.
  assert (NoDup catalog_files) as Hnd by compute_done.
  destruct (main_fold catalog_files Hnd files 0)
    as (files' & count' & Hfold & Hin & Hout & Hle & Hall).
  exists files', (bool_decide (count' = length catalog_files)).
  split.
  { change (main files)
      with (let '(f, c) := foldl step (files, 0) catalog_files in
            (f, bool_decide (c = length catalog_files))).
    by rewrite Hfold. }
  split_and!; [done..| |].
  - apply set_eq. intros path. rewrite !elem_of_dom.
    destruct (decide (Exists (λ f, path = base_path +:+ "/" +:+ f)
                        catalog_files)) as [Hex|Hno].
    + apply Exists_exists in Hex as (f & Hf & ->). rewrite (Hin f Hf).
      by rewrite fmap_is_Some.
    + rewrite Hout; [done|]. intros f Hf ->. apply Hno, Exists_exists.
      by exists f.
  - rewrite bool_decide_eq_true. rewrite <- Hall. done.
Qed.

Lemma X21_process_file_witness :
  process_file_body {[samples.path := samples.no_rule_html]} samples.path
  = Raise AttributeError
  ∧ (({[samples.path := samples.no_rule_html]} : fs) !! samples.path = None
     ∧ AttributeError = FileNotFoundError samples.path
     ∨ (∃ content,
          ({[samples.path := samples.no_rule_html]} : fs) !! samples.path
          = Some content
          ∧ simplify_html content = Raise AttributeError)
       ∧ AttributeError = AttributeError).
Proof.
  assert (process_file_body {[samples.path := samples.no_rule_html]}
            samples.path = Raise AttributeError) as H
    by (vm_compute; reflexivity).
  split; [exact H|].
  exact (proj1 (X21_process_file {[samples.path := samples.no_rule_html]}
                  samples.path) AttributeError H).
Defined.

End simplifier_more.

(** ** A text without the simplifier's markers *)

Section simplifier_plain.

Import Re simplify_catalogs.

Implicit Types (files : fs) (filepath content s : string).

Lemma sub_None r tpl s : search r s = None → sub r tpl s = s.
Proof. intros H. unfold sub. by rewrite (finditer_None _ _ H). Qed.

Lemma search_no_group_literal n p r r' s :
  ¬ part_of p s → search (Seq (Grp n (Seq (Lit p) r)) r') s = None.
Proof.
  intros Hno. destruct (search _ s) as [m|] eqn:Hm; [|done].
  destruct Hno. apply search_sound in Hm as [Hs Hm].
  apply matches_Seq_inv in Hm as (w1 & w2 & c1 & Hw & H1 & _).
  apply matches_Grp_inv in H1 as (c2 & H1 & _).
  apply matches_Seq_inv in H1 as (w3 & w4 & c3 & Hw1 & H3 & _).
  apply matches_Lit_inv in H3 as [-> _].
  exists (m_before m), (w4 +:+ w2 +:+ m_after m).
  by rewrite Hs, Hw, Hw1, <- !app_assoc.
Qed.

Lemma stripped_plain content :
  Forall (λ w, ¬ part_of w content) removal_markers →
  stripped content = content.
Proof.
  unfold removal_markers.
  intros H. rewrite !Forall_cons in H.
  destruct H as (H1 & H2 & H3 & H4 & H5 & H6 & _).
  unfold stripped. cbn zeta.
  rewrite (sub_None icd10_row_pattern)
    by (unfold icd10_row_pattern; cbn [chain]; by apply search_no_literal).
  rewrite (sub_None (box_pattern "clinical-box"))
    by (unfold box_pattern; cbn [chain]; by apply search_no_literal).
  rewrite (sub_None (box_pattern "med-necessity"))
    by (unfold box_pattern; cbn [chain]; by apply search_no_literal).
  rewrite (sub_None (style_pattern "clinical-box"))
    by (unfold style_pattern; cbn [chain]; by apply search_no_literal).
  rewrite (sub_None (style_pattern "med-necessity"))
    by (unfold style_pattern; cbn [chain]; by apply search_no_literal).
  rewrite (sub_None padding_pattern)
    by (unfold padding_pattern; cbn [chain];
        by apply search_no_group_literal).
  apply sub_None. unfold page_break_pattern. cbn [chain].
  by apply search_no_group_literal.
Qed.

(** X23.  A text that holds none of the three blocks the simplifier
    removes and none of the three selectors it looks for goes through
    all removal steps unchanged; [simplify_html] then raises
    [AttributeError], and [process_file] returns [False] and leaves the
    file as it was. *)
Theorem X23_plain_text content :
  Forall (λ w, ¬ part_of w content) removal_markers →
  stripped content = content
  ∧ simplify_html content = Raise AttributeError
  ∧ ∀ files filepath,
      files !! filepath = Some content →
      process_file files filepath = (files, false).
Proof.
  intros Hplain. pose proof (stripped_plain _ Hplain) as Hs.
  assert (simplify_html content = Raise AttributeError) as Hraise.
  { unfold simplify_html. rewrite Hs.
    unfold product_card_rule, style_pattern. cbn [chain].
    rewrite search_no_literal; [apply bind_raise|].
    unfold removal_markers in Hplain. rewrite !Forall_cons in Hplain.
    by destruct Hplain as (_ & _ & _ & _ & _ & ? & _). }
  split_and!; [done..|].
  intros files filepath Hf. unfold process_file.
  by rewrite process_file_body_eq, Hf, Hraise.
Qed.

Lemma X23_plain_text_witness :
  Forall (λ w, ¬ part_of w samples.one_product_html) removal_markers
  ∧ stripped samples.one_product_html = samples.one_product_html
  ∧ simplify_html samples.one_product_html = Raise AttributeError
  ∧ ∀ files filepath,
      files !! filepath = Some samples.one_product_html →
      process_file files filepath = (files, false).
Proof.
  assert (Forall (λ w, ¬ part_of w samples.one_product_html) removal_markers)
    as H.
  { unfold removal_markers.
    repeat (constructor; [apply not_part_of; vm_compute; reflexivity|]).
    constructor. }
  split; [exact H|]. exact (X23_plain_text samples.one_product_html H).
Defined.

End simplifier_plain.

(** ** The overall status of the report *)

Section report_status.

Import validate_inventory.

Implicit Types (c : comparison) (comparisons : list comparison)
  (l : list string) (line : string).

Lemma get_app_lt (n : nat) (a b : string) :
  n < String.length a → String.get n (a +:+ b) = String.get n a.
Proof.
  revert n. induction a as [|x a IH]; intros n Hn; [simpl in Hn; lia|].
  rewrite app_cons. destruct n as [|n]; [done|]. cbn [String.get].
  apply IH. simpl in Hn. lia.
Qed.

(** a line whose third character is not [O] is not the line of the
    overall status *)
Lemma third_ne line verdict :
  String.get 2 line ≠ Some "O"%char →
  line ≠ "  Overall Status: " +:+ verdict.
Proof. intros H ->. by apply H. Qed.

Lemma fourth_ne line verdict :
  String.get 3 line ≠ Some "v"%char →
  line ≠ "  Overall Status: " +:+ verdict.
Proof. intros H ->. by apply H. Qed.

Ltac other_line :=
  first
    [ apply third_ne;
      first [ rewrite get_app_lt by (cbn [String.length]; lia) | idtac ];
      vm_compute; discriminate
    | apply fourth_ne; vm_compute; discriminate ].

Lemma block_lines verdict (title : string) (items : list string)
    (tail : list string) :
  String.get 2 title ≠ Some "O"%char → 2 < String.length title →
  Forall (λ line, line ≠ "  Overall Status: " +:+ verdict) tail →
  Forall (λ line, line ≠ "  Overall Status: " +:+ verdict)
    ((title +:+ " (" +:+ Py.str (Py.len items) +:+ "):")
     :: (entry <$> items) ++ tail).
Proof.
  intros Ht Hl Htail. apply Forall_cons. split.
  - apply third_ne. by rewrite get_app_lt.
  - apply Forall_app. split; [|done].
    apply Forall_fmap, Forall_forall. intros item _. cbn [compose].
    unfold entry. other_line.
Qed.

Lemma file_lines_other verdict c :
  Forall (λ line, line ≠ "  Overall Status: " +:+ verdict) (file_lines c).
Proof.
  unfold file_lines. rewrite !Forall_app. split_and!.
  - repeat (apply Forall_cons; split; [other_line|]). constructor.
  - unfold counts_lines.
    repeat (apply Forall_cons; split; [other_line|]). constructor.
  - unfold codes_block. destruct (missing_hcpcs c) as [|x l]; [constructor|].
    apply block_lines; [vm_compute; discriminate|cbn; lia|].
    repeat (apply Forall_cons; split; [other_line|]). constructor.
  - unfold codes_block. destruct (extra_hcpcs c) as [|x l]; [constructor|].
    apply block_lines; [vm_compute; discriminate|cbn; lia|].
    repeat (apply Forall_cons; split; [other_line|]). constructor.
  - unfold products_block.
    destruct (missing_products c) as [|x l]; [constructor|].
    apply Forall_cons. split; [other_line|].
    rewrite !Forall_app. split_and!.
    + apply Forall_fmap, Forall_forall. intros item _. cbn [compose].
      unfold entry. other_line.
    + destruct (bool_decide _); [|constructor].
      apply Forall_cons. split; [unfold more_line; other_line|constructor].
    + repeat (apply Forall_cons; split; [other_line|]). constructor.
  - unfold products_block.
    destruct (extra_products c) as [|x l]; [constructor|].
    apply Forall_cons. split; [other_line|].
    rewrite !Forall_app. split_and!.
    + apply Forall_fmap, Forall_forall. intros item _. cbn [compose].
      unfold entry. other_line.
    + destruct (bool_decide _); [|constructor].
      apply Forall_cons. split; [unfold more_line; other_line|constructor].
    + repeat (apply Forall_cons; split; [other_line|]). constructor.
  - destruct (has_issues c); [constructor|].
    repeat (apply Forall_cons; split; [other_line|]). constructor.
  - repeat (apply Forall_cons; split; [other_line|]). constructor.
Qed.

Lemma fixed_lines_other verdict :
  Forall (λ line, line ≠ "  Overall Status: " +:+ verdict) header_lines
  ∧ ∀ all_pass,
      Forall (λ line, line ≠ "  Overall Status: " +:+ verdict)
             (conclusion_lines all_pass).
Proof.
  split.
  - unfold header_lines.
    repeat (apply Forall_cons; split; [other_line|]). constructor.
  - intros all_pass. unfold conclusion_lines. rewrite !Forall_app.
    split_and!; [|destruct all_pass|];
      repeat (apply Forall_cons; split; [other_line|]); constructor.
Qed.

Lemma summary_lines_status comparisons verdict :
  "  Overall Status: " +:+ verdict ∈ summary_lines comparisons
  ↔ verdict = status (forallb all_match comparisons).
Proof.
  unfold summary_lines. cbn zeta.
  set (all_pass := forallb all_match comparisons).
  generalize (sum (before_num_categories <$> comparisons))
    (sum (after_num_categories <$> comparisons))
    (sum (before_num_products <$> comparisons))
    (sum (after_num_products <$> comparisons)).
  intros n1 n2 n3 n4. split.
  - rewrite !elem_of_app, !elem_of_cons.
    intros Hin.
    assert (∀ line, String.get 2 line ≠ Some "O"%char →
                    "  Overall Status: " +:+ verdict = line → False) as Hne.
    { intros line Hl Heq. by apply (third_ne line verdict). }
    repeat match goal with
           | H : _ ∨ _ |- _ => destruct H as [H|H]
           end;
      try (by apply elem_of_nil in Hin);
      try (by apply string_app_inj in Hin);
      try (exfalso; revert Hin; apply Hne;
           first [ rewrite get_app_lt by (cbn [String.length]; lia) | idtac ];
           vm_compute; discriminate).
    destruct all_pass; rewrite ?elem_of_cons in Hin;
      repeat match goal with
             | H : _ ∨ _ |- _ => destruct H as [H|H]
             end;
      try (by apply elem_of_nil in Hin);
      exfalso; revert Hin; apply Hne; vm_compute; discriminate.
  - intros ->. rewrite !elem_of_app. left. do 6 right. left.
Qed.

Lemma forallb_false {A} (f : A → bool) (xs : list A) :
  forallb f xs = false ↔ Exists (λ x, f x = false) xs.
Proof.
  induction xs as [|x xs IH]; cbn [forallb].
  - split; [done|]. by intros ?%Exists_nil.
  - rewrite andb_false_iff, Exists_cons, IH. done.
Qed.

(** among the entries of [report_lines], one is an overall status *)
Lemma report_lines_status comparisons verdict :
  "  Overall Status: " +:+ verdict ∈ report_lines comparisons
  ↔ verdict = status (forallb all_match comparisons).
Proof.
  rewrite <- summary_lines_status.
  unfold report_lines. rewrite !elem_of_app.
  destruct (fixed_lines_other verdict) as [Hh Hc].
  rewrite Forall_forall in Hh.
  specialize (Hc (forallb all_match comparisons)).
  rewrite Forall_forall in Hc.
  split; [|by intros ?; right; left].
  intros [Hin|[Hin|[Hin|Hin]]]; [by destruct (Hh _ Hin)|done|
                                 |by destruct (Hc _ Hin)].
  apply list_elem_of_In, in_concat in Hin as (lines & Hl & Hin).
  apply list_elem_of_In, list_elem_of_fmap in Hl as (c & -> & _).
  apply list_elem_of_In in Hin.
  pose proof (file_lines_other verdict c) as Hf.
  rewrite Forall_forall in Hf. by destruct (Hf _ Hin).
Qed.

(** splitting at the line breaks gives back the lines that were joined,
    when none of them holds a line break *)
Lemma all_chars_app (p : ascii → bool) (a b : string) :
  Py.all_chars p (a +:+ b) = Py.all_chars p a && Py.all_chars p b.
Proof.
  induction a as [|x a IH]; [done|]. rewrite app_cons.
  cbn [Py.all_chars]. by rewrite IH, andb_assoc.
Qed.

Lemma split_aux_line (x : string) : ∀ cur rest,
  one_line x = true →
  Py.split_aux Py.nl 0 cur (x +:+ rest)
  = Py.split_aux Py.nl 0 (cur +:+ x) rest.
Proof.
  induction x as [|a x IH]; intros cur rest Hx.
  - by rewrite app_nil_l, app_nil_r.
  - unfold one_line in Hx. cbn [Py.all_chars] in Hx.
    apply andb_true_iff in Hx as [Ha Hx]. apply negb_true_iff in Ha.
    rewrite app_cons. cbn [Py.split_aux].
    replace (String.prefix Py.nl (String a (x +:+ rest))) with false.
    + rewrite (IH _ _ Hx). f_equal.
      by rewrite <- app_assoc, app_cons, app_nil_l.
    + unfold Py.nl. cbn [String.prefix].
      destruct (ascii_dec "010" a) as [<-|]; [|done].
      by rewrite Ascii.eqb_refl in Ha.
Qed.

Lemma split_aux_break cur rest :
  Py.split_aux Py.nl 0 cur (Py.nl +:+ rest)
  = cur :: Py.split_aux Py.nl 0 "" rest.
Proof.
  unfold Py.nl. rewrite app_cons, app_nil_l. cbn [Py.split_aux].
  replace (String.prefix (String "010" "") (String "010" rest)) with true;
    [done|].
  cbn [String.prefix]. destruct (ascii_dec "010" "010"); [|done].
  by destruct rest.
Qed.

Lemma split_concat (x : string) (l : list string) : ∀ cur,
  Forall (λ y, one_line y = true) (x :: l) →
  Py.split_aux Py.nl 0 cur (String.concat Py.nl (x :: l))
  = (cur +:+ x) :: l.
Proof.
  revert x. induction l as [|y l IH]; intros x cur [Hx Hl]%Forall_cons.
  - cbn [String.concat]. rewrite <- (app_nil_r x) at 1.
    by rewrite split_aux_line.
  - change (String.concat Py.nl (x :: y :: l))
      with (x +:+ Py.nl +:+ String.concat Py.nl (y :: l)).
    rewrite split_aux_line, split_aux_break by done.
    by rewrite (IH y "" Hl), app_nil_l.
Qed.

Lemma one_line_app (a b : string) :
  one_line a = true → one_line b = true → one_line (a +:+ b) = true.
Proof. unfold one_line. intros Ha Hb. by rewrite all_chars_app, Ha, Hb. Qed.

Lemma one_line_repeat (a : ascii) n :
  a ≠ "010"%char → one_line (Py.repeat_char a n) = true.
Proof.
  intros Ha. unfold one_line. induction n as [|n IH]; [done|].
  cbn [Py.repeat_char Py.all_chars]. rewrite IH, andb_true_r.
  apply negb_true_iff, Ascii.eqb_neq, Ha.
Qed.

Lemma one_line_uint (d : Decimal.uint) :
  one_line (NilEmpty.string_of_uint d) = true.
Proof.
  unfold one_line.
  induction d; cbn [NilEmpty.string_of_uint Py.all_chars]; by rewrite ?IHd.
Qed.

Lemma one_line_str (n : Z) : one_line (Py.str n) = true.
Proof.
  unfold Py.str, NilZero.string_of_int, NilZero.string_of_uint.
  destruct (Z.to_int n) as [d|d]; destruct d; try done;
    try apply (one_line_uint (_ _));
    apply (one_line_app "-"); try done; apply (one_line_uint (_ _)).
Qed.

Lemma one_line_ljust w (x : string) :
  one_line x = true → one_line (ljust w x) = true.
Proof.
  intros Hx. unfold ljust. apply one_line_app; [done|].
  by apply one_line_repeat.
Qed.

Ltac one_liner :=
  repeat match goal with
  | |- one_line (_ +:+ _) = true => apply one_line_app
  | |- one_line (Py.str _) = true => apply one_line_str
  | |- one_line (ljust _ _) = true => apply one_line_ljust
  | |- one_line (Py.repeat_char _ _) = true => apply one_line_repeat; done
  | |- one_line (status ?b) = true => by destruct b
  | |- one_line (match_status ?b) = true => by destruct b
  | |- one_line _ = true => first [assumption | reflexivity]
  end.

Ltac one_liners :=
  repeat match goal with
  | |- Forall _ [] => apply Forall_nil_2
  | |- Forall _ (_ :: _) => apply Forall_cons; split; [one_liner|]
  | |- Forall _ (_ ++ _) => apply Forall_app; split
  end.

Lemma one_line_entries l :
  Forall (λ x, one_line x = true) l →
  Forall (λ x, one_line x = true) (entry <$> l).
Proof.
  intros H. apply Forall_fmap. eapply Forall_impl; [exact H|].
  intros x Hx. cbn [compose]. unfold entry. one_liner.
Qed.

Lemma file_lines_one_line c :
  on_one_line c → Forall (λ x, one_line x = true) (file_lines c).
Proof.
  intros (Hfile & Hitems). rewrite !Forall_app in Hitems.
  destruct Hitems as (Hmh & Heh & Hmp & Hep).
  unfold file_lines, counts_lines, rule. one_liners.
  - unfold codes_block. destruct (missing_hcpcs c) eqn:E; [constructor|].
    rewrite <- E in *. one_liners. by apply one_line_entries.
  - unfold codes_block. destruct (extra_hcpcs c) eqn:E; [constructor|].
    rewrite <- E in *. one_liners. by apply one_line_entries.
  - unfold products_block, more_line.
    destruct (missing_products c) eqn:E; [constructor|].
    rewrite <- E in *. one_liners.
    + by apply one_line_entries, Forall_take.
    + destruct (bool_decide _); one_liners.
  - unfold products_block, more_line.
    destruct (extra_products c) eqn:E; [constructor|].
    rewrite <- E in *. one_liners.
    + by apply one_line_entries, Forall_take.
    + destruct (bool_decide _); one_liners.
  - destruct (has_issues c); one_liners.
Qed.

Lemma report_lines_one_line comparisons :
  Forall on_one_line comparisons →
  Forall (λ x, one_line x = true) (report_lines comparisons).
Proof.
  intros H. unfold report_lines. rewrite !Forall_app. split_and!.
  - unfold header_lines, rule. one_liners.
  - unfold summary_lines, rule. cbn zeta.
    destruct (forallb all_match comparisons); one_liners.
  - apply Forall_concat, Forall_fmap. eapply Forall_impl; [exact H|].
    intros c Hc. by apply file_lines_one_line.
  - unfold conclusion_lines, rule.
    destruct (forallb all_match comparisons); one_liners.
Qed.

(** the lines of the text [generate_report] returns are the entries of
    [report_lines] *)
Lemma report_text_lines before_inventory after_inventory comparisons :
  Forall on_one_line comparisons →
  Py.split Py.nl
    (generate_report before_inventory after_inventory comparisons)
  = report_lines comparisons.
Proof.
  intros H%report_lines_one_line. unfold generate_report, Py.split.
  destruct (report_lines comparisons) as [|x l] eqn:E.
  - unfold report_lines, header_lines in E. discriminate.
  - by rewrite split_concat, app_nil_l.
Qed.

(** X24.  When no file name, code or product name of the comparisons
    holds a line break, the text [generate_report] returns has one line
    that is an overall status, and it says PASS exactly when every
    comparison has [all_match]: no other line of the header, of a file's
    entry or of the conclusion is an overall status, whatever is
    printed. *)
Theorem X24_overall_status
    (before_inventory after_inventory : gmap string inventory) comparisons :
  Forall on_one_line comparisons →
  let report :=
    generate_report before_inventory after_inventory comparisons in
  (∀ verdict,
     "  Overall Status: " +:+ verdict ∈ Py.split Py.nl report
     ↔ verdict = status (forallb all_match comparisons))
  ∧ ("  Overall Status: PASS" ∈ Py.split Py.nl report
     ↔ Forall (λ c, all_match c = true) comparisons)
  ∧ ("  Overall Status: FAIL" ∈ Py.split Py.nl report
     ↔ Exists (λ c, all_match c = false) comparisons).
Proof.
  intros Hone. cbn zeta. rewrite (report_text_lines _ _ _ Hone).
  split; [apply report_lines_status|].
  assert (forallb all_match comparisons = true
          ↔ Forall (λ c, all_match c = true) comparisons) as Hall.
  { rewrite forallb_forall, Forall_forall.
    split; intros H c Hc; apply H; by apply list_elem_of_In. }
  split.
  - change "  Overall Status: PASS" with ("  Overall Status: " +:+ "PASS").
    rewrite report_lines_status, <- Hall. by destruct (forallb _ _).
  - change "  Overall Status: FAIL" with ("  Overall Status: " +:+ "FAIL").
    rewrite report_lines_status, <- forallb_false. by destruct (forallb _ _).
Qed.

Lemma X24_overall_status_witness :
  Forall on_one_line [samples.fifteen_missing]
  ∧ (∀ verdict,
       "  Overall Status: " +:+ verdict
       ∈ Py.split Py.nl (generate_report ∅ ∅ [samples.fifteen_missing])
       ↔ verdict = status (forallb all_match [samples.fifteen_missing]))
  ∧ ("  Overall Status: PASS"
     ∈ Py.split Py.nl (generate_report ∅ ∅ [samples.fifteen_missing])
     ↔ Forall (λ c, all_match c = true) [samples.fifteen_missing])
  ∧ ("  Overall Status: FAIL"
     ∈ Py.split Py.nl (generate_report ∅ ∅ [samples.fifteen_missing])
     ↔ Exists (λ c, all_match c = false) [samples.fifteen_missing]).
Proof.
  assert (Forall on_one_line [samples.fifteen_missing]) as H.
  { constructor; [|constructor]. split; [reflexivity|].
    apply Forall_forall. intros x Hx. revert x Hx. apply Forall_forall.
    vm_compute. repeat constructor. }
  split; [exact H|].
  exact (X24_overall_status ∅ ∅ [samples.fifteen_missing] H).
Defined.

End report_status.

(** ** Sample runs of the report blocks and of the parser *)

Section more_samples.

Import validate_inventory.
Import CatalogParser.

Lemma X16_short_blocks_witness :
  (length ["Cane"; "Walker"] ≤ 10
   ∧ products_block "  ! EXTRA PRODUCTS" ["Cane"; "Walker"]
     = codes_block "  ! EXTRA PRODUCTS" ["Cane"; "Walker"])
  ∧ (["Cane"; "Walker"] ≠ []
     ∧ length (codes_block "  ! EXTRA HCPCS CODES" ["Cane"; "Walker"])
       = length ["Cane"; "Walker"] + 2).
Proof.
  assert (length ["Cane"; "Walker"] ≤ 10) as H1 by (cbn [length]; lia).
  assert (["Cane"; "Walker"] ≠ []) as H2 by done.
  split.
  - split; [exact H1|].
    exact (proj1 (X16_short_blocks "  ! EXTRA PRODUCTS" ["Cane"; "Walker"])
             H1).
  - split; [exact H2|].
    exact (proj1 (proj2 (proj2 (X16_short_blocks "  ! EXTRA HCPCS CODES"
                                  ["Cane"; "Walker"]))) H2).
Defined.

Lemma X19_feed_raises_witness :
  (Forall (λ e, ¬ valueless_class e) (card_events "Cane" "E0100")
   ∧ ∃ self', feed init (card_events "Cane" "E0100") = Ok self')
  ∧ (Exists valueless_class
       [Data "Cane"; StartTag "div" [("class", None)]]
     ∧ feed init [Data "Cane"; StartTag "div" [("class", None)]]
       = Raise TypeError).
Proof.
  assert (Forall (λ e, ¬ valueless_class e) (card_events "Cane" "E0100"))
    as H1.
  { unfold card_events. repeat (constructor; [by intros ?|]). constructor. }
  assert (Exists valueless_class
            [Data "Cane"; StartTag "div" [("class", None)]]) as H2.
  { apply Exists_cons_tl, Exists_cons_hd. reflexivity. }
  split.
  - split; [exact H1|]. exact (proj1 (X19_feed_raises _ init) H1).
  - split; [exact H2|]. exact (proj2 (X19_feed_raises _ init) H2).
Defined.

End more_samples.
